(** * Replication slot management (slot.cpp): model and verified properties

    A shallow embedding of [src/gausskernel/storage/replication/slot.cpp].
    Backend-visible state (the shared slot array, the session's current
    slot, held LWLocks, the files under [pg_replslot], the values published
    to the process array and to the WAL module) is threaded explicitly
    through a state-and-error monad; [ereport] at [ERROR] or above leaves the
    function, below that it appends to the report list and continues. *)

From Stdlib Require Import ZArith Ascii String List Bool Lia.
From stdpp Require Import base option gmap strings list fin_maps.

Local Open Scope string_scope.
Local Open Scope list_scope.
Local Open Scope Z_scope.

(** ** Scalar types and their invalid values *)

Definition TransactionId := Z.
Definition XLogRecPtr := Z.
Definition Oid := Z.

(** The three "invalid" sentinels are macros of headers outside slot.cpp.
    slot.cpp itself relies on their being zero: the slot array is zero
    filled at initialisation, and [SetDummyStandbySlotLsnInvalid] stores
    the literal 0 as the invalid LSN. *)
Definition InvalidOid : Oid := 0.
Definition InvalidTransactionId : TransactionId := 0.
Definition InvalidXLogRecPtr : XLogRecPtr := 0.

Definition TransactionIdIsValid (xid : TransactionId) : bool :=
  negb (xid =? InvalidTransactionId).

(** LSN comparison macros: plain numeric comparison of 64-bit positions. *)
Definition XLByteEQ (a b : XLogRecPtr) : bool := a =? b.
Definition XLByteLT (a b : XLogRecPtr) : bool := a <? b.

(** ** Slot descriptors *)

Inductive ReplicationSlotPersistency := RS_PERSISTENT | RS_EPHEMERAL.

Global Instance ReplicationSlotPersistency_eq_dec : EqDecision ReplicationSlotPersistency.
Proof. solve_decision. Defined.

(** The part of a slot that is written to disk ([slot->data]). *)
Record ReplicationSlotPersistentData := mkPersistentData {
  name : string;
  database : Oid;
  persistency : ReplicationSlotPersistency;
  isDummyStandby : bool;
  xmin : TransactionId;
  catalog_xmin : TransactionId;
  restart_lsn : XLogRecPtr
}.

(** One entry of the shared array. *)
Record ReplicationSlot := mkSlot {
  in_use : bool;
  active : bool;
  just_dirtied : bool;
  dirty : bool;
  effective_xmin : TransactionId;
  effective_catalog_xmin : TransactionId;
  data : ReplicationSlotPersistentData;
  candidate_catalog_xmin : TransactionId;
  candidate_xmin_lsn : XLogRecPtr;
  candidate_restart_valid : XLogRecPtr;
  candidate_restart_lsn : XLogRecPtr
}.

(** [NameStr(s->data.name)] *)
Definition NameStr (s : ReplicationSlot) : string := name (data s).

(** A slot as [memset] leaves it in [ReplicationSlotsShmemInit]. *)
Definition zero_data : ReplicationSlotPersistentData :=
  mkPersistentData "" 0 RS_PERSISTENT false 0 0 0.
Definition zero_slot : ReplicationSlot :=
  mkSlot false false false false 0 0 zero_data 0 0 0 0.

Global Instance ReplicationSlot_inhabited : Inhabited ReplicationSlot :=
  populate zero_slot.

(** Field assignments. *)
Definition set_in_use (b : bool) (s : ReplicationSlot) : ReplicationSlot :=
  mkSlot b (active s) (just_dirtied s) (dirty s) (effective_xmin s)
    (effective_catalog_xmin s) (data s) (candidate_catalog_xmin s)
    (candidate_xmin_lsn s) (candidate_restart_valid s) (candidate_restart_lsn s).
Definition set_active (b : bool) (s : ReplicationSlot) : ReplicationSlot :=
  mkSlot (in_use s) b (just_dirtied s) (dirty s) (effective_xmin s)
    (effective_catalog_xmin s) (data s) (candidate_catalog_xmin s)
    (candidate_xmin_lsn s) (candidate_restart_valid s) (candidate_restart_lsn s).
Definition set_just_dirtied (b : bool) (s : ReplicationSlot) : ReplicationSlot :=
  mkSlot (in_use s) (active s) b (dirty s) (effective_xmin s)
    (effective_catalog_xmin s) (data s) (candidate_catalog_xmin s)
    (candidate_xmin_lsn s) (candidate_restart_valid s) (candidate_restart_lsn s).
Definition set_dirty (b : bool) (s : ReplicationSlot) : ReplicationSlot :=
  mkSlot (in_use s) (active s) (just_dirtied s) b (effective_xmin s)
    (effective_catalog_xmin s) (data s) (candidate_catalog_xmin s)
    (candidate_xmin_lsn s) (candidate_restart_valid s) (candidate_restart_lsn s).
Definition set_effective_xmin (x : TransactionId) (s : ReplicationSlot) : ReplicationSlot :=
  mkSlot (in_use s) (active s) (just_dirtied s) (dirty s) x
    (effective_catalog_xmin s) (data s) (candidate_catalog_xmin s)
    (candidate_xmin_lsn s) (candidate_restart_valid s) (candidate_restart_lsn s).
Definition set_effective_catalog_xmin (x : TransactionId) (s : ReplicationSlot) : ReplicationSlot :=
  mkSlot (in_use s) (active s) (just_dirtied s) (dirty s) (effective_xmin s)
    x (data s) (candidate_catalog_xmin s)
    (candidate_xmin_lsn s) (candidate_restart_valid s) (candidate_restart_lsn s).
Definition set_data (d : ReplicationSlotPersistentData) (s : ReplicationSlot) : ReplicationSlot :=
  mkSlot (in_use s) (active s) (just_dirtied s) (dirty s) (effective_xmin s)
    (effective_catalog_xmin s) d (candidate_catalog_xmin s)
    (candidate_xmin_lsn s) (candidate_restart_valid s) (candidate_restart_lsn s).
(** The four candidate fields are always reset together. *)
Definition clear_candidates (s : ReplicationSlot) : ReplicationSlot :=
  mkSlot (in_use s) (active s) (just_dirtied s) (dirty s) (effective_xmin s)
    (effective_catalog_xmin s) (data s) InvalidTransactionId
    InvalidXLogRecPtr InvalidXLogRecPtr InvalidXLogRecPtr.

Definition set_persistency (p : ReplicationSlotPersistency)
    (d : ReplicationSlotPersistentData) : ReplicationSlotPersistentData :=
  mkPersistentData (name d) (database d) p (isDummyStandby d) (xmin d)
    (catalog_xmin d) (restart_lsn d).
Definition set_restart_lsn (l : XLogRecPtr)
    (d : ReplicationSlotPersistentData) : ReplicationSlotPersistentData :=
  mkPersistentData (name d) (database d) (persistency d) (isDummyStandby d)
    (xmin d) (catalog_xmin d) l.

(** ** Error reporting *)

Inductive ErrLevel := DEBUG1 | LOG | WARNING | ERROR | PANIC.

Inductive ErrCode :=
| ERRCODE_INVALID_NAME
| ERRCODE_NAME_TOO_LONG
| ERRCODE_DUPLICATE_OBJECT
| ERRCODE_UNDEFINED_OBJECT
| ERRCODE_OBJECT_IN_USE
| ERRCODE_CONFIGURATION_LIMIT_EXCEEDED
| ERRCODE_OBJECT_NOT_IN_PREREQUISITE_STATE
| ERRCODE_FILE_ACCESS        (* errcode_for_file_access() *)
| ERRCODE_DEFAULT.           (* no errcode given *)

Global Instance ErrLevel_eq_dec : EqDecision ErrLevel.
Proof. solve_decision. Defined.
Global Instance ErrCode_eq_dec : EqDecision ErrCode.
Proof. solve_decision. Defined.

Record Report := mkReport {
  elevel : ErrLevel;
  errcode : ErrCode;
  errmsg : string
}.

(** Levels at [ERROR] and above do not return to the caller. *)
Definition is_error (l : ErrLevel) : bool :=
  match l with ERROR | PANIC => true | _ => false end.

(** ** The on-disk record and the files under pg_replslot *)

(** [ReplicationSlotOnDisk]; the field [length_] is the C field [length]. *)
Record ReplicationSlotOnDisk := mkOnDisk {
  magic : Z;
  checksum : Z;
  version : Z;
  length_ : Z;
  slotdata : ReplicationSlotPersistentData
}.

(** What [read(fd, &cp, sizeof(ReplicationSlotOnDisk))] finds in a file:
    a whole record, or fewer bytes than one record. *)
Inductive FileImage :=
| Complete (cp : ReplicationSlotOnDisk)
| Short (readBytes : Z).

(** Paths built by the [snprintf_s] calls: "pg_replslot", "pg_replslot/d"
    and "pg_replslot/d/f". *)
Inductive Path :=
| PgReplslot
| SlotDir (d : string)
| SlotFile (d f : string).

Inductive Syscall :=
| SYS_open_creat      (* O_CREAT | O_WRONLY *)
| SYS_open_trunc      (* O_TRUNC | O_WRONLY *)
| SYS_open_rdonly
| SYS_write | SYS_read | SYS_fsync | SYS_close
| SYS_rename | SYS_unlink | SYS_mkdir | SYS_rmtree
| SYS_fsync_fname.

(** Directories of pg_replslot with their files.  [fs_fault n k p] tells
    whether the [n]-th system call of the run, of kind [k] on path [p],
    fails for a reason outside the model (EIO, ENOSPC, EACCES ...). *)
Record FileSystem := mkFS {
  fs_dirs : gmap string (gmap string FileImage);
  fs_clock : nat;
  fs_fault : nat -> Syscall -> Path -> bool
}.

Definition fs_file (f : FileSystem) (d fn : string) : option FileImage :=
  fs_dirs f !! d ≫= λ m, m !! fn.

Definition set_dirs (ds : gmap string (gmap string FileImage)) (f : FileSystem)
    : FileSystem :=
  mkFS ds (fs_clock f) (fs_fault f).

(** ** Backend state *)

Inductive LWLock :=
| ReplicationSlotAllocationLock
| ReplicationSlotControlLock
| ProcArrayLock
| LogicalReplicationSlotPersistentDataLock
| io_in_progress_lock (slot : nat).

Inductive LWLockMode := LW_EXCLUSIVE | LW_SHARED.

Global Instance LWLock_eq_dec : EqDecision LWLock.
Proof. solve_decision. Defined.

Inductive ServerMode :=
| NORMAL_MODE | PRIMARY_MODE | STANDBY_MODE | PENDING_MODE.

Global Instance ServerMode_eq_dec : EqDecision ServerMode.
Proof. solve_decision. Defined.

Record State := mkState {
  (* t_thrd.slot_cxt.ReplicationSlotCtl->replication_slots; its length is
     g_instance.attr.attr_storage.max_replication_slots *)
  replication_slots : list ReplicationSlot;
  (* t_thrd.slot_cxt.MyReplicationSlot, as an index into the array *)
  MyReplicationSlot : option nat;
  held_lwlocks : list (LWLock * LWLockMode);
  CritSectionCount : nat;
  fs : FileSystem;
  (* set by ProcArraySetReplicationSlotXmin *)
  replication_slot_xmin : TransactionId;
  replication_slot_catalog_xmin : TransactionId;
  (* set by XLogSetReplicationSlotMinimumLSN / MaximumLSN *)
  replication_slot_min_lsn : XLogRecPtr;
  replication_slot_max_lsn : XLogRecPtr;
  (* t_thrd.xlog_cxt.server_mode *)
  server_mode : ServerMode;
  (* PROC_IN_LOGICAL_DECODING of t_thrd.pgxact->vacuumFlags *)
  in_logical_decoding : bool;
  RecoveryInProgress : bool;
  reports : list Report
}.

Definition max_replication_slots (st : State) : nat :=
  List.length (replication_slots st).

Definition set_slots (l : list ReplicationSlot) (st : State) : State :=
  mkState l (MyReplicationSlot st) (held_lwlocks st) (CritSectionCount st)
    (fs st) (replication_slot_xmin st) (replication_slot_catalog_xmin st)
    (replication_slot_min_lsn st) (replication_slot_max_lsn st)
    (server_mode st) (in_logical_decoding st) (RecoveryInProgress st)
    (reports st).
Definition set_MyReplicationSlot (m : option nat) (st : State) : State :=
  mkState (replication_slots st) m (held_lwlocks st) (CritSectionCount st)
    (fs st) (replication_slot_xmin st) (replication_slot_catalog_xmin st)
    (replication_slot_min_lsn st) (replication_slot_max_lsn st)
    (server_mode st) (in_logical_decoding st) (RecoveryInProgress st)
    (reports st).
Definition set_held_lwlocks (h : list (LWLock * LWLockMode)) (st : State) : State :=
  mkState (replication_slots st) (MyReplicationSlot st) h (CritSectionCount st)
    (fs st) (replication_slot_xmin st) (replication_slot_catalog_xmin st)
    (replication_slot_min_lsn st) (replication_slot_max_lsn st)
    (server_mode st) (in_logical_decoding st) (RecoveryInProgress st)
    (reports st).
Definition set_CritSectionCount (n : nat) (st : State) : State :=
  mkState (replication_slots st) (MyReplicationSlot st) (held_lwlocks st) n
    (fs st) (replication_slot_xmin st) (replication_slot_catalog_xmin st)
    (replication_slot_min_lsn st) (replication_slot_max_lsn st)
    (server_mode st) (in_logical_decoding st) (RecoveryInProgress st)
    (reports st).
Definition set_fs (f : FileSystem) (st : State) : State :=
  mkState (replication_slots st) (MyReplicationSlot st) (held_lwlocks st)
    (CritSectionCount st) f (replication_slot_xmin st)
    (replication_slot_catalog_xmin st)
    (replication_slot_min_lsn st) (replication_slot_max_lsn st)
    (server_mode st) (in_logical_decoding st) (RecoveryInProgress st)
    (reports st).
Definition set_slot_xmins (x cx : TransactionId) (st : State) : State :=
  mkState (replication_slots st) (MyReplicationSlot st) (held_lwlocks st)
    (CritSectionCount st) (fs st) x cx
    (replication_slot_min_lsn st) (replication_slot_max_lsn st)
    (server_mode st) (in_logical_decoding st) (RecoveryInProgress st)
    (reports st).
Definition set_min_lsn (l : XLogRecPtr) (st : State) : State :=
  mkState (replication_slots st) (MyReplicationSlot st) (held_lwlocks st)
    (CritSectionCount st) (fs st) (replication_slot_xmin st)
    (replication_slot_catalog_xmin st) l (replication_slot_max_lsn st)
    (server_mode st) (in_logical_decoding st) (RecoveryInProgress st)
    (reports st).
Definition set_max_lsn (l : XLogRecPtr) (st : State) : State :=
  mkState (replication_slots st) (MyReplicationSlot st) (held_lwlocks st)
    (CritSectionCount st) (fs st) (replication_slot_xmin st)
    (replication_slot_catalog_xmin st) (replication_slot_min_lsn st) l
    (server_mode st) (in_logical_decoding st) (RecoveryInProgress st)
    (reports st).
Definition set_in_logical_decoding (b : bool) (st : State) : State :=
  mkState (replication_slots st) (MyReplicationSlot st) (held_lwlocks st)
    (CritSectionCount st) (fs st) (replication_slot_xmin st)
    (replication_slot_catalog_xmin st)
    (replication_slot_min_lsn st) (replication_slot_max_lsn st)
    (server_mode st) b (RecoveryInProgress st)
    (reports st).
Definition set_reports (r : list Report) (st : State) : State :=
  mkState (replication_slots st) (MyReplicationSlot st) (held_lwlocks st)
    (CritSectionCount st) (fs st) (replication_slot_xmin st)
    (replication_slot_catalog_xmin st)
    (replication_slot_min_lsn st) (replication_slot_max_lsn st)
    (server_mode st) (in_logical_decoding st) (RecoveryInProgress st)
    r.

Arguments set_slots _ !st /.
Arguments set_MyReplicationSlot _ !st /.
Arguments set_held_lwlocks _ !st /.
Arguments set_CritSectionCount _ !st /.
Arguments set_fs _ !st /.
Arguments set_slot_xmins _ _ !st /.
Arguments set_min_lsn _ !st /.
Arguments set_max_lsn _ !st /.
Arguments set_in_logical_decoding _ !st /.
Arguments set_reports _ !st /.

(** ** The state-and-error monad *)

Inductive Outcome (A : Type) :=
| Done (a : A) (st : State)          (* the function returned [a] *)
| Raised (e : Report) (st : State).  (* left through ereport(>= ERROR) *)
Arguments Done {A} a st.
Arguments Raised {A} e st.

Definition M (A : Type) : Type := State -> Outcome A.

Global Instance M_ret : MRet M := λ A a st, Done a st.
Global Instance M_bind : MBind M := λ A B f m st,
  match m st with
  | Done a st' => f a st'
  | Raised e st' => Raised e st'
  end.

Definition final_state {A} (o : Outcome A) : State :=
  match o with Done _ st => st | Raised _ st => st end.

Definition get {A} (proj : State -> A) : M A := λ st, Done (proj st) st.
Definition modify (f : State -> State) : M unit := λ st, Done tt (f st).

(** Inside a critical section an [ERROR] is promoted to [PANIC]. *)
Definition promote (lvl : ErrLevel) (st : State) : ErrLevel :=
  match lvl with
  | ERROR => if (0 <? CritSectionCount st)%nat then PANIC else ERROR
  | _ => lvl
  end.

(** Leaving the function through a report. *)
Definition raise {A} (lvl : ErrLevel) (code : ErrCode) (msg : string) : M A :=
  λ st, Raised (mkReport (promote lvl st) code msg) st.

(** [ereport]: at [ERROR] or above control does not come back; below, the
    report is appended and execution continues. *)
Definition ereport (lvl : ErrLevel) (code : ErrCode) (msg : string) : M unit :=
  λ st,
    if is_error (promote lvl st) then raise lvl code msg st
    else Done tt (set_reports (reports st ++ [mkReport lvl code msg]) st).

Definition START_CRIT_SECTION : M unit :=
  modify (λ st, set_CritSectionCount (S (CritSectionCount st)) st).
Definition END_CRIT_SECTION : M unit :=
  modify (λ st, set_CritSectionCount (pred (CritSectionCount st)) st).

(** LWLocks held by this backend: acquire pushes, release removes the
    most recent acquisition of that lock. *)
Fixpoint remove_lock (l : LWLock) (h : list (LWLock * LWLockMode))
    : list (LWLock * LWLockMode) :=
  match h with
  | [] => []
  | (l', m) :: h' => if decide (l' = l) then h' else (l', m) :: remove_lock l h'
  end.
Definition LWLockAcquire (l : LWLock) (m : LWLockMode) : M unit :=
  modify (λ st, set_held_lwlocks ((l, m) :: held_lwlocks st) st).
Definition LWLockRelease (l : LWLock) : M unit :=
  modify (λ st, set_held_lwlocks (remove_lock l (held_lwlocks st)) st).

(** Access to [replication_slots[i]].  A spinlock-protected block of the
    source is one [modify_slot] or one [read_slot]: nothing can interleave
    inside it. *)
Definition read_slot (i : nat) : M ReplicationSlot :=
  get (λ st, replication_slots st !!! i).
Definition modify_slot (i : nat) (f : ReplicationSlot -> ReplicationSlot) : M unit :=
  modify (λ st, set_slots (alter f i (replication_slots st)) st).

(** ** System calls on pg_replslot

    An open file descriptor is represented by the path it was opened on.
    Every call consults the fault oracle once and advances the clock. *)

Definition fault (k : Syscall) (p : Path) : M bool :=
  λ st,
    let f := fs st in
    Done (fs_fault f (fs_clock f) k p)
         (set_fs (mkFS (fs_dirs f) (S (fs_clock f)) (fs_fault f)) st).

Definition get_dirs : M (gmap string (gmap string FileImage)) :=
  get (λ st, fs_dirs (fs st)).
Definition put_dirs (ds : gmap string (gmap string FileImage)) : M unit :=
  modify (λ st, set_fs (set_dirs ds (fs st)) st).

(** [BasicOpenFile(path, O_CREAT | O_WRONLY)]: true when [fd >= 0].  A
    missing file is created empty; the directory must exist. *)
Definition open_creat (d f : string) : M bool :=
  bad ← fault SYS_open_creat (SlotFile d f);
  ds ← get_dirs;
  match ds !! d with
  | Some m =>
      if bad : bool then mret false
      else match m !! f with
           | Some _ => mret true
           | None => put_dirs (<[d := <[f := Short 0]> m]> ds);; mret true
           end
  | None => mret false
  end.

(** [BasicOpenFile(path, O_TRUNC | O_WRONLY)]: the file must exist and is
    emptied. *)
Definition open_trunc (d f : string) : M bool :=
  bad ← fault SYS_open_trunc (SlotFile d f);
  ds ← get_dirs;
  match ds !! d with
  | Some m =>
      if bad : bool then mret false
      else match m !! f with
           | Some _ => put_dirs (<[d := <[f := Short 0]> m]> ds);; mret true
           | None => mret false
           end
  | None => mret false
  end.

(** [BasicOpenFile(path, O_RDONLY)] *)
Definition open_rdonly (d f : string) : M bool :=
  bad ← fault SYS_open_rdonly (SlotFile d f);
  ds ← get_dirs;
  mret (negb bad && bool_decide (is_Some (ds !! d ≫= λ m, m !! f))).

(** [write(fd, &cp, sizeof(cp)) == sizeof(cp)].  A failed write leaves the
    file as it was (what a torn write leaves behind is not modelled). *)
Definition sys_write (d f : string) (cp : ReplicationSlotOnDisk) : M bool :=
  bad ← fault SYS_write (SlotFile d f);
  ds ← get_dirs;
  match ds !! d with
  | Some m =>
      if bad : bool then mret false
      else put_dirs (<[d := <[f := Complete cp]> m]> ds);; mret true
  | None => mret false
  end.

(** [read(fd, &cp, sizeof(ReplicationSlotOnDisk))] *)
Definition sys_read (d f : string) : M FileImage :=
  bad ← fault SYS_read (SlotFile d f);
  ds ← get_dirs;
  mret (if bad : bool then Short (-1)
        else default (Short (-1)) (ds !! d ≫= λ m, m !! f)).

(** [pg_fsync(fd) == 0] and [close(fd) == 0] *)
Definition pg_fsync (d f : string) : M bool :=
  bad ← fault SYS_fsync (SlotFile d f); mret (negb bad).
Definition sys_close (d f : string) : M bool :=
  bad ← fault SYS_close (SlotFile d f); mret (negb bad).

(** [rename(d/f1, d/f2) == 0] for two files of one directory. *)
Definition rename_file (d f1 f2 : string) : M bool :=
  bad ← fault SYS_rename (SlotFile d f1);
  ds ← get_dirs;
  match ds !! d ≫= λ m, (m !! f1) ≫= λ img, Some (m, img) with
  | Some (m, img) =>
      if bad : bool then mret false
      else put_dirs (<[d := <[f2 := img]> (delete f1 m)]> ds);; mret true
  | None => mret false
  end.

(** [rename(pg_replslot/d1, pg_replslot/d2) == 0] for directories: the
    target must be absent or empty. *)
Definition rename_dir (d1 d2 : string) : M bool :=
  bad ← fault SYS_rename (SlotDir d1);
  ds ← get_dirs;
  match ds !! d1 with
  | Some m =>
      if bad || negb (bool_decide (default ∅ (ds !! d2) = ∅)) then mret false
      else put_dirs (<[d2 := m]> (delete d1 ds));; mret true
  | None => mret false
  end.

Inductive UnlinkResult :=
| Unlinked          (* returned 0 *)
| UnlinkENOENT      (* returned -1, errno == ENOENT *)
| UnlinkFailed.     (* returned -1, another errno *)

Global Instance UnlinkResult_eq_dec : EqDecision UnlinkResult.
Proof. solve_decision. Defined.

Definition sys_unlink (d f : string) : M UnlinkResult :=
  bad ← fault SYS_unlink (SlotFile d f);
  ds ← get_dirs;
  if bad : bool then mret UnlinkFailed
  else match ds !! d ≫= λ m, (m !! f) ≫= λ _, Some m with
       | Some m => put_dirs (<[d := delete f m]> ds);; mret Unlinked
       | None => mret UnlinkENOENT
       end.

(** [mkdir(pg_replslot/d, S_IRWXU) >= 0] *)
Definition sys_mkdir (d : string) : M bool :=
  bad ← fault SYS_mkdir (SlotDir d);
  ds ← get_dirs;
  if bad || bool_decide (is_Some (ds !! d)) then mret false
  else put_dirs (<[d := ∅]> ds);; mret true.

(** [rmtree(pg_replslot/d, true)]: false when the directory cannot be
    listed or removed (a partial removal is not modelled). *)
Definition rmtree (d : string) : M bool :=
  bad ← fault SYS_rmtree (SlotDir d);
  ds ← get_dirs;
  if bad || negb (bool_decide (is_Some (ds !! d))) then mret false
  else put_dirs (delete d ds);; mret true.

(** [stat(path, &st) == 0 && S_ISDIR(st.st_mode)], also what
    [CheckFileExists] answers for a slot directory.  The call is taken to
    answer truthfully: unlike the other system calls it does not consult
    the fault oracle and the clock does not count it. *)
Definition dir_exists (d : string) : M bool :=
  ds ← get_dirs; mret (bool_decide (is_Some (ds !! d))).

(** [fsync_fname] reports failure with ereport(ERROR), which a critical
    section turns into PANIC. *)
Definition fsync_fname (p : Path) : M unit :=
  bad ← fault SYS_fsync_fname p;
  if bad : bool then ereport ERROR ERRCODE_FILE_ACCESS "could not fsync file"
  else mret tt.

(** ** CRC-32C *)

(** Modelled from the spec: the macros INIT_CRC32C, COMP_CRC32C, FIN_CRC32C
    and EQ_CRC32C come from a header that is not in src.  The spec fixes
    the checksum: CRC-32C, polynomial 0x1EDC6F41 (Castagnoli), initial value
    0xFFFFFFFF, final XOR 0xFFFFFFFF.  The bit-reflected form is used, in
    which the polynomial reads 0x82F63B78.  Bytes are integers 0..255. *)
Definition crc32c_shift (crc : Z) : Z :=
  if Z.testbit crc 0 then Z.lxor (Z.shiftr crc 1) 0x82F63B78
  else Z.shiftr crc 1.
Definition crc32c_byte (crc b : Z) : Z :=
  Nat.iter 8 crc32c_shift (Z.lxor crc (Z.land b 255)).
Definition INIT_CRC32C : Z := 0xFFFFFFFF.
Definition COMP_CRC32C (crc : Z) (bytes : list Z) : Z :=
  fold_left crc32c_byte bytes crc.
Definition FIN_CRC32C (crc : Z) : Z := Z.lxor crc 0xFFFFFFFF.
Definition EQ_CRC32C (a b : Z) : bool := a =? b.

(** Little-endian bytes of an integer field. *)
Definition le_bytes (n : nat) (x : Z) : list Z :=
  map (λ i, Z.land (Z.shiftr x (8 * Z.of_nat i)) 255) (seq 0 n).

(** ** Instances used in the examples

    slot.cpp leaves three things to headers that are not in src: the length
    [NAMEDATALEN] of a name buffer, the constant [SLOT_MAGIC], the byte
    layout of [ReplicationSlotPersistentData], and the comparator
    [TransactionIdPrecedes].  The model below is parametric in them; the
    following definitions are one admissible choice, used only to run the
    model on concrete inputs. *)

Definition sample_NAMEDATALEN : nat := 64.
Definition sample_SLOT_MAGIC : Z := 0x1051CA1.

Definition name_bytes (len : nat) (s : string) : list Z :=
  take len (map (λ c, Z.of_nat (nat_of_ascii c)) (list_ascii_of_string s)
            ++ replicate len 0).

Definition sample_slotdata_image (d : ReplicationSlotPersistentData) : list Z :=
  name_bytes sample_NAMEDATALEN (name d)
  ++ le_bytes 4 (database d)
  ++ le_bytes 4 (match persistency d with RS_PERSISTENT => 0 | RS_EPHEMERAL => 1 end)
  ++ le_bytes 8 (xmin d)
  ++ le_bytes 8 (catalog_xmin d)
  ++ le_bytes 8 (restart_lsn d)
  ++ le_bytes 8 (if isDummyStandby d then 1 else 0).

Definition sample_sizeof_slotdata : nat := sample_NAMEDATALEN + 40.

(** A cyclic comparison of 32-bit transaction ids: [a] precedes [b] when
    the signed 32-bit difference [a - b] is negative; the reserved ids
    below 3 compare numerically. *)
Definition cyclic_precedes (a b : TransactionId) : bool :=
  if (a <? 3) || (b <? 3) then a <? b
  else 2 ^ 31 <=? (a - b) mod 2 ^ 32.

(** A file system with the given directories in which no call fails. *)
Definition reliable_fs (ds : gmap string (gmap string FileImage)) : FileSystem :=
  mkFS ds 0 (λ _ _ _, false).

Definition initial_state (slots : list ReplicationSlot) (f : FileSystem) : State :=
  mkState slots None [] 0 f 0 0 0 0 PRIMARY_MODE false false [].

(** An in-use logical slot (database 1) with the given restart_lsn. *)
Definition logical_slot (nm : string) (lsn : XLogRecPtr) : ReplicationSlot :=
  mkSlot true false false false 0 0
    (mkPersistentData nm 1 RS_PERSISTENT false 0 0 lsn) 0 0 0 0.

(** An in-use physical slot, persistent, owned or not by a session. *)
Definition physical_slot (nm : string) (owned : bool) : ReplicationSlot :=
  mkSlot true owned false false 0 0
    (mkPersistentData nm InvalidOid RS_PERSISTENT false 0 0 0) 0 0 0 0.

(** An in-use slot that publishes the given effective xmin and catalog xmin. *)
Definition slot_with_xmins (nm : string) (x cx : TransactionId) : ReplicationSlot :=
  mkSlot true false false false x cx
    (mkPersistentData nm 1 RS_PERSISTENT false x cx 0) 0 0 0 0.

Definition tick (f : FileSystem) : FileSystem :=
  mkFS (fs_dirs f) (S (fs_clock f)) (fs_fault f).

(** No system call fails from now on. *)
Definition no_faults (f : FileSystem) : Prop :=
  ∀ n k p, fs_fault f n k p = false.

(** An in-use persistent slot with unsaved changes. *)
Definition dirty_slot (nm : string) (lsn : XLogRecPtr) : ReplicationSlot :=
  mkSlot true true false true 5 7
    (mkPersistentData nm 1 RS_PERSISTENT false 5 7 lsn) 0 0 0 0.

(** An in-use ephemeral slot, owned by a session. *)
Definition ephemeral_slot (nm : string) : ReplicationSlot :=
  mkSlot true true false false 0 0
    (mkPersistentData nm 1 RS_EPHEMERAL false 0 0 0) 0 0 0 0.

(** ** String helpers of slot.cpp

    A C string is modelled by the characters before its terminator. *)

(** [str + n] for [n <= strlen(str)]. *)
Fixpoint string_drop (n : nat) (s : string) : string :=
  match n, s with
  | O, _ => s
  | S _, EmptyString => EmptyString
  | S n', String _ s' => string_drop n' s'
  end.

(** [string_endswith(str, end)] *)
Definition string_endswith (str end_ : string) : bool :=
  let slen := String.length str in
  let elen := String.length end_ in
  if (slen <? elen)%nat then false
  else String.eqb (string_drop (slen - elen) str) end_.

(** [isspace] in the C locale: space, \t, \n, \v, \f, \r. *)
Definition isspace (c : ascii) : bool :=
  let n := nat_of_ascii c in
  (n =? 32)%nat || ((9 <=? n)%nat && (n <=? 13)%nat).

(** The test of both loops of [trim_str]: [isspace(c) || c == sep]. *)
Definition trim_blank (sep c : ascii) : bool :=
  isspace c || Ascii.eqb c sep.

(** The first loop of [trim_str]: [begin] moves over the leading blanks.
    It stops at the terminator, unless [sep] is the terminator itself, in
    which case it reads on past the end of the string ([None]). *)
Fixpoint trim_begin (sep : ascii) (s : string) : option string :=
  match s with
  | EmptyString => if Ascii.eqb zero sep then None else Some EmptyString
  | String c s' => if trim_blank sep c then trim_begin sep s' else Some s
  end.

(** The second loop: [cur] runs from [begin] to the terminator and [end]
    follows the last character that is not blank; both are offsets from
    [begin]. *)
Fixpoint trim_end (sep : ascii) (s : string) (cur end_ : nat) : nat :=
  match s with
  | EmptyString => end_
  | String c s' =>
      trim_end sep s' (S cur) (if negb (trim_blank sep c) then cur else end_)
  end.

(** What a call of [trim_str] comes to. *)
Inductive TrimResult :=
| TrimNULL                 (* returns NULL *)
| Trimmed (s : string)     (* returns a fresh copy *)
| TrimRange                (* memmove_s refuses: len > str_len *)
| TrimOverrun.             (* an access outside the string or the copy *)

(** [trim_str(str, str_len, sep)]; [None] is the NULL pointer.  The copy
    is allocated with [str_len] bytes, receives [len] characters and then
    a terminator at offset [len]. *)
Definition trim_str (str : option string) (str_len : Z) (sep : ascii) : TrimResult :=
  match str with
  | None => TrimNULL
  | Some s =>
      if str_len <=? 0 then TrimNULL
      else
        match trim_begin sep s with
        | None => TrimOverrun
        | Some EmptyString => TrimNULL
        | Some begin =>
            let len := Z.of_nat (trim_end sep begin 0 0) + 1 in
            if str_len <? len then TrimRange
            else if str_len =? len then TrimOverrun
            else Trimmed (String.substring 0 (Z.to_nat len) begin)
        end
  end.

(** [strstr(s, needle)]: the part of [s] from the first occurrence of
    [needle] on, or NULL. *)
Fixpoint strstr (s needle : string) : option string :=
  if String.prefix needle s then Some s
  else match s with
       | EmptyString => None
       | String _ s' => strstr s' needle
       end.

(** [danger_character_list] of [ValidateName], without its closing NULL:
    the one-character strings ; ` \ ' double quote > < & | ! and newline. *)
Definition danger_character_list : list string :=
  [";"; "`"; String (ascii_of_nat 92) EmptyString; "'";
   String (ascii_of_nat 34) EmptyString; ">"; "<"; "&"; "|"; "!";
   String (ascii_of_nat 10) EmptyString].

Section Slot.

(** ** Parameters: what the missing headers define *)

Variable NAMEDATALEN : nat.
Variable SLOT_MAGIC : Z.
Variable TransactionIdPrecedes : TransactionId -> TransactionId -> bool.

(** Object representation of [ReplicationSlotPersistentData], as memcpy
    and the checksum see it. *)
Variable sizeof_ReplicationSlotPersistentData : nat.
Variable slotdata_image : ReplicationSlotPersistentData -> list Z.
Hypothesis slotdata_image_length :
  ∀ d, List.length (slotdata_image d) = sizeof_ReplicationSlotPersistentData.

(** Modelled from the spec: the struct [ReplicationSlotOnDisk] and the two
    size macros are declared in replication/slot.h, which is not in src.
    The spec gives a 16-byte constant header of four little-endian 32-bit
    fields, magic, CRC-32C, version and length, followed by the dynamic
    region. *)
Definition ondisk_image (cp : ReplicationSlotOnDisk) : list Z :=
  le_bytes 4 (magic cp) ++ le_bytes 4 (checksum cp)
  ++ le_bytes 4 (version cp) ++ le_bytes 4 (length_ cp)
  ++ slotdata_image (slotdata cp).
Definition ReplicationSlotOnDiskConstantSize : nat := 16.
Definition sizeof_ReplicationSlotOnDisk : nat :=
  (16 + sizeof_ReplicationSlotPersistentData)%nat.
Definition ReplicationSlotOnDiskDynamicSize : nat :=
  (sizeof_ReplicationSlotOnDisk - ReplicationSlotOnDiskConstantSize)%nat.

(** INIT_CRC32C; COMP_CRC32C(crc, (char* )&cp + ReplicationSlotOnDiskConstantSize,
    ReplicationSlotOnDiskDynamicSize); FIN_CRC32C *)
Definition compute_checksum (cp : ReplicationSlotOnDisk) : Z :=
  FIN_CRC32C
    (COMP_CRC32C INIT_CRC32C
       (take ReplicationSlotOnDiskDynamicSize
          (drop ReplicationSlotOnDiskConstantSize (ondisk_image cp)))).

(** ** Name validation *)

Definition valid_name_char (c : ascii) : bool :=
  (("a" <=? c) && (c <=? "z"))%char || (("0" <=? c) && (c <=? "9"))%char
  || (c =? "_")%char || (c =? "?")%char || (c =? "<")%char
  || (c =? "!")%char || (c =? "-")%char || (c =? ".")%char.

(** [ReplicationSlotValidateName(name, elevel)]; [None] is the NULL
    pointer.  A C string is the characters before its terminator. *)
Definition ReplicationSlotValidateName (name : option string) (lvl : ErrLevel)
    : M bool :=
  match name with
  | None =>
      ereport lvl ERRCODE_INVALID_NAME "replication slot name should not be NULL.";;
      mret false
  | Some n =>
      if (String.length n =? 0)%nat then
        ereport lvl ERRCODE_INVALID_NAME "replication slot name is too short";;
        mret false
      else if (NAMEDATALEN <=? String.length n)%nat then
        ereport lvl ERRCODE_NAME_TOO_LONG "replication slot name is too long";;
        mret false
      else if negb (forallb valid_name_char (list_ascii_of_string n)) then
        ereport lvl ERRCODE_INVALID_NAME
          "replication slot name contains invalid character";;
        mret false
      else mret true
  end.

(** Index of the first slot with [s->in_use && strcmp(name, NameStr(s->data.name)) == 0],
    the scan shared by Create, Acquire and Find. *)
Fixpoint find_slot_from (i : nat) (name : string) (l : list ReplicationSlot)
    : option nat :=
  match l with
  | [] => None
  | s :: l' =>
      if in_use s && bool_decide (name = NameStr s) then Some i
      else find_slot_from (S i) name l'
  end.
Definition find_slot (name : string) (l : list ReplicationSlot) : option nat :=
  find_slot_from 0 name l.

(** The NULL pointer cannot reach [strcmp] (validation at ERROR does not
    return for it); the model reads it as the empty string. *)
Definition c_str (name : option string) : string := default "" name.

(** [ReplicationSlotFind] *)
Definition ReplicationSlotFind (name : option string) : M bool :=
  ReplicationSlotValidateName name ERROR;;
  LWLockAcquire ReplicationSlotControlLock LW_SHARED;;
  slots ← get replication_slots;
  let hasSlot := bool_decide (is_Some (find_slot (c_str name) slots)) in
  LWLockRelease ReplicationSlotControlLock;;
  mret hasSlot.

(** The current slot of the session.  The source asserts that the pointer
    is set and dereferences it; a NULL pointer ends the process. *)
Definition my_slot : M nat :=
  my ← get MyReplicationSlot;
  match my with
  | Some i => mret i
  | None => raise PANIC ERRCODE_DEFAULT "MyReplicationSlot is NULL"
  end.

(** ** Aggregation queries *)

(** Modelled from the spec: [ProcArraySetReplicationSlotXmin] lives in
    procarray.cpp, which is not in src; it publishes both values under
    ProcArrayLock, which it takes unless the caller already holds it. *)
Definition ProcArraySetReplicationSlotXmin (xmin_ catalog_xmin_ : TransactionId)
    (already_locked : bool) : M unit :=
  (if already_locked then mret tt
   else LWLockAcquire ProcArrayLock LW_EXCLUSIVE);;
  modify (set_slot_xmins xmin_ catalog_xmin_);;
  (if already_locked then mret tt else LWLockRelease ProcArrayLock).

(** One iteration of the loop of [ReplicationSlotsComputeRequiredXmin]. *)
Definition required_xmin_step (agg : TransactionId * TransactionId)
    (s : ReplicationSlot) : TransactionId * TransactionId :=
  if negb (in_use s) then agg
  else
    let agg_xmin :=
      if TransactionIdIsValid (effective_xmin s)
         && (negb (TransactionIdIsValid agg.1)
             || TransactionIdPrecedes (effective_xmin s) agg.1)
      then effective_xmin s else agg.1 in
    let agg_catalog_xmin :=
      if TransactionIdIsValid (effective_catalog_xmin s)
         && (negb (TransactionIdIsValid agg.2)
             || TransactionIdPrecedes (effective_catalog_xmin s) agg.2)
      then effective_catalog_xmin s else agg.2 in
    (agg_xmin, agg_catalog_xmin).

Definition required_xmin (slots : list ReplicationSlot)
    : TransactionId * TransactionId :=
  fold_left required_xmin_step slots (InvalidTransactionId, InvalidTransactionId).

Definition ReplicationSlotsComputeRequiredXmin (already_locked : bool) : M unit :=
  LWLockAcquire ReplicationSlotControlLock LW_SHARED;;
  slots ← get replication_slots;
  let agg := required_xmin slots in
  LWLockRelease ReplicationSlotControlLock;;
  ProcArraySetReplicationSlotXmin agg.1 agg.2 already_locked.

Record ReplicationSlotState := mkSlotState {
  min_required : XLogRecPtr;
  max_required : XLogRecPtr;
  exist_in_use : bool
}.

(** [load_server_mode] (xlog.cpp, not in src) initialises
    [t_thrd.xlog_cxt.server_mode]; the state holds the loaded value. *)
Definition load_server_mode : M unit := mret tt.

Definition XLogSetReplicationSlotMinimumLSN (lsn : XLogRecPtr) : M unit :=
  modify (set_min_lsn lsn).
Definition XLogSetReplicationSlotMaximumLSN (lsn : XLogRecPtr) : M unit :=
  modify (set_max_lsn lsn).

(** One iteration of the loop of [ReplicationSlotsComputeRequiredLSN]. *)
Definition required_lsn_step (mode : ServerMode)
    (acc : ReplicationSlotState) (s : ReplicationSlot) : ReplicationSlotState :=
  if bool_decide (mode ≠ PRIMARY_MODE) && bool_decide (mode ≠ PENDING_MODE)
     && (database (data s) =? InvalidOid)
  then acc
  else if negb (in_use s) then acc
  else
    let lsn := restart_lsn (data s) in
    let min_required' :=
      if negb (XLByteEQ lsn InvalidXLogRecPtr)
         && (XLByteEQ (min_required acc) InvalidXLogRecPtr
             || XLByteLT lsn (min_required acc))
      then lsn else min_required acc in
    let max_required' :=
      if XLByteLT (max_required acc) lsn then lsn else max_required acc in
    mkSlotState min_required' max_required' true.

Definition required_lsn (mode : ServerMode) (slots : list ReplicationSlot)
    : ReplicationSlotState :=
  fold_left (required_lsn_step mode) slots
    (mkSlotState InvalidXLogRecPtr InvalidXLogRecPtr false).

(** [ReplicationSlotsComputeRequiredLSN(repl_slt_state)].  The argument is
    the pointer: [None] for NULL, [Some r] for a struct that holds [r] at
    the call.  The result is what the struct holds at the return. *)
Definition ReplicationSlotsComputeRequiredLSN
    (repl_slt_state : option ReplicationSlotState)
    : M (option ReplicationSlotState) :=
  n ← get max_replication_slots;
  if (n =? 0)%nat then mret repl_slt_state
  else
    load_server_mode;;
    LWLockAcquire ReplicationSlotControlLock LW_SHARED;;
    slots ← get replication_slots;
    mode ← get server_mode;
    let r := required_lsn mode slots in
    LWLockRelease ReplicationSlotControlLock;;
    XLogSetReplicationSlotMinimumLSN (min_required r);;
    XLogSetReplicationSlotMaximumLSN (max_required r);;
    mret (match repl_slt_state with
          | Some _ => Some r
          | None => None
          end).

(** One iteration of the loop of [ReplicationSlotsComputeLogicalRestartLSN]. *)
Definition logical_restart_lsn_step (result : XLogRecPtr) (s : ReplicationSlot)
    : XLogRecPtr :=
  if negb (in_use s) then result
  else if database (data s) =? InvalidOid then result
  else
    let lsn := restart_lsn (data s) in
    if XLByteEQ result InvalidXLogRecPtr || XLByteLT lsn result then lsn
    else result.

Definition ReplicationSlotsComputeLogicalRestartLSN : M XLogRecPtr :=
  n ← get max_replication_slots;
  if (n <=? 0)%nat then mret InvalidXLogRecPtr
  else
    LWLockAcquire ReplicationSlotControlLock LW_SHARED;;
    slots ← get replication_slots;
    let result := fold_left logical_restart_lsn_step slots InvalidXLogRecPtr in
    LWLockRelease ReplicationSlotControlLock;;
    mret result.

(** ** Writing a slot to disk *)

(** Body of the loop of [SaveSlotToPath] for one of the two files; true
    when the loop goes on, false when the function has returned. *)
Definition save_one_file (i : nat) (dir fname : string) (lvl : ErrLevel) : M bool :=
  fd_ok ← open_creat dir fname;
  if negb fd_ok then
    LWLockRelease (io_in_progress_lock i);;
    ereport lvl ERRCODE_FILE_ACCESS "could not create file";;
    mret false
  else
    s ← read_slot i;                      (* memcpy_s under the spinlock *)
    let cp0 :=
      mkOnDisk SLOT_MAGIC INIT_CRC32C 1
        (Z.of_nat ReplicationSlotOnDiskDynamicSize) (data s) in
    let cp :=
      mkOnDisk (magic cp0) (compute_checksum cp0) (version cp0)
        (length_ cp0) (slotdata cp0) in
    written ← sys_write dir fname cp;
    if negb written then
      closed ← sys_close dir fname;
      (if negb closed
       then ereport lvl ERRCODE_FILE_ACCESS "could not close file"
       else mret tt);;
      LWLockRelease (io_in_progress_lock i);;
      ereport lvl ERRCODE_FILE_ACCESS "could not write to file";;
      mret false
    else
      synced ← pg_fsync dir fname;
      if negb synced then
        closed ← sys_close dir fname;
        (if negb closed
         then ereport lvl ERRCODE_FILE_ACCESS "could not close file"
         else mret tt);;
        LWLockRelease (io_in_progress_lock i);;
        ereport lvl ERRCODE_FILE_ACCESS "could not fsync file";;
        mret false
      else
        closed ← sys_close dir fname;
        (if negb closed
         then ereport lvl ERRCODE_FILE_ACCESS "could not close file"
         else mret tt);;
        mret true.

(** The final spinlock block of [SaveSlotToPath]. *)
Definition unset_dirty (s : ReplicationSlot) : ReplicationSlot :=
  if just_dirtied s then s else set_dirty false s.

(** [SaveSlotToPath(slot, dir, elevel)], with the points at which other
    backends can touch the slot made explicit: [others k] runs between the
    k-th and the next spinlock-protected block of the saver (after the
    initial check, between the two copies of [slot->data], and before the
    final check of [just_dirtied]).  [dir] is the entry of pg_replslot. *)
Definition SaveSlotToPath_with (others : nat -> M unit)
    (i : nat) (dir : string) (lvl : ErrLevel) : M unit :=
  s ← read_slot i;
  let was_dirty := dirty s in
  modify_slot i (set_just_dirtied false);;
  if negb was_dirty then mret tt
  else
    others 0%nat;;
    LWLockAcquire (io_in_progress_lock i) LW_EXCLUSIVE;;
    go_on ← save_one_file i dir "state.backup" lvl;
    if negb go_on then mret tt
    else
      others 1%nat;;
      go_on ← save_one_file i dir "state.tmp" lvl;
      if negb go_on then mret tt
      else
        others 2%nat;;
        renamed ← rename_file dir "state.tmp" "state";
        if negb renamed then
          LWLockRelease (io_in_progress_lock i);;
          ereport lvl ERRCODE_FILE_ACCESS "could not rename"
        else
          START_CRIT_SECTION;;
          fsync_fname (SlotFile dir "state");;
          fsync_fname (SlotDir dir);;
          fsync_fname PgReplslot;;
          END_CRIT_SECTION;;
          modify_slot i unset_dirty;;
          LWLockRelease (io_in_progress_lock i).

(** The saver running alone. *)
Definition SaveSlotToPath (i : nat) (dir : string) (lvl : ErrLevel) : M unit :=
  SaveSlotToPath_with (λ _, mret tt) i dir lvl.

(** Spinlock-protected block of [ReplicationSlotMarkDirty]. *)
Definition mark_dirty (s : ReplicationSlot) : ReplicationSlot :=
  set_dirty true (set_just_dirtied true s).

Definition ReplicationSlotMarkDirty : M unit :=
  i ← my_slot;
  modify_slot i mark_dirty.

(** What another backend may do to the array while this one is between
    two of its spinlock-protected blocks.  A second [SaveSlotToPath] of the
    same slot (the checkpointer and the owner of the slot can both be in
    it) runs its first block, which clears just_dirtied, before it asks
    for io_in_progress_lock: that block can fall anywhere in this save.
    What the second save does under the lock, its writes and its final
    block, is ordered by the lock before or after the locked part of this
    save and is not among the operations. *)
Inductive SlotOp :=
| OpMarkDirty (j : nat)                     (* ReplicationSlotMarkDirty by the owner of slot j *)
| OpSetData (j : nat) (d : ReplicationSlotPersistentData)
                                            (* the owner of slot j updates slot->data *)
| OpSetActive (j : nat) (b : bool)          (* acquire or release of slot j *)
| OpSaveBegin (j : nat).                    (* first block of another SaveSlotToPath of slot j *)

Definition run_op (op : SlotOp) : M unit :=
  match op with
  | OpMarkDirty j => modify_slot j mark_dirty
  | OpSetData j d => modify_slot j (set_data d)
  | OpSetActive j b => modify_slot j (set_active b)
  | OpSaveBegin j => modify_slot j (set_just_dirtied false)
  end.

Fixpoint run_ops (ops : list SlotOp) : M unit :=
  match ops with
  | [] => mret tt
  | op :: ops' => run_op op;; run_ops ops'
  end.

(** [CreateSlotOnDisk] *)
Definition CreateSlotOnDisk (i : nat) : M unit :=
  s ← read_slot i;
  let path := NameStr s in
  let tmppath := NameStr s +:+ ".tmp" in
  stale ← dir_exists tmppath;
  (if stale : bool then
     removed ← rmtree tmppath;
     if negb removed
     then ereport ERROR ERRCODE_FILE_ACCESS "could not rm directory"
     else mret tt
   else mret tt);;
  made ← sys_mkdir tmppath;
  (if negb made
   then ereport ERROR ERRCODE_FILE_ACCESS "could not create directory"
   else mret tt);;
  fsync_fname (SlotDir tmppath);;
  modify_slot i (set_dirty true);;
  SaveSlotToPath i tmppath ERROR;;
  renamed ← rename_dir tmppath path;
  (if negb renamed
   then ereport ERROR ERRCODE_FILE_ACCESS "could not rename file"
   else mret tt);;
  START_CRIT_SECTION;;
  fsync_fname (SlotDir path);;
  fsync_fname PgReplslot;;
  END_CRIT_SECTION;;
  recovering ← get RecoveryInProgress;
  if negb recovering
  then ereport LOG ERRCODE_FILE_ACCESS "create slot on disk successfully"
  else mret tt.

(** [ReplicationSlotSave] *)
Definition ReplicationSlotSave : M unit :=
  i ← my_slot;
  s ← read_slot i;
  let path := NameStr s in
  present ← dir_exists path;
  (if negb present then CreateSlotOnDisk i else mret tt);;
  SaveSlotToPath i path ERROR.

(** ** Lifecycle *)

(** [ReplicationSlotAcquire] *)
Definition ReplicationSlotAcquire (name : option string) (isDummyStandby_ : bool)
    : M unit :=
  ReplicationSlotValidateName name ERROR;;
  LWLockAcquire ReplicationSlotControlLock LW_SHARED;;
  slots ← get replication_slots;
  let slot := find_slot (c_str name) slots in
  was_active ←
    match slot with
    | Some i => s ← read_slot i; modify_slot i (set_active true);; mret (active s)
    | None => mret false
    end;
  LWLockRelease ReplicationSlotControlLock;;
  match slot with
  | None => raise ERROR ERRCODE_UNDEFINED_OBJECT "replication slot does not exist"
  | Some i =>
      s ← read_slot i;
      (if was_active : bool then
         if negb (database (data s) =? InvalidOid)
            || negb (eqb isDummyStandby_ (isDummyStandby (data s)))
         then ereport ERROR ERRCODE_OBJECT_IN_USE "replication slot is already active"
         else ereport WARNING ERRCODE_OBJECT_IN_USE "replication slot is already active"
       else mret tt);;
      (if negb (database (data s) =? InvalidOid)
       then modify_slot i clear_candidates
       else mret tt);;
      modify (set_MyReplicationSlot (Some i))
  end.

(** The first loop of [ReplicationSlotCreate]: stops at a slot in use
    under the same name (first component true), and otherwise remembers
    the first free entry. *)
Fixpoint create_scan (i : nat) (name : string) (slot : option nat)
    (l : list ReplicationSlot) : bool * option nat :=
  match l with
  | [] => (false, slot)
  | s :: l' =>
      if in_use s && bool_decide (name = NameStr s) then (true, slot)
      else create_scan (S i) name
             (if negb (in_use s) && bool_decide (slot = None) then Some i else slot)
             l'
  end.

(** The second loop: one LOG line per slot in use. *)
Fixpoint log_slot_names (l : list ReplicationSlot) : M unit :=
  match l with
  | [] => mret tt
  | s :: l' =>
      (if in_use s then ereport LOG ERRCODE_DEFAULT ("Slot Name: " +:+ NameStr s)
       else mret tt);;
      log_slot_names l'
  end.

(** [strncpy_s(dest, NAMEDATALEN, name, NAMEDATALEN - 1)] followed by the
    terminator at [NAMEDATALEN - 1]. *)
Definition truncate_name (name : string) : string :=
  String.substring 0 (NAMEDATALEN - 1) name.

(** [ReplicationSlotCreate] *)
Definition ReplicationSlotCreate (name : option string)
    (persistency_ : ReplicationSlotPersistency) (isDummyStandby_ : bool)
    (databaseId : Oid) (restart_lsn_ : XLogRecPtr) : M unit :=
  ReplicationSlotValidateName name ERROR;;
  LWLockAcquire ReplicationSlotAllocationLock LW_EXCLUSIVE;;
  LWLockAcquire ReplicationSlotControlLock LW_SHARED;;
  slots ← get replication_slots;
  match create_scan 0 (c_str name) None slots with
  | (true, _) =>
      LWLockRelease ReplicationSlotControlLock;;
      LWLockRelease ReplicationSlotAllocationLock;;
      (if databaseId =? InvalidOid
       then ereport WARNING ERRCODE_DUPLICATE_OBJECT "replication slot already exists"
       else ereport ERROR ERRCODE_DUPLICATE_OBJECT "replication slot already exists");;
      ReplicationSlotAcquire name isDummyStandby_
  | (false, None) =>
      log_slot_names slots;;
      LWLockRelease ReplicationSlotControlLock;;
      raise ERROR ERRCODE_CONFIGURATION_LIMIT_EXCEEDED
        "all replication slots are in use"
  | (false, Some i) =>
      LWLockRelease ReplicationSlotControlLock;;
      modify_slot i (λ s,
        set_effective_xmin InvalidTransactionId
          (set_data
             (mkPersistentData (truncate_name (c_str name)) databaseId persistency_
                isDummyStandby_ InvalidTransactionId (catalog_xmin (data s))
                restart_lsn_)
             s));;
      CreateSlotOnDisk i;;
      LWLockAcquire ReplicationSlotControlLock LW_EXCLUSIVE;;
      modify_slot i (set_in_use true);;
      modify_slot i (set_active true);;
      modify (set_MyReplicationSlot (Some i));;
      LWLockRelease ReplicationSlotControlLock;;
      LWLockRelease ReplicationSlotAllocationLock
  end.

(** [ReplicationSlotDropAcquired] *)
Definition ReplicationSlotDropAcquired : M unit :=
  i ← my_slot;
  modify (set_MyReplicationSlot None);;
  LWLockAcquire ReplicationSlotAllocationLock LW_EXCLUSIVE;;
  s ← read_slot i;
  let path := NameStr s in
  let tmppath := NameStr s +:+ ".tmp" in
  renamed ← rename_dir path tmppath;
  (if renamed : bool then
     START_CRIT_SECTION;;
     fsync_fname (SlotDir tmppath);;
     fsync_fname PgReplslot;;
     END_CRIT_SECTION
   else
     let fail_softly := bool_decide (persistency (data s) = RS_EPHEMERAL) in
     modify_slot i (set_active false);;
     ereport (if fail_softly then WARNING else ERROR) ERRCODE_FILE_ACCESS
       "could not rename");;
  LWLockAcquire ReplicationSlotControlLock LW_EXCLUSIVE;;
  modify_slot i (set_active false);;
  modify_slot i (set_in_use false);;
  LWLockRelease ReplicationSlotControlLock;;
  ReplicationSlotsComputeRequiredXmin false;;
  ReplicationSlotsComputeRequiredLSN None;;
  removed ← rmtree tmppath;
  (if negb removed
   then ereport WARNING ERRCODE_FILE_ACCESS "could not remove directory"
   else mret tt);;
  LWLockRelease ReplicationSlotAllocationLock.

(** [ReplicationSlotRelease] *)
Definition ReplicationSlotRelease : M unit :=
  my ← get MyReplicationSlot;
  match my with
  | None => modify (set_MyReplicationSlot None)
  | Some i =>
      s ← read_slot i;
      if negb (active s) then modify (set_MyReplicationSlot None)
      else
        (if bool_decide (persistency (data s) = RS_EPHEMERAL)
         then ReplicationSlotDropAcquired
         else modify_slot i (set_active false));;
        s' ← read_slot i;
        (if negb (TransactionIdIsValid (xmin (data s')))
            && TransactionIdIsValid (effective_xmin s')
         then
           modify_slot i (set_effective_xmin InvalidTransactionId);;
           ReplicationSlotsComputeRequiredXmin false
         else mret tt);;
        modify (set_MyReplicationSlot None);;
        LWLockAcquire ProcArrayLock LW_EXCLUSIVE;;
        modify (set_in_logical_decoding false);;
        LWLockRelease ProcArrayLock
  end.

(** ** Restoring a slot at startup *)

(** [RecoverReplSlotFile(cp, name)] *)
Definition RecoverReplSlotFile (cp : ReplicationSlotOnDisk) (name : string) : M unit :=
  ereport WARNING ERRCODE_DEFAULT "recover the replication slot file";;
  fd_ok ← open_trunc name "state";
  (if negb fd_ok
   then raise PANIC ERRCODE_FILE_ACCESS "recover failed could not open slot file"
   else mret tt);;
  written ← sys_write name "state" cp;
  (if negb written
   then raise PANIC ERRCODE_FILE_ACCESS "recover failed could not write to slot file"
   else mret tt);;
  synced ← pg_fsync name "state";
  (if negb synced
   then raise PANIC ERRCODE_FILE_ACCESS "recover failed could not fsync slot file"
   else mret tt);;
  closed ← sys_close name "state";
  if negb closed
  then raise PANIC ERRCODE_FILE_ACCESS "recover failed could not close slot file"
  else mret tt.

(** From the label [loop] of [RestoreSlotFromDisk] to the end of the read:
    open, fsync, read one record, close; every failure is a PANIC. *)
Definition read_state_file (name fname : string) : M ReplicationSlotOnDisk :=
  fd_ok ← open_rdonly name fname;
  (if negb fd_ok
   then raise PANIC ERRCODE_FILE_ACCESS "could not open file"
   else mret tt);;
  synced ← pg_fsync name fname;
  (if negb synced then
     closed ← sys_close name fname;
     (if negb closed
      then raise PANIC ERRCODE_FILE_ACCESS "could not close file"
      else mret tt);;
     raise PANIC ERRCODE_FILE_ACCESS "could not fsync file"
   else mret tt);;
  START_CRIT_SECTION;;
  fsync_fname (SlotFile name fname);;
  END_CRIT_SECTION;;
  img ← sys_read name fname;
  match img with
  | Short _ =>
      closed ← sys_close name fname;
      (if negb closed
       then raise PANIC ERRCODE_FILE_ACCESS "could not close file"
       else mret tt);;
      raise PANIC ERRCODE_FILE_ACCESS "could not read file"
  | Complete cp =>
      closed ← sys_close name fname;
      (if negb closed
       then raise PANIC ERRCODE_FILE_ACCESS "could not close file"
       else mret tt);;
      mret cp
  end.

(** The three checks made on a record that was read, in the order of the
    source: checksum, magic, length. *)
Inductive Mismatch := BadChecksum | BadMagic | BadLength.

Definition check_record (cp : ReplicationSlotOnDisk) : option Mismatch :=
  if negb (EQ_CRC32C (compute_checksum cp) (checksum cp)) then Some BadChecksum
  else if negb (magic cp =? SLOT_MAGIC) then Some BadMagic
  else if negb (length_ cp =? Z.of_nat ReplicationSlotOnDiskDynamicSize)
       then Some BadLength
  else None.

Definition mismatch_code (m : Mismatch) : ErrCode :=
  match m with
  | BadChecksum => ERRCODE_DEFAULT
  | BadMagic | BadLength => ERRCODE_FILE_ACCESS
  end.
Definition mismatch_msg (m : Mismatch) : string :=
  match m with
  | BadChecksum => "replication slot file: checksum mismatch"
  | BadMagic => "replication slot file has wrong magic"
  | BadLength => "replication slot file has corrupted length"
  end.

(** The entry a restored record is loaded into. *)
Definition restored_slot (d : ReplicationSlotPersistentData) (s : ReplicationSlot)
    : ReplicationSlot :=
  mkSlot true false (just_dirtied s) (dirty s) (xmin d) (catalog_xmin d) d
    InvalidTransactionId InvalidXLogRecPtr InvalidXLogRecPtr InvalidXLogRecPtr.

Fixpoint first_free_from (i : nat) (l : list ReplicationSlot) : option nat :=
  match l with
  | [] => None
  | s :: l' => if in_use s then first_free_from (S i) l' else Some i
  end.

(** [RestoreSlotFromDisk(name)].  The label [loop] is entered at most
    twice: the jump back sets [ignore_bak], under which every mismatch is a
    PANIC, so the second pass is written out with [ignore_bak = true]. *)
Definition RestoreSlotFromDisk (name : string) : M unit :=
  ret ← sys_unlink name "state.tmp";
  (if bool_decide (ret = UnlinkFailed)
   then raise PANIC ERRCODE_FILE_ACCESS "could not unlink file"
   else mret tt);;
  ignore_bak ←
    (if bool_decide (ret = Unlinked) then
       ret2 ← sys_unlink name "state.backup";
       (if bool_decide (ret2 = UnlinkFailed)
        then raise PANIC ERRCODE_FILE_ACCESS "could not unlink file"
        else mret tt);;
       mret true
     else mret false);
  ereport DEBUG1 ERRCODE_DEFAULT "restoring replication slot";;
  cp1 ← read_state_file name "state";
  '(cp, retry) ←
    match check_record cp1 return M (ReplicationSlotOnDisk * bool) with
    | None => mret (cp1, false)
    | Some m =>
        if ignore_bak : bool
        then raise PANIC (mismatch_code m) (mismatch_msg m)
        else
          ereport WARNING (mismatch_code m) (mismatch_msg m +:+ ", try backup file");;
          cp2 ← read_state_file name "state.backup";
          match check_record cp2 with
          | None => mret (cp2, true)
          | Some m2 => raise PANIC (mismatch_code m2) (mismatch_msg m2)
          end
    end;
  if negb (bool_decide (persistency (slotdata cp) = RS_PERSISTENT)) then
    removed ← rmtree name;
    (if negb removed
     then ereport WARNING ERRCODE_FILE_ACCESS "could not remove directory"
     else mret tt);;
    fsync_fname PgReplslot
  else
    (if retry : bool then RecoverReplSlotFile cp name else mret tt);;
    slots ← get replication_slots;
    match first_free_from 0 slots with
    | Some i => modify_slot i (restored_slot (slotdata cp))
    | None =>
        raise PANIC ERRCODE_DEFAULT
          "too many replication slots active before shutdown"
    end.

(** ** Definitions used to state the properties *)

(** The character class of slot names as the specification writes it,
    [a-z0-9_?<!\-.], spelled out. *)
Definition name_alphabet : list ascii :=
  list_ascii_of_string "abcdefghijklmnopqrstuvwxyz0123456789_?<!-.".

(** The names the specification calls invalid: null, empty, of length at
    least NAMEDATALEN, or with a character outside the class. *)
Definition name_is_invalid (name : option string) : Prop :=
  match name with
  | None => True
  | Some n =>
      String.length n = 0%nat
      ∨ (NAMEDATALEN ≤ String.length n)%nat
      ∨ ∃ c, In c (list_ascii_of_string n) ∧ ¬ In c name_alphabet
  end.

(** The valid values of one transaction-id field over the slots in use. *)
Definition in_use_xids (field : ReplicationSlot -> TransactionId)
    (slots : list ReplicationSlot) : list TransactionId :=
  List.filter TransactionIdIsValid (map field (List.filter in_use slots)).

(** [r] is the minimum of [xs] under [TransactionIdPrecedes] (invalid when
    [xs] is empty): it occurs in [xs] and nothing in [xs] precedes it. *)
Definition is_xid_minimum (xs : list TransactionId) (r : TransactionId) : Prop :=
  match xs with
  | [] => r = InvalidTransactionId
  | _ => In r xs ∧ ∀ x, In x xs → TransactionIdPrecedes x r = false
  end.

(** [TransactionIdPrecedes] is a strict order on the ids in [xs]; a cyclic
    comparison is one as long as the ids span less than half the cycle. *)
Definition precedes_is_order_on (xs : list TransactionId) : Prop :=
  (∀ x, In x xs → TransactionIdPrecedes x x = false)
  ∧ (∀ x y z, In x xs → In y xs → In z xs →
       TransactionIdPrecedes x y = true → TransactionIdPrecedes y z = true →
       TransactionIdPrecedes x z = true).

(** What the loop does to one aggregate when it meets the value [x]. *)
Definition xid_agg (agg x : TransactionId) : TransactionId :=
  if TransactionIdIsValid x
     && (negb (TransactionIdIsValid agg) || TransactionIdPrecedes x agg)
  then x else agg.

(** A boolean test for the names that pass validation. *)
Definition name_ok (n : string) : bool :=
  negb (String.length n =? 0)%nat && negb (NAMEDATALEN <=? String.length n)%nat
  && forallb valid_name_char (list_ascii_of_string n).

(** The record [SaveSlotToPath] builds from the persistent data [d]: the
    header fields, then the checksum over the record with its checksum
    field initialised. *)
Definition saved_record (d : ReplicationSlotPersistentData) : ReplicationSlotOnDisk :=
  let cp0 :=
    mkOnDisk SLOT_MAGIC INIT_CRC32C 1 (Z.of_nat ReplicationSlotOnDiskDynamicSize) d in
  mkOnDisk SLOT_MAGIC (compute_checksum cp0) 1
    (Z.of_nat ReplicationSlotOnDiskDynamicSize) d.

(** [st'] differs from [st] at most in the file system (with the same fault
    oracle), the held locks and the reports. *)
Definition same_memory (st st' : State) : Prop :=
  st' = set_reports (reports st')
          (set_held_lwlocks (held_lwlocks st') (set_fs (fs st') st))
  ∧ fs_fault (fs st') = fs_fault (fs st).

(** The directories [ds'] are [ds] except that file [f] of directory [d]
    may have been created empty or filled with the record [cp]. *)
Definition wrote_only (ds ds' : gmap string (gmap string FileImage))
    (d f : string) (cp : ReplicationSlotOnDisk) : Prop :=
  ds' = ds
  ∨ ∃ m, ds !! d = Some m
         ∧ (ds' = <[d := <[f := Short 0]> m]> ds
            ∨ ds' = <[d := <[f := Complete cp]> m]> ds).

(** A record as the specification describes a written one: the magic, version 1,
    the length of the dynamic region, and the CRC-32C of exactly the
    bytes of the dynamic region. *)
Definition record_well_formed (cp : ReplicationSlotOnDisk) : Prop :=
  magic cp = SLOT_MAGIC
  ∧ version cp = 1
  ∧ length_ cp = Z.of_nat (List.length (slotdata_image (slotdata cp)))
  ∧ checksum cp
    = FIN_CRC32C (COMP_CRC32C INIT_CRC32C (slotdata_image (slotdata cp))).

(** The image of file [f] of the slot directory [d], if there is one. *)
Definition file_of (ds : gmap string (gmap string FileImage)) (d f : string)
    : option FileImage :=
  ds !! d ≫= λ m, m !! f.

(** Every complete record found in [ds'] was already in [ds] at the same
    place or is well formed. *)
Definition written_ok (ds ds' : gmap string (gmap string FileImage)) : Prop :=
  ∀ d f cp, file_of ds' d f = Some (Complete cp) →
            file_of ds d f = Some (Complete cp) ∨ record_well_formed cp.

(** The effect of the other backends' operations on the array. *)
Definition apply_op (l : list ReplicationSlot) (op : SlotOp) : list ReplicationSlot :=
  match op with
  | OpMarkDirty j => alter mark_dirty j l
  | OpSetData j d => alter (set_data d) j l
  | OpSetActive j b => alter (set_active b) j l
  | OpSaveBegin j => alter (set_just_dirtied false) j l
  end.
Definition apply_ops (ops : list SlotOp) (l : list ReplicationSlot)
    : list ReplicationSlot :=
  fold_left apply_op ops l.

(** What a save that went through leaves behind: the array after the
    final check, the locks as before, and in the directory the backup with
    the first copy of the data and the state file with the second. *)
Definition save_result (ops : nat -> list SlotOp) (i : nat) (dir : string)
    (st st' : State) : Prop :=
  let l0 := alter (set_just_dirtied false) i (replication_slots st) in
  let l1 := apply_ops (ops 0%nat) l0 in
  let l2 := apply_ops (ops 1%nat) l1 in
  let l3 := apply_ops (ops 2%nat) l2 in
  replication_slots st' = alter unset_dirty i l3
  ∧ held_lwlocks st' = held_lwlocks st
  ∧ ∃ m, fs_dirs (fs st) !! dir = Some m
         ∧ fs_dirs (fs st')
           = <[dir := <["state" := Complete (saved_record (data (l2 !!! i)))]>
                        (delete "state.tmp"
                           (<["state.backup" := Complete (saved_record (data (l1 !!! i)))]> m))]>
               (fs_dirs (fs st)).

(** What holds of a save whatever its outcome, and of one that returned
    without reporting anything. *)
Definition save_post (ops : nat -> list SlotOp) (i : nat) (dir : string)
    (st : State) (o : Outcome unit) : Prop :=
  written_ok (fs_dirs (fs st)) (fs_dirs (fs (final_state o)))
  ∧ ∀ st', o = Done tt st' → reports st' = reports st → save_result ops i dir st st'.

(** Whether the operations [ops] contain a mark_dirty of slot [i]. *)
Definition marks (i : nat) (ops : list SlotOp) : bool :=
  existsb (λ op, match op with OpMarkDirty j => (j =? i)%nat | _ => false end) ops.

(** The value of just_dirtied of slot [i] after the operations [ops],
    from the value [b]: a mark_dirty of the slot sets it and the first
    block of another save clears it. *)
Definition just_dirtied_after (i : nat) (ops : list SlotOp) (b : bool) : bool :=
  fold_left (λ b op, match op with
                     | OpMarkDirty j => if (j =? i)%nat then true else b
                     | OpSaveBegin j => if (j =? i)%nat then false else b
                     | _ => b
                     end) ops b.

(** [fsync_fname] does not fail. *)
Definition fsync_reliable (f : FileSystem) : Prop :=
  ∀ n p, fs_fault f n SYS_fsync_fname p = false.

(** At most one slot in use bears a given name (invariant of the array). *)
Definition names_unique (l : list ReplicationSlot) : Prop :=
  ∀ i j si sj,
    l !! i = Some si → l !! j = Some sj →
    in_use si = true → in_use sj = true → NameStr si = NameStr sj → i = j.

(** ** Further operations of slot.cpp *)

(** [ValidateName(name)], the check applied to names that reach a shell.
    Every report is at ERROR, which does not return; the NULL pointer is
    read as the empty string after its report, as in [c_str]. *)
Definition ValidateName (name : option string) : M bool :=
  (if bool_decide (name = None)
   then ereport ERROR ERRCODE_INVALID_NAME "replication slot name should not be NULL."
   else mret tt);;
  let n := c_str name in
  if (String.length n =? 0)%nat then
    ereport ERROR ERRCODE_INVALID_NAME "replication slot name is too short";;
    mret false
  else
    (if (NAMEDATALEN - 1 <=? String.length n)%nat
     then ereport ERROR ERRCODE_NAME_TOO_LONG "replication slot name is too long"
     else mret tt);;
    match List.find (λ d, bool_decide (is_Some (strstr n d))) danger_character_list with
    | Some _ =>
        ereport ERROR ERRCODE_INVALID_NAME
          "replication slot name contains invalid character";;
        mret false
    | None => mret true
    end.

(** One iteration of the loop of [ReplicationSlotsCountDBSlots] on the
    pair (nslots, nactive). *)
Definition count_db_step (dboid : Oid) (acc : Z * Z) (s : ReplicationSlot) : Z * Z :=
  if negb (in_use s) then acc
  else if database (data s) =? InvalidOid then acc
  else if negb (database (data s) =? dboid) then acc
  else (acc.1 + 1, if active s then acc.2 + 1 else acc.2).

(** [ReplicationSlotsCountDBSlots(dboid, &nslots, &nactive)]: the returned
    flag with the two counters as they are at the return. *)
Definition ReplicationSlotsCountDBSlots (dboid : Oid) : M (bool * Z * Z) :=
  n ← get max_replication_slots;
  if (n <=? 0)%nat then mret (false, 0, 0)
  else
    LWLockAcquire ReplicationSlotControlLock LW_SHARED;;
    slots ← get replication_slots;
    let c := fold_left (count_db_step dboid) slots (0, 0) in
    LWLockRelease ReplicationSlotControlLock;;
    mret (0 <? c.1, c.1, c.2).
(** Every character of [s] is a blank of [trim_str]. *)
Definition all_blank (sep : ascii) (s : string) : Prop :=
  ∀ c, In c (list_ascii_of_string s) → trim_blank sep c = true.

(** [t] starts and ends with a character that is not a blank. *)
Definition trimmed (sep : ascii) (t : string) : Prop :=
  (∃ c t', t = String c t' ∧ trim_blank sep c = false)
  ∧ (∃ t' c, t = t' +:+ String c EmptyString ∧ trim_blank sep c = false).

(** The slots that [ReplicationSlotsCountDBSlots] counts for [dboid]: in
    use, tied to a database, and that database is [dboid]. *)
Definition db_slots (dboid : Oid) (slots : list ReplicationSlot)
    : list ReplicationSlot :=
  List.filter
    (λ s, in_use s && negb (database (data s) =? InvalidOid)
          && (database (data s) =? dboid))
    slots.

(** The names [ValidateName] lets through: not NULL, not empty, shorter
    than NAMEDATALEN - 1, and without any of the listed characters. *)
Definition shell_safe_name (name : option string) : Prop :=
  ∃ n, name = Some n
       ∧ n ≠ EmptyString
       ∧ (String.length n < NAMEDATALEN - 1)%nat
       ∧ ∀ c, In c (list_ascii_of_string n) →
              ¬ In (String c EmptyString) danger_character_list.

(** Whether the loop of [ReplicationSlotsComputeRequiredLSN] takes a slot
    into account: it is in use and, unless the server is primary or
    pending, it is a logical slot. *)
Definition lsn_counted (mode : ServerMode) (s : ReplicationSlot) : bool :=
  in_use s
  && (bool_decide (mode = PRIMARY_MODE) || bool_decide (mode = PENDING_MODE)
      || negb (database (data s) =? InvalidOid)).

(** The restart_lsn of the slots taken into account. *)
Definition counted_lsns (mode : ServerMode) (slots : list ReplicationSlot)
    : list XLogRecPtr :=
  map (λ s, restart_lsn (data s)) (List.filter (lsn_counted mode) slots).

(** The restart_lsn of the logical slots in use. *)
Definition logical_lsns (slots : list ReplicationSlot) : list XLogRecPtr :=
  map (λ s, restart_lsn (data s))
    (List.filter (λ s, in_use s && negb (database (data s) =? InvalidOid)) slots).

(** [r] is the least of the valid positions of [ls], invalid if there is none. *)
Definition is_min_valid_lsn (ls : list XLogRecPtr) (r : XLogRecPtr) : Prop :=
  (r = InvalidXLogRecPtr ∧ ∀ l, In l ls → l = InvalidXLogRecPtr)
  ∨ (r ≠ InvalidXLogRecPtr ∧ In r ls
     ∧ ∀ l, In l ls → l ≠ InvalidXLogRecPtr → r ≤ l).

(** [r] is the greatest of the positions of [ls], invalid if there is none
    above it. *)
Definition is_max_lsn (ls : list XLogRecPtr) (r : XLogRecPtr) : Prop :=
  (∀ l, In l ls → l ≤ r) ∧ (r = InvalidXLogRecPtr ∨ In r ls).

(** The two files a save leaves in an empty directory. *)
Definition slot_files (d : ReplicationSlotPersistentData) : gmap string FileImage :=
  <["state" := Complete (saved_record d)]>
    (delete "state.tmp" (<["state.backup" := Complete (saved_record d)]> ∅)).

(** The entry [ReplicationSlotCreate] fills, before it is marked in use. *)
Definition created_slot (name : string) (persistency_ : ReplicationSlotPersistency)
    (isDummyStandby_ : bool) (databaseId : Oid) (restart_lsn_ : XLogRecPtr)
    (s : ReplicationSlot) : ReplicationSlot :=
  set_effective_xmin InvalidTransactionId
    (set_data
       (mkPersistentData name databaseId persistency_ isDummyStandby_
          InvalidTransactionId (catalog_xmin (data s)) restart_lsn_)
       s).

(** [ReplicationSlotDrop(name)].  [PMstateIsRun()] and [log_slot_drop]
    belong to other files: the first is passed as its value at the call,
    the second as the computation it stands for. *)
Definition ReplicationSlotDrop (PMstateIsRun : bool)
    (log_slot_drop : string -> M unit) (name : option string) : M unit :=
  ReplicationSlotValidateName name ERROR;;
  ReplicationSlotAcquire name false;;
  i ← my_slot;
  s ← read_slot i;
  let isLogical := negb (database (data s) =? InvalidOid) in
  ReplicationSlotDropAcquired;;
  recovering ← get RecoveryInProgress;
  if PMstateIsRun && negb recovering && isLogical
  then log_slot_drop (c_str name)
  else mret tt.

(** [SetDummyStandbySlotLsnInvalid].  The [Assert] on [isDummyStandby] is
    compiled out of a production build and has no counterpart here. *)
Definition SetDummyStandbySlotLsnInvalid : M unit :=
  i ← my_slot;
  s ← read_slot i;
  if negb (XLByteEQ (restart_lsn (data s)) InvalidXLogRecPtr) then
    modify_slot i (λ s, set_data (set_restart_lsn 0 (data s)) s);;
    ReplicationSlotMarkDirty;;
    ReplicationSlotsComputeRequiredLSN None;;
    mret tt
  else mret tt.

(** [ReplicationSlotPersist] *)
Definition ReplicationSlotPersist : M unit :=
  i ← my_slot;
  LWLockAcquire LogicalReplicationSlotPersistentDataLock LW_EXCLUSIVE;;
  modify_slot i (λ s, set_data (set_persistency RS_PERSISTENT (data s)) s);;
  LWLockRelease LogicalReplicationSlotPersistentDataLock;;
  ReplicationSlotMarkDirty;;
  ReplicationSlotSave.

(** The loop of [CheckPointReplicationSlots] from entry [i] on, with [n]
    entries to go. *)
Fixpoint checkpoint_loop (n i : nat) : M unit :=
  match n with
  | O => mret tt
  | S n' =>
      s ← read_slot i;
      (if negb (in_use s) then mret tt
       else
         let path := NameStr s in
         present ← dir_exists path;
         (if negb present then CreateSlotOnDisk i else mret tt);;
         SaveSlotToPath i path LOG);;
      checkpoint_loop n' (S i)
  end.

(** [CheckPointReplicationSlots] *)
Definition CheckPointReplicationSlots : M unit :=
  ereport DEBUG1 ERRCODE_DEFAULT "performing replication slot checkpoint";;
  LWLockAcquire ReplicationSlotAllocationLock LW_SHARED;;
  n ← get max_replication_slots;
  checkpoint_loop n 0;;
  LWLockRelease ReplicationSlotAllocationLock.

(** What [ReplicationSlotAcquire] does to the entry it takes. *)
Definition acquired_slot (s : ReplicationSlot) : ReplicationSlot :=
  if negb (database (data s) =? InvalidOid)
  then clear_candidates (set_active true s)
  else set_active true s.

(** What a pass of [CheckPointReplicationSlots] without failure leaves of
    an entry: [SaveSlotToPath] clears both flags of a slot in use. *)
Definition flushed (s : ReplicationSlot) : ReplicationSlot :=
  if in_use s then set_dirty false (set_just_dirtied false s) else s.

(** The files of a slot directory [m] after its record was rewritten. *)
Definition rewritten_files (d : ReplicationSlotPersistentData)
    (m : gmap string FileImage) : gmap string FileImage :=
  <["state" := Complete (saved_record d)]>
    (delete "state.tmp" (<["state.backup" := Complete (saved_record d)]> m)).

(** [StartupReplicationSlots].  The directory stream is an argument:
    [None] when [AllocateDir] returned NULL, otherwise the entries
    [ReadDir] returns in turn, each with the answer of [lstat] on it
    ([None] when lstat fails, otherwise whether S_ISDIR holds). *)
Fixpoint startup_loop (entries : list (string * option bool)) : M unit :=
  match entries with
  | [] => mret tt
  | (d_name, statbuf) :: rest =>
      (if bool_decide (d_name = ".") || bool_decide (d_name = "..") then mret tt
       else if bool_decide (statbuf = Some false) then mret tt
       else if string_endswith d_name ".tmp" then
         removed ← rmtree d_name;
         if negb removed
         then ereport WARNING ERRCODE_FILE_ACCESS "could not remove directory"
         else fsync_fname PgReplslot
       else RestoreSlotFromDisk d_name);;
      startup_loop rest
  end.

Definition StartupReplicationSlots
    (replication_dir : option (list (string * option bool))) : M unit :=
  ereport DEBUG1 ERRCODE_DEFAULT "starting up replication slots";;
  match replication_dir with
  | None =>
      bad ← fault SYS_mkdir PgReplslot;
      (if bad : bool
       then ereport ERROR ERRCODE_FILE_ACCESS "could not create directory"
       else mret tt);;
      fsync_fname PgReplslot
  | Some entries =>
      startup_loop entries;;
      n ← get max_replication_slots;
      if (n =? 0)%nat then mret tt
      else
        ReplicationSlotsComputeRequiredXmin false;;
        ReplicationSlotsComputeRequiredLSN None;;
        mret tt
  end.

(** The entries the startup loop passes over: ".", ".." and what lstat
    finds not to be a directory. *)
Definition startup_skips (e : string * option bool) : bool :=
  bool_decide (e.1 = ".") || bool_decide (e.1 = "..")
  || bool_decide (e.2 = Some false).

(** The record in the state file of an entry that is handed to the
    restorer. *)
Definition startup_record (ds : gmap string (gmap string FileImage))
    (e : string * option bool) : option ReplicationSlotOnDisk :=
  if startup_skips e || string_endswith e.1 ".tmp" then None
  else match file_of ds e.1 "state" with
       | Some (Complete cp) => Some cp
       | _ => None
       end.

(** The data of an entry that holds a persistent slot. *)
Definition startup_data (ds : gmap string (gmap string FileImage))
    (e : string * option bool) : option ReplicationSlotPersistentData :=
  match startup_record ds e with
  | Some cp =>
      if bool_decide (persistency (slotdata cp) = RS_PERSISTENT)
      then Some (slotdata cp) else None
  | None => None
  end.

(** The entries whose directory does not outlast the startup: leftovers
    name.tmp and slots that are not persistent. *)
Definition startup_removes (ds : gmap string (gmap string FileImage))
    (e : string * option bool) : bool :=
  negb (startup_skips e) && negb (bool_decide (is_Some (startup_data ds e))).

(** What the startup loop can work on without a report: a skipped entry,
    or a directory that is a leftover name.tmp or holds, without a
    state.tmp, a state file whose record verifies. *)
Definition startup_entry_ok (ds : gmap string (gmap string FileImage))
    (e : string * option bool) : Prop :=
  startup_skips e = true
  ∨ ∃ m, ds !! e.1 = Some m
         ∧ (string_endswith e.1 ".tmp" = true
            ∨ (m !! "state.tmp" = None
               ∧ ∃ cp, m !! "state" = Some (Complete cp) ∧ check_record cp = None)).

(** ** Reasoning about the monad *)

Lemma bind_Done {A B} (m : M A) (f : A -> M B) st a st' :
  m st = Done a st' → (m ≫= f) st = f a st'.
Proof. intros H. unfold mbind, M_bind. by rewrite H. Qed.

Lemma bind_Raised {A B} (m : M A) (f : A -> M B) st e st' :
  m st = Raised e st' → (m ≫= f) st = Raised e st'.
Proof. intros H. unfold mbind, M_bind. by rewrite H. Qed.

Lemma remove_lock_head l m h : remove_lock l ((l, m) :: h) = h.
Proof. simpl. by rewrite decide_True. Qed.

Lemma is_error_promote_ERROR st : is_error (promote ERROR st) = true.
Proof. unfold promote. by destruct (0 <? CritSectionCount st)%nat. Qed.

Lemma ereport_ERROR code msg st :
  ereport ERROR code msg st = Raised (mkReport (promote ERROR st) code msg) st.
Proof. unfold ereport. by rewrite is_error_promote_ERROR. Qed.

(** The range tests of the validator accept exactly the characters of the
    specification's class. *)
Lemma valid_name_char_alphabet c :
  valid_name_char c = existsb (Ascii.eqb c) name_alphabet.
Proof.
  destruct c as [b0 b1 b2 b3 b4 b5 b6 b7].
  destruct b0, b1, b2, b3, b4, b5, b6, b7; reflexivity.
Qed.

Lemma valid_name_char_In c : valid_name_char c = true ↔ In c name_alphabet.
Proof.
  rewrite valid_name_char_alphabet, existsb_exists. split.
  - intros (x & Hx & Heq). apply Ascii.eqb_eq in Heq. by subst.
  - intros H. exists c. split; [done | apply Ascii.eqb_refl].
Qed.

Lemma forallb_valid_false l :
  forallb valid_name_char l = false ↔ ∃ c, In c l ∧ ¬ In c name_alphabet.
Proof.
  split.
  - induction l as [|c l IH]; simpl; [done|].
    destruct (valid_name_char c) eqn:E; simpl.
    + intros H. destruct (IH H) as (c' & ? & ?). exists c'. auto.
    + intros _. exists c. split; [by left|].
      intros Hin. apply valid_name_char_In in Hin. congruence.
  - intros (c & Hc & Hn). apply not_true_is_false. intros Hall.
    rewrite forallb_forall in Hall. apply Hn, valid_name_char_In, Hall, Hc.
Qed.

(** Validation at ERROR raises, without touching the state, exactly on the
    invalid names, and returns true on the others. *)
Lemma validate_ERROR name st :
  (name_is_invalid name
   ∧ ∃ r, ReplicationSlotValidateName name ERROR st = Raised r st
          ∧ is_error (elevel r) = true
          ∧ (errcode r = ERRCODE_INVALID_NAME ∨ errcode r = ERRCODE_NAME_TOO_LONG))
  ∨ (¬ name_is_invalid name
     ∧ ReplicationSlotValidateName name ERROR st = Done true st).
Proof.
  unfold ReplicationSlotValidateName.
  destruct name as [n|].
  - destruct (String.length n =? 0)%nat eqn:E0.
    { left. split. { left. by apply Nat.eqb_eq. }
      eexists. erewrite bind_Raised by apply ereport_ERROR.
      split; [done|]. split; [apply is_error_promote_ERROR | simpl; auto]. }
    destruct (NAMEDATALEN <=? String.length n)%nat eqn:E1.
    { left. split. { right; left. by apply Nat.leb_le. }
      eexists. erewrite bind_Raised by apply ereport_ERROR.
      split; [done|]. split; [apply is_error_promote_ERROR | simpl; auto]. }
    destruct (forallb valid_name_char (list_ascii_of_string n)) eqn:E2; simpl.
    + right. split; [|done]. simpl. intros [H|[H|H]].
      * apply Nat.eqb_neq in E0. lia.
      * apply Nat.leb_gt in E1. lia.
      * apply forallb_valid_false in H. congruence.
    + left. split. { right; right. by apply forallb_valid_false. }
      eexists. erewrite bind_Raised by apply ereport_ERROR.
      split; [done|]. split; [apply is_error_promote_ERROR | simpl; auto].
  - left. split; [done|]. eexists. erewrite bind_Raised by apply ereport_ERROR.
    split; [done|]. split; [apply is_error_promote_ERROR | simpl; auto].
Qed.

Lemma validate_valid name st :
  ¬ name_is_invalid name →
  ReplicationSlotValidateName name ERROR st = Done true st.
Proof. intros Hv. by destruct (validate_ERROR name st) as [[? _]|[_ ?]]. Qed.

(** A state whose lock list is rewritten to itself is the state. *)
Lemma set_held_lwlocks_id st : set_held_lwlocks (held_lwlocks st) st = st.
Proof. by destruct st. Qed.

Lemma acquire_release l m st :
  set_held_lwlocks
    (remove_lock l (held_lwlocks (set_held_lwlocks ((l, m) :: held_lwlocks st) st)))
    (set_held_lwlocks ((l, m) :: held_lwlocks st) st) = st.
Proof. destruct st; simpl. unfold set_held_lwlocks; simpl. by rewrite decide_True. Qed.

(** [ReplicationSlotFind] on a name that passes validation. *)
Lemma find_valid name st :
  ReplicationSlotValidateName name ERROR st = Done true st →
  ReplicationSlotFind name st
  = Done (bool_decide (is_Some (find_slot (c_str name) (replication_slots st)))) st.
Proof.
  intros Hv. unfold ReplicationSlotFind.
  erewrite bind_Done by exact Hv.
  unfold LWLockAcquire, LWLockRelease, get, modify, mbind, M_bind, mret, M_ret.
  cbn [replication_slots set_held_lwlocks held_lwlocks].
  f_equal. apply (acquire_release ReplicationSlotControlLock LW_SHARED st).
Qed.

(** ** Properties *)

(** C10. [find(name)] validates the name at error severity before it scans:
    for a name that is null, empty, of length at least NAMEDATALEN, or that
    has a character outside [a-z0-9_?<!\-.], it raises INVALID_NAME or
    NAME_TOO_LONG instead of returning false; and whatever the name, it
    leaves every slot entry as it was. *)
Theorem C10_find_validates_name (name : option string) (st : State) :
  replication_slots (final_state (ReplicationSlotFind name st)) = replication_slots st
  ∧ (name_is_invalid name →
     ∃ r, ReplicationSlotFind name st = Raised r st
          ∧ is_error (elevel r) = true
          ∧ (errcode r = ERRCODE_INVALID_NAME ∨ errcode r = ERRCODE_NAME_TOO_LONG)).
Proof.
  destruct (validate_ERROR name st) as [(_ & r & Hr & Hlvl & Hcode)|[Hok Hv]].
  - assert (Hf : ReplicationSlotFind name st = Raised r st).
    { unfold ReplicationSlotFind. by erewrite bind_Raised by exact Hr. }
    rewrite Hf. split; [done|]. intros _. by exists r.
  - rewrite (find_valid _ _ Hv). split; [done|]. intros H. by destruct Hok.
Qed.

(** *** The required-xmin scan *)

Lemma fold_xid_agg_field (field : ReplicationSlot -> TransactionId) l a :
  fold_left xid_agg (in_use_xids field l) a
  = fold_left (λ agg s, if negb (in_use s) then agg else xid_agg agg (field s)) l a.
Proof.
  revert a. induction l as [|s l IH]; intros a; [done|].
  unfold in_use_xids in *. simpl. destruct (in_use s); simpl; [|apply IH].
  destruct (TransactionIdIsValid (field s)) eqn:Hv; simpl.
  - apply IH.
  - rewrite IH. f_equal. unfold xid_agg. by rewrite Hv.
Qed.

Lemma required_xmin_fst l agg :
  (fold_left required_xmin_step l agg).1
  = fold_left (λ a s, if negb (in_use s) then a else xid_agg a (effective_xmin s)) l agg.1.
Proof.
  revert agg. induction l as [|s l IH]; intros agg; [done|].
  simpl. rewrite IH. f_equal. unfold required_xmin_step.
  by destruct (in_use s).
Qed.

Lemma required_xmin_snd l agg :
  (fold_left required_xmin_step l agg).2
  = fold_left (λ a s, if negb (in_use s) then a else xid_agg a (effective_catalog_xmin s))
      l agg.2.
Proof.
  revert agg. induction l as [|s l IH]; intros agg; [done|].
  simpl. rewrite IH. f_equal. unfold required_xmin_step.
  by destruct (in_use s).
Qed.

Lemma is_xid_minimum_iff xs r :
  is_xid_minimum xs r ↔
  (xs = [] ∧ r = InvalidTransactionId)
  ∨ (In r xs ∧ ∀ x, In x xs → TransactionIdPrecedes x r = false).
Proof.
  destruct xs as [|x xs]; simpl; split.
  - auto.
  - intros [[_ H]|[[] _]]. done.
  - auto.
  - intros [[H _]|H]; [done|auto].
Qed.

Lemma fold_xid_agg_minimum (all : list TransactionId) :
  Forall (λ x, TransactionIdIsValid x = true) all →
  precedes_is_order_on all →
  ∀ rest seen a,
    all = seen ++ rest → is_xid_minimum seen a →
    is_xid_minimum all (fold_left xid_agg rest a).
Proof.
  intros Hvalid [Hirr Htrans].
  induction rest as [|x rest IH]; intros seen a Hall Hmin.
  - rewrite app_nil_r in Hall. by subst.
  - simpl. apply (IH (seen ++ [x])); [by rewrite <- app_assoc|].
    assert (Hx : In x all) by (subst all; apply in_or_app; right; by left).
    assert (Hxv : TransactionIdIsValid x = true).
    { rewrite Forall_forall in Hvalid. apply Hvalid. by apply list_elem_of_In. }
    apply is_xid_minimum_iff. right.
    apply is_xid_minimum_iff in Hmin as [[-> ->]|[Ha Hle]].
    + unfold xid_agg. rewrite Hxv. simpl. split; [by left|].
      intros y [<-|[]]. by apply Hirr.
    + assert (Haall : In a all) by (subst all; apply in_or_app; by left).
      assert (Hav : TransactionIdIsValid a = true).
      { rewrite Forall_forall in Hvalid. apply Hvalid. by apply list_elem_of_In. }
      unfold xid_agg. rewrite Hxv, Hav. simpl.
      destruct (TransactionIdPrecedes x a) eqn:Hxa.
      * split; [apply in_or_app; right; by left|].
        intros y Hy. apply in_app_or in Hy as [Hy|[<-|[]]]; [|by apply Hirr].
        destruct (TransactionIdPrecedes y x) eqn:Hyx; [|done].
        assert (In y all) by (subst all; apply in_or_app; by left).
        rewrite <- (Hle y Hy). symmetry. by apply (Htrans y x a).
      * split; [apply in_or_app; by left|].
        intros y Hy. apply in_app_or in Hy as [Hy|[<-|[]]]; [by apply Hle|done].
Qed.

Lemma in_use_xids_valid field l :
  Forall (λ x, TransactionIdIsValid x = true) (in_use_xids field l).
Proof.
  rewrite Forall_forall. intros x Hx. apply list_elem_of_In in Hx.
  unfold in_use_xids in Hx. by apply filter_In in Hx as [_ ?].
Qed.

Lemma required_xmin_minimum l :
  precedes_is_order_on (in_use_xids effective_xmin l) →
  precedes_is_order_on (in_use_xids effective_catalog_xmin l) →
  is_xid_minimum (in_use_xids effective_xmin l) (required_xmin l).1
  ∧ is_xid_minimum (in_use_xids effective_catalog_xmin l) (required_xmin l).2.
Proof.
  intros Hx Hc. unfold required_xmin.
  rewrite required_xmin_fst, required_xmin_snd; simpl.
  rewrite <- !fold_xid_agg_field. split.
  - by apply (fold_xid_agg_minimum _ (in_use_xids_valid _ _) Hx _ []).
  - by apply (fold_xid_agg_minimum _ (in_use_xids_valid _ _) Hc _ []).
Qed.

(** The whole operation: only the two published values change. *)
Lemma compute_required_xmin_run already_locked st :
  ReplicationSlotsComputeRequiredXmin already_locked st
  = Done tt (set_slot_xmins (required_xmin (replication_slots st)).1
                            (required_xmin (replication_slots st)).2 st).
Proof.
  unfold ReplicationSlotsComputeRequiredXmin, ProcArraySetReplicationSlotXmin.
  unfold LWLockAcquire, LWLockRelease, get, modify, mbind, M_bind, mret, M_ret.
  destruct st, already_locked; cbn; unfold set_slot_xmins, set_held_lwlocks; cbn;
    by rewrite ?decide_True.
Qed.

(** C3. [recompute_required_xmin] publishes exactly two aggregates: the
    minimum, under the transaction-id precedence order, of effective_xmin
    over the slots in use whose effective_xmin is valid (INVALID if there
    is none), and likewise for effective_catalog_xmin.  Nothing else in the
    state changes.  The precedence relation is taken to order the ids
    present, as a cyclic comparison does for ids less than half a cycle
    apart. *)
Theorem C3_required_xmin_publishes_minima (already_locked : bool) (st : State) :
  precedes_is_order_on (in_use_xids effective_xmin (replication_slots st)) →
  precedes_is_order_on (in_use_xids effective_catalog_xmin (replication_slots st)) →
  ∃ agg_xmin agg_catalog_xmin,
    ReplicationSlotsComputeRequiredXmin already_locked st
    = Done tt (set_slot_xmins agg_xmin agg_catalog_xmin st)
    ∧ is_xid_minimum (in_use_xids effective_xmin (replication_slots st)) agg_xmin
    ∧ is_xid_minimum (in_use_xids effective_catalog_xmin (replication_slots st))
        agg_catalog_xmin.
Proof.
  intros Hx Hc.
  exists (required_xmin (replication_slots st)).1, (required_xmin (replication_slots st)).2.
  split; [apply compute_required_xmin_run|].
  by apply required_xmin_minimum.
Qed.

(** *** The required-LSN scan *)

Lemma compute_required_lsn_run out st :
  max_replication_slots st ≠ 0%nat →
  ReplicationSlotsComputeRequiredLSN out st
  = Done (match out with
          | Some _ => Some (required_lsn (server_mode st) (replication_slots st))
          | None => None
          end)
      (set_max_lsn (max_required (required_lsn (server_mode st) (replication_slots st)))
         (set_min_lsn (min_required (required_lsn (server_mode st) (replication_slots st)))
            st)).
Proof.
  intros Hn. apply Nat.eqb_neq in Hn.
  unfold ReplicationSlotsComputeRequiredLSN, load_server_mode,
    XLogSetReplicationSlotMinimumLSN, XLogSetReplicationSlotMaximumLSN.
  unfold LWLockAcquire, LWLockRelease, get, modify, mbind, M_bind, mret, M_ret.
  rewrite Hn. destruct st; cbn; unfold set_max_lsn, set_min_lsn, set_held_lwlocks; cbn.
  by rewrite ?decide_True.
Qed.

(** C9 (amended). A call of [recompute_required_lsn] with a non-null
    state_out fills the three output fields with the results of the scan
    whenever MAX_SLOTS is not 0; when MAX_SLOTS is 0 the operation returns
    at once and state_out keeps what the caller left in it. *)
Theorem C9_required_lsn_state_out (out : ReplicationSlotState) (st : State) :
  (max_replication_slots st ≠ 0%nat →
   ∃ st', ReplicationSlotsComputeRequiredLSN (Some out) st
          = Done (Some (required_lsn (server_mode st) (replication_slots st))) st')
  ∧ (max_replication_slots st = 0%nat →
     ReplicationSlotsComputeRequiredLSN (Some out) st = Done (Some out) st).
Proof.
  split.
  - intros Hn. eexists. by rewrite compute_required_lsn_run.
  - intros Hn. apply Nat.eqb_eq in Hn.
    unfold ReplicationSlotsComputeRequiredLSN, get, mbind, M_bind.
    by rewrite Hn.
Qed.

(** *** Create and acquire on an existing name *)

Lemma find_slot_from_Some k n l i :
  find_slot_from k n l = Some i →
  ∃ s, (k ≤ i)%nat ∧ l !! (i - k)%nat = Some s ∧ in_use s = true ∧ n = NameStr s.
Proof.
  revert k. induction l as [|s l IH]; intros k; simpl; [done|].
  destruct (in_use s && bool_decide (n = NameStr s)) eqn:E.
  - intros [= <-]. exists s. rewrite Nat.sub_diag. simpl.
    apply andb_true_iff in E as [? E]. apply bool_decide_eq_true in E. done.
  - intros H. apply IH in H as (s' & Hle & Hl & Hu & Hn). exists s'.
    split; [lia|]. split; [|done].
    replace (i - k)%nat with (S (i - S k)) by lia. done.
Qed.

Lemma find_slot_Some n l i :
  find_slot n l = Some i →
  ∃ s, l !! i = Some s ∧ in_use s = true ∧ n = NameStr s.
Proof.
  intros H. apply find_slot_from_Some in H as (s & _ & Hl & ?).
  rewrite Nat.sub_0_r in Hl. by exists s.
Qed.

Lemma create_scan_find k n slot l :
  (create_scan k n slot l).1 = bool_decide (is_Some (find_slot_from k n l)).
Proof.
  revert k slot. induction l as [|s l IH]; intros k slot; simpl; [done|].
  destruct (in_use s && bool_decide (n = NameStr s)); [done|]. apply IH.
Qed.

Lemma create_duplicate_run name persistency_ dummy databaseId lsn st i :
  ¬ name_is_invalid (Some name) →
  find_slot name (replication_slots st) = Some i →
  ReplicationSlotCreate (Some name) persistency_ dummy databaseId lsn st
  = (ereport (if databaseId =? InvalidOid then WARNING else ERROR)
       ERRCODE_DUPLICATE_OBJECT "replication slot already exists";;
     ReplicationSlotAcquire (Some name) dummy) st.
Proof.
  intros Hv Hf.
  unfold ReplicationSlotCreate.
  erewrite bind_Done by apply (validate_valid _ _ Hv).
  pose proof (create_scan_find 0 name None (replication_slots st)) as Hs.
  fold (find_slot name (replication_slots st)) in Hs. rewrite Hf in Hs.
  unfold LWLockAcquire, LWLockRelease, get, modify.
  unfold mbind, M_bind, mret, M_ret.
  clear Hv Hf. destruct st as [slots my held crit f x cx mn mx smode ild rip reps].
  cbn -[ReplicationSlotAcquire ereport create_scan] in *.
  destruct (create_scan 0 name None slots) as [[] free]; [|done].
  by destruct (databaseId =? InvalidOid).
Qed.

Lemma alter_set_active_id (slots : list ReplicationSlot) i s :
  slots !! i = Some s → active s = true → alter (set_active true) i slots = slots.
Proof.
  intros Hs Ha. apply list_eq. intros j. destruct (decide (i = j)) as [<-|Hne].
  - rewrite list_lookup_alter_eq, Hs. simpl. f_equal.
    destruct s; simpl in *; by subst.
  - by rewrite list_lookup_alter_ne.
Qed.

Lemma acquire_found name dummy st i :
  ¬ name_is_invalid (Some name) →
  find_slot name (replication_slots st) = Some i →
  let o := ReplicationSlotAcquire (Some name) dummy st in
  let st' := final_state o in
  held_lwlocks st' = held_lwlocks st
  ∧ (∀ j, j ≠ i → replication_slots st' !! j = replication_slots st !! j)
  ∧ active (replication_slots st' !!! i) = true
  ∧ (reports st' = reports st
     ∨ reports st' = reports st ++ [mkReport WARNING ERRCODE_OBJECT_IN_USE
                                      "replication slot is already active"])
  ∧ match o with
    | Done _ _ => MyReplicationSlot st' = Some i
    | Raised r _ =>
        errcode r = ERRCODE_OBJECT_IN_USE
        ∧ MyReplicationSlot st' = MyReplicationSlot st
        ∧ replication_slots st' = replication_slots st
    end.
Proof.
  intros Hv Hf.
  destruct (find_slot_Some _ _ _ Hf) as (s & Hs & Hu & Hn).
  unfold ReplicationSlotAcquire.
  erewrite bind_Done by apply (validate_valid _ _ Hv).
  unfold LWLockAcquire, LWLockRelease, get, modify, modify_slot, read_slot.
  unfold mbind, M_bind, mret, M_ret.
  clear Hv.
  destruct st as [slots my held crit f x cx mn mx smode ild rip reps].
  cbn -[ereport find_slot] in *. rewrite Hf.
  cbn -[ereport find_slot] in *.
  assert (Hi : (i < length slots)%nat) by (by eapply lookup_lt_Some).
  rewrite !list_lookup_total_alter_eq by done.
  rewrite (list_lookup_total_correct _ _ _ Hs).
  rewrite decide_True by done.
  change (data (set_active true s)) with (data s).
  destruct (active s) eqn:Ha;
    [destruct (negb (database (data s) =? InvalidOid)
               || negb (eqb dummy (isDummyStandby (data s)))) eqn:Hc|];
    [rewrite ereport_ERROR|unfold ereport; cbn|];
    destruct (negb (database (data s) =? InvalidOid)) eqn:Hl; cbn;
    rewrite ?(alter_set_active_id _ _ _ Hs Ha);
    rewrite ?length_alter, ?list_lookup_total_alter_eq, ?(list_lookup_total_correct _ _ _ Hs) by (by rewrite ?length_alter);
    repeat split; try done; auto; try (by destruct s; simpl in *; subst);
    try (intros j Hj; by rewrite ?list_lookup_alter_ne by done).
Qed.

Lemma name_ok_valid n : name_ok n = true → ¬ name_is_invalid (Some n).
Proof.
  unfold name_ok. rewrite !andb_true_iff, !negb_true_iff.
  intros [[H0 H1] H2] [H|[H|H]].
  - apply Nat.eqb_neq in H0. lia.
  - apply Nat.leb_gt in H1. lia.
  - apply forallb_valid_false in H. congruence.
Qed.

(** C5 (amended). When [create(name, ...)] finds a slot in use under the
    same name it releases its locks and reports DUPLICATE.  For a logical
    request (database_id not NONE) the report is an error: create fails,
    every slot entry is unchanged and the session has no current slot.  For
    a physical request (database_id NONE) the report is only a warning and
    create goes on to acquire the existing slot: that entry is marked
    active and becomes the current slot of the session, and the other
    entries are unchanged; if the acquisition itself fails with IN_USE the
    table is unchanged and the session has no current slot. *)
Theorem C5_create_duplicate (name : string)
    (persistency_ : ReplicationSlotPersistency) (dummy : bool)
    (databaseId : Oid) (lsn : XLogRecPtr) (st : State) (i : nat) :
  ¬ name_is_invalid (Some name) →
  find_slot name (replication_slots st) = Some i →
  MyReplicationSlot st = None →
  let o := ReplicationSlotCreate (Some name) persistency_ dummy databaseId lsn st in
  let st' := final_state o in
  held_lwlocks st' = held_lwlocks st
  ∧ (databaseId ≠ InvalidOid →
     o = Raised (mkReport (promote ERROR st) ERRCODE_DUPLICATE_OBJECT
                   "replication slot already exists") st)
  ∧ (databaseId = InvalidOid →
     In (mkReport WARNING ERRCODE_DUPLICATE_OBJECT "replication slot already exists")
        (reports st')
     ∧ (∀ j, j ≠ i → replication_slots st' !! j = replication_slots st !! j)
     ∧ active (replication_slots st' !!! i) = true
     ∧ match o with
       | Done _ _ => MyReplicationSlot st' = Some i
       | Raised r _ =>
           errcode r = ERRCODE_OBJECT_IN_USE
           ∧ MyReplicationSlot st' = None
           ∧ replication_slots st' = replication_slots st
       end).
Proof.
  intros Hv Hf Hmy o st'. subst o st'.
  rewrite (create_duplicate_run _ _ _ _ _ _ _ Hv Hf).
  destruct (databaseId =? InvalidOid) eqn:Hdb.
  - apply Z.eqb_eq in Hdb.
    set (w := mkReport WARNING ERRCODE_DUPLICATE_OBJECT "replication slot already exists").
    set (stw := set_reports (reports st ++ [w]) st).
    assert (Hrun : (ereport WARNING ERRCODE_DUPLICATE_OBJECT
                      "replication slot already exists";;
                    ReplicationSlotAcquire (Some name) dummy) st
                   = ReplicationSlotAcquire (Some name) dummy stw) by done.
    rewrite Hrun.
    assert (Hfw : find_slot name (replication_slots stw) = Some i) by (by destruct st).
    destruct (acquire_found name dummy stw i Hv Hfw) as (Hh & Hj & Ha & Hr & Ho).
    replace (held_lwlocks stw) with (held_lwlocks st) in Hh by (by destruct st).
    replace (replication_slots stw) with (replication_slots st) in * by (by destruct st).
    replace (MyReplicationSlot stw) with (MyReplicationSlot st) in Ho by (by destruct st).
    replace (reports stw) with (reports st ++ [w]) in Hr by (by destruct st).
    split; [done|]. split; [done|]. intros _.
    split.
    { destruct Hr as [-> | ->]; rewrite ?in_app_iff; simpl; auto. }
    split; [done|]. split; [done|].
    destruct (ReplicationSlotAcquire (Some name) dummy stw); [done|].
    by rewrite <- Hmy.
  - apply Z.eqb_neq in Hdb.
    erewrite bind_Raised by apply ereport_ERROR.
    split; [done|]. split; [done|]. done.
Qed.

(** *** System calls: possible outcomes *)

Lemma app_cons_ne {A} (l l' : list A) x : l ++ x :: l' ≠ l.
Proof.
  intros H. apply (f_equal length) in H. rewrite length_app in H. simpl in H. lia.
Qed.

Lemma ereport_cases lvl code msg st :
  (is_error (promote lvl st) = true
   ∧ ereport lvl code msg st = Raised (mkReport (promote lvl st) code msg) st)
  ∨ (is_error (promote lvl st) = false
     ∧ ereport lvl code msg st
       = Done tt (set_reports (reports st ++ [mkReport lvl code msg]) st)).
Proof. unfold ereport, raise. destruct (is_error (promote lvl st)); auto. Qed.

Ltac fs_exists b :=
  eexists b, (mkFS _ _ _); split; [reflexivity|]; split; [reflexivity|].

Lemma open_creat_cases d f st :
  ∃ b f', open_creat d f st = Done b (set_fs f' st)
          ∧ fs_fault f' = fs_fault (fs st)
          ∧ if b : bool
            then ∃ m, fs_dirs (fs st) !! d = Some m
                      ∧ fs_dirs f' = <[d := <[f := default (Short 0) (m !! f)]> m]>
                                       (fs_dirs (fs st))
            else fs_dirs f' = fs_dirs (fs st).
Proof.
  unfold open_creat, fault, get_dirs, put_dirs, get, modify, mbind, M_bind, mret, M_ret.
  destruct st as [slots my held crit [ds clk flt] x cx mn mx smode ild rip reps]; cbn.
  destruct (ds !! d) as [m|] eqn:Hd.
  2:{ by fs_exists false. }
  destruct (flt clk SYS_open_creat (SlotFile d f)); [by fs_exists false|].
  destruct (m !! f) as [img|] eqn:Hf; cbn.
  - fs_exists true. exists m. rewrite Hf.
    split; [done|]. cbn. by rewrite (insert_id m f img Hf), (insert_id ds d m Hd).
  - fs_exists true. exists m. by rewrite Hf.
Qed.

Lemma sys_write_cases d f cp st :
  ∃ b f', sys_write d f cp st = Done b (set_fs f' st)
          ∧ fs_fault f' = fs_fault (fs st)
          ∧ if b : bool
            then ∃ m, fs_dirs (fs st) !! d = Some m
                      ∧ fs_dirs f' = <[d := <[f := Complete cp]> m]> (fs_dirs (fs st))
            else fs_dirs f' = fs_dirs (fs st).
Proof.
  unfold sys_write, fault, get_dirs, put_dirs, get, modify, mbind, M_bind, mret, M_ret.
  destruct st as [slots my held crit [ds clk flt] x cx mn mx smode ild rip reps]; cbn.
  destruct (ds !! d) as [m|] eqn:Hd; [|by fs_exists false].
  destruct (flt clk SYS_write (SlotFile d f)); [by fs_exists false|].
  fs_exists true. by exists m.
Qed.

Lemma pg_fsync_cases d f st :
  ∃ b f', pg_fsync d f st = Done b (set_fs f' st)
          ∧ fs_fault f' = fs_fault (fs st) ∧ fs_dirs f' = fs_dirs (fs st).
Proof.
  unfold pg_fsync, fault, mbind, M_bind, mret, M_ret.
  eexists _, (mkFS _ _ _). split; [reflexivity|]. split; reflexivity.
Qed.

Lemma sys_close_cases d f st :
  ∃ b f', sys_close d f st = Done b (set_fs f' st)
          ∧ fs_fault f' = fs_fault (fs st) ∧ fs_dirs f' = fs_dirs (fs st).
Proof.
  unfold sys_close, fault, mbind, M_bind, mret, M_ret.
  eexists _, (mkFS _ _ _). split; [reflexivity|]. split; reflexivity.
Qed.

Lemma rename_file_cases d f1 f2 st :
  ∃ b f', rename_file d f1 f2 st = Done b (set_fs f' st)
          ∧ fs_fault f' = fs_fault (fs st)
          ∧ if b : bool
            then ∃ m img, fs_dirs (fs st) !! d = Some m ∧ m !! f1 = Some img
                          ∧ fs_dirs f' = <[d := <[f2 := img]> (delete f1 m)]>
                                           (fs_dirs (fs st))
            else fs_dirs f' = fs_dirs (fs st).
Proof.
  unfold rename_file, fault, get_dirs, put_dirs, get, modify, mbind, M_bind, mret, M_ret.
  destruct st as [slots my held crit [ds clk flt] x cx mn mx smode ild rip reps]; cbn.
  destruct (ds !! d) as [m|] eqn:Hd; cbn; [|by fs_exists false].
  destruct (m !! f1) as [img|] eqn:Hf; cbn; [|by fs_exists false].
  destruct (flt clk SYS_rename (SlotFile d f1)); [by fs_exists false|].
  fs_exists true. by exists m, img.
Qed.

Lemma fsync_fname_cases p st :
  ∃ f', fs_fault f' = fs_fault (fs st) ∧ fs_dirs f' = fs_dirs (fs st)
        ∧ (fsync_fname p st = Done tt (set_fs f' st)
           ∨ fsync_fname p st
             = Raised (mkReport (promote ERROR st) ERRCODE_FILE_ACCESS
                         "could not fsync file") (set_fs f' st)).
Proof.
  unfold fsync_fname, fault, mbind, M_bind, mret, M_ret.
  exists (tick (fs st)). split; [done|]. split; [done|].
  destruct (fs_fault (fs st) (fs_clock (fs st)) SYS_fsync_fname p); [|by left].
  right. rewrite ereport_ERROR. by destruct st.
Qed.

(** *** One file of a save *)

Lemma bind_modify {B} f (k : unit -> M B) st : (modify f ≫= k) st = k tt (f st).
Proof. done. Qed.
Lemma bind_get {A B} (p : State -> A) (k : A -> M B) st : (get p ≫= k) st = k (p st) st.
Proof. done. Qed.
Lemma bind_ret {A B} (a : A) (k : A -> M B) st : (mret a ≫= k) st = k a st.
Proof. done. Qed.
Lemma ret_run {A} (a : A) st : (mret a : M A) st = Done a st.
Proof. done. Qed.
Lemma bind_assoc {A B C} (m : M A) (f : A -> M B) (g : B -> M C) st :
  ((m ≫= f) ≫= g) st = (m ≫= λ a, f a ≫= g) st.
Proof. unfold mbind, M_bind. by destruct (m st). Qed.

Ltac bind_step E :=
  first [rewrite (bind_Done _ _ _ _ _ E) | rewrite (bind_Raised _ _ _ _ _ E)];
  cbv beta.

(** Step over the pure primitives at the head of the computation. *)
Ltac pure_steps :=
  repeat first
    [ rewrite bind_assoc | rewrite bind_modify | rewrite bind_get
    | rewrite bind_ret | rewrite ret_run ];
  cbv beta iota.

(** Reduce projections and assignments on explicit states. *)
Ltac st_simpl :=
  cbn [replication_slots MyReplicationSlot held_lwlocks CritSectionCount fs
       replication_slot_xmin replication_slot_catalog_xmin
       replication_slot_min_lsn replication_slot_max_lsn server_mode
       in_logical_decoding RecoveryInProgress reports
       set_slots set_MyReplicationSlot set_held_lwlocks set_CritSectionCount
       set_fs set_slot_xmins set_min_lsn set_max_lsn set_in_logical_decoding
       set_reports final_state negb fs_dirs fs_fault fs_clock].

Tactic Notation "st_simpl" "in" hyp(H) :=
  cbn [replication_slots MyReplicationSlot held_lwlocks CritSectionCount fs
       replication_slot_xmin replication_slot_catalog_xmin
       replication_slot_min_lsn replication_slot_max_lsn server_mode
       in_logical_decoding RecoveryInProgress reports
       set_slots set_MyReplicationSlot set_held_lwlocks set_CritSectionCount
       set_fs set_slot_xmins set_min_lsn set_max_lsn set_in_logical_decoding
       set_reports final_state negb fs_dirs fs_fault fs_clock] in H.

Ltac ereport_step :=
  match goal with
  | |- context [mbind _ (ereport ?lvl ?c ?m) ?s] =>
      let E := fresh "E" in
      destruct (ereport_cases lvl c m s) as [[_ E]|[_ E]]; bind_step E
  | |- context [ereport ?lvl ?c ?m ?s] =>
      let E := fresh "E" in
      destruct (ereport_cases lvl c m s) as [[_ E]|[_ E]]; rewrite E
  end.

Lemma save_one_file_spec i dir fname lvl st :
  let o := save_one_file i dir fname lvl st in
  let cp := saved_record (data (replication_slots st !!! i)) in
  same_memory st (final_state o)
  ∧ match o with
    | Done true st' =>
        (∃ m, fs_dirs (fs st) !! dir = Some m
              ∧ fs_dirs (fs st') = <[dir := <[fname := Complete cp]> m]> (fs_dirs (fs st)))
        ∧ held_lwlocks st' = held_lwlocks st
        ∧ (∃ more, reports st' = reports st ++ more)
    | Done false st' =>
        (∃ r more, reports st' = reports st ++ r :: more)
        ∧ wrote_only (fs_dirs (fs st)) (fs_dirs (fs st')) dir fname cp
    | Raised _ st' => wrote_only (fs_dirs (fs st)) (fs_dirs (fs st')) dir fname cp
    end.
Proof.
  intros o cp. subst o. unfold save_one_file, same_memory.
  destruct st as [slots my held crit f0 x cx mn mx smode ild rip reps].
  st_simpl.
  (* open *)
  match goal with |- context [mbind _ (open_creat dir fname) ?s] =>
    destruct (open_creat_cases dir fname s) as (b1 & f1 & E1 & Hf1 & Hd1) end.
  bind_step E1. st_simpl in Hf1. st_simpl in Hd1. st_simpl. destruct b1; st_simpl.
  2:{ unfold LWLockRelease. pure_steps. st_simpl.
      ereport_step; pure_steps; st_simpl; rewrite Hf1, Hd1; split; try done; [by left|].
      split; [by eexists _, []|by left]. }
  destruct Hd1 as (m & Hm & Hd1).
  unfold read_slot. pure_steps. st_simpl.
  fold (saved_record (data (slots !!! i))). fold cp.
  (* write *)
  match goal with |- context [mbind _ (sys_write dir fname ?c) ?s] =>
    destruct (sys_write_cases dir fname c s) as (b2 & f2 & E2 & Hf2 & Hd2) end.
  bind_step E2. st_simpl in Hf2. st_simpl in Hd2. st_simpl.
  rewrite Hd1 in Hd2. destruct b2; st_simpl.
  2:{ match goal with |- context [mbind _ (sys_close dir fname) ?s] =>
        destruct (sys_close_cases dir fname s) as (b3 & f3 & E3 & Hf3 & Hd3) end.
      bind_step E3. st_simpl in Hf3. st_simpl in Hd3. st_simpl.
      assert (Hw : wrote_only (fs_dirs f0) (fs_dirs f3) dir fname cp).
      { rewrite Hd3, Hd2. destruct (m !! fname) eqn:Hfn; cbn.
        - left. by rewrite (insert_id m), (insert_id (fs_dirs f0)).
        - right. exists m. auto. }
      assert (Hflt : fs_fault f3 = fs_fault f0) by congruence.
      unfold LWLockRelease.
      destruct b3; st_simpl; pure_steps; st_simpl.
      - ereport_step; pure_steps; st_simpl; split; try done.
        split; [by eexists _, []|done].
      - ereport_step; pure_steps; st_simpl; [by split|].
        ereport_step; pure_steps; st_simpl; split; try done.
        split; [|done]. eexists _, [_]. by rewrite <- app_assoc. }
  destruct Hd2 as (m' & Hm' & Hd2). rewrite lookup_insert_eq in Hm'. simplify_eq.
  rewrite !insert_insert_eq in Hd2.
  assert (Hwok : wrote_only (fs_dirs f0) (fs_dirs f2) dir fname cp).
  { right. exists m. auto. }
  (* fsync *)
  match goal with |- context [mbind _ (pg_fsync dir fname) ?s] =>
    destruct (pg_fsync_cases dir fname s) as (b3 & f3 & E3 & Hf3 & Hd3) end.
  bind_step E3. st_simpl in Hf3. st_simpl in Hd3. st_simpl.
  unfold LWLockRelease.
  destruct b3; st_simpl;
    match goal with |- context [mbind _ (sys_close dir fname) ?s] =>
      destruct (sys_close_cases dir fname s) as (b4 & f4 & E4 & Hf4 & Hd4) end;
    st_simpl in Hf4; st_simpl in Hd4;
    assert (Hflt : fs_fault f4 = fs_fault f0) by congruence;
    assert (Hdirs : fs_dirs f4 = fs_dirs f2) by congruence;
    bind_step E4; destruct b4; st_simpl; pure_steps; st_simpl.
  - split; [done|]. split; [exists m; by rewrite Hdirs|].
    split; [done|]. exists []. by rewrite app_nil_r.
  - ereport_step; pure_steps; st_simpl; rewrite ?Hdirs; [by split|].
    split; [done|]. split; [by exists m|]. split; [done|]. by eexists.
  - rewrite <- Hdirs in Hwok.
    ereport_step; pure_steps; st_simpl; split; try done.
    split; [by eexists _, []|done].
  - rewrite <- Hdirs in Hwok.
    ereport_step; pure_steps; st_simpl; [by split|].
    ereport_step; pure_steps; st_simpl; split; try done.
    split; [|done]. eexists _, [_]. by rewrite <- app_assoc.
Qed.


(** *** The whole save *)

Lemma set_slots_id st : set_slots (replication_slots st) st = st.
Proof. by destruct st. Qed.

Lemma run_ops_run ops st :
  run_ops ops st = Done tt (set_slots (apply_ops ops (replication_slots st)) st).
Proof.
  revert st. induction ops as [|op ops IH]; intros st; simpl.
  - by rewrite set_slots_id.
  - assert (E : run_op op st = Done tt (set_slots (apply_op (replication_slots st) op) st))
      by (by destruct op).
    rewrite (bind_Done _ _ _ _ _ E), IH. by destruct st.
Qed.

Lemma drop_header (a b c d : Z) (l : list Z) :
  drop 16 (le_bytes 4 a ++ le_bytes 4 b ++ le_bytes 4 c ++ le_bytes 4 d ++ l) = l.
Proof. done. Qed.

(** The checksummed region is exactly the image of the dynamic region:
    the sixteen bytes of the constant header are left out. *)
Lemma checksum_region cp :
  take ReplicationSlotOnDiskDynamicSize
    (drop ReplicationSlotOnDiskConstantSize (ondisk_image cp))
  = slotdata_image (slotdata cp).
Proof.
  unfold ondisk_image, ReplicationSlotOnDiskDynamicSize,
    sizeof_ReplicationSlotOnDisk, ReplicationSlotOnDiskConstantSize.
  rewrite drop_header.
  replace (16 + sizeof_ReplicationSlotPersistentData - 16)%nat
    with sizeof_ReplicationSlotPersistentData by lia.
  apply firstn_all2. by rewrite slotdata_image_length.
Qed.

Lemma compute_checksum_eq cp :
  compute_checksum cp
  = FIN_CRC32C (COMP_CRC32C INIT_CRC32C (slotdata_image (slotdata cp))).
Proof. unfold compute_checksum. by rewrite checksum_region. Qed.

Lemma dynamic_size_eq d :
  ReplicationSlotOnDiskDynamicSize = List.length (slotdata_image d).
Proof.
  rewrite slotdata_image_length.
  unfold ReplicationSlotOnDiskDynamicSize, sizeof_ReplicationSlotOnDisk,
    ReplicationSlotOnDiskConstantSize. lia.
Qed.

Lemma saved_record_well_formed d : record_well_formed (saved_record d).
Proof.
  unfold record_well_formed, saved_record; cbn [magic version length_ checksum slotdata].
  split; [done|]. split; [done|]. split; [by rewrite <- dynamic_size_eq|].
  by rewrite compute_checksum_eq.
Qed.

(** A well-formed record passes the three checks of the restorer. *)
Lemma well_formed_verifies cp : record_well_formed cp → check_record cp = None.
Proof.
  intros (Hm & _ & Hl & Hc). unfold check_record, EQ_CRC32C.
  rewrite compute_checksum_eq, <- Hc, Z.eqb_refl. cbn [negb].
  rewrite Hm, Z.eqb_refl. cbn [negb].
  rewrite Hl, <- dynamic_size_eq, Z.eqb_refl. done.
Qed.

Lemma written_ok_refl ds : written_ok ds ds.
Proof. intros d f cp H. by left. Qed.

Lemma written_ok_trans ds1 ds2 ds3 :
  written_ok ds1 ds2 → written_ok ds2 ds3 → written_ok ds1 ds3.
Proof.
  intros H12 H23 d f cp H. destruct (H23 d f cp H) as [H2|?]; [|by right].
  by apply H12.
Qed.

Lemma file_of_insert ds d m f img d' f' :
  file_of (<[d := <[f := img]> m]> ds) d' f'
  = if decide (d' = d) then (if decide (f' = f) then Some img else m !! f')
    else file_of ds d' f'.
Proof.
  unfold file_of. destruct (decide (d' = d)) as [->|Hd].
  - rewrite lookup_insert_eq. cbn. destruct (decide (f' = f)) as [->|Hf].
    + by rewrite lookup_insert_eq.
    + by rewrite lookup_insert_ne.
  - by rewrite lookup_insert_ne.
Qed.

Lemma wrote_only_written_ok ds ds' d f cp :
  record_well_formed cp → wrote_only ds ds' d f cp → written_ok ds ds'.
Proof.
  intros Hwf [->|(m & Hm & [->| ->])]; [apply written_ok_refl| |];
    intros d' f' cp'; rewrite file_of_insert; unfold file_of;
    destruct (decide (d' = d)) as [->|]; try (by left);
    rewrite Hm; cbn; destruct (decide (f' = f)) as [->|]; try (by left).
  intros [= <-]. by right.
Qed.


Lemma app_eq_self {A} (l x : list A) : l ++ x = l → x = [].
Proof. intros H. apply (app_inv_head l). by rewrite app_nil_r. Qed.

Ltac explicit_state s Hsm h f r :=
  let Hflt := fresh "Hflt" in
  destruct Hsm as [Hsm Hflt];
  destruct s as [? ? h ? f ? ? ? ? ? ? ? r]; st_simpl in Hsm; st_simpl in Hflt;
  injection Hsm as -> -> -> -> -> -> -> -> -> ->.

Lemma written_ok_renamed ds dir m d1 d2 :
  ds !! dir = Some m →
  written_ok ds
    (<[dir := <["state" := Complete (saved_record d2)]>
                (delete "state.tmp" (<["state.backup" := Complete (saved_record d1)]> m))]> ds).
Proof.
  intros Hm d f cp. rewrite file_of_insert. unfold file_of.
  destruct (decide (d = dir)) as [->|]; [|by left]. rewrite Hm; cbn.
  destruct (decide (f = "state")) as [->|Hs].
  { intros [= <-]. right. apply saved_record_well_formed. }
  destruct (decide (f = "state.tmp")) as [->|Ht].
  { by rewrite lookup_delete_eq. }
  rewrite lookup_delete_ne by done.
  destruct (decide (f = "state.backup")) as [->|Hb].
  { rewrite lookup_insert_eq. intros [= <-]. right. apply saved_record_well_formed. }
  rewrite lookup_insert_ne by done. by left.
Qed.

(** Close a branch in which the save did not go through: it raised, or
    it reported. *)
Ltac failed_save Hok :=
  unfold save_post; st_simpl; split;
  [ exact Hok
  | let st' := fresh "st'" in let Heq := fresh "Heq" in let Hr := fresh "Hr" in
    intros st' Heq Hr;
    first [ discriminate Heq
          | injection Heq as <-; st_simpl in Hr; exfalso;
            repeat match goal with
                   | H : _ = _ ++ _ |- _ => rewrite H in Hr; clear H
                   end;
            rewrite <- ?app_assoc in Hr; apply app_eq_self in Hr;
            repeat (apply app_eq_nil in Hr as [_ Hr]); discriminate Hr ] ].

Lemma save_walk ops i dir lvl st :
  dirty (replication_slots st !!! i) = true →
  save_post ops i dir st (SaveSlotToPath_with (λ k, run_ops (ops k)) i dir lvl st).
Proof.
  intros Hd. unfold SaveSlotToPath_with, read_slot, modify_slot.
  pure_steps. rewrite Hd. cbn [negb].
  destruct st as [slots my held crit f0 x cx mn mx smode ild rip reps].
  st_simpl. st_simpl in Hd.
  set (l0 := alter (set_just_dirtied false) i slots).
  rewrite (bind_Done _ _ _ _ _ (run_ops_run _ _)). st_simpl.
  set (l1 := apply_ops (ops 0%nat) l0).
  unfold LWLockAcquire. pure_steps. st_simpl.
  (* state.backup *)
  match goal with |- context [mbind _ (save_one_file i dir "state.backup" lvl) ?s] =>
    pose proof (save_one_file_spec i dir "state.backup" lvl s) as H1;
    destruct (save_one_file i dir "state.backup" lvl s) as [[] s1|e s1] eqn:E1
  end; cbv zeta in H1; st_simpl in H1; destruct H1 as [Hsm1 H1];
    bind_step E1; st_simpl; explicit_state s1 Hsm1 h1 f1 r1; st_simpl in H1; clear E1.
  2:{ destruct H1 as [(r & more & Hr1) Hw].
      pose proof (wrote_only_written_ok _ _ _ _ _ (saved_record_well_formed _) Hw) as Hok.
      pure_steps. failed_save Hok. }
  2:{ pose proof (wrote_only_written_ok _ _ _ _ _ (saved_record_well_formed _) H1) as Hok.
      failed_save Hok. }
  destruct H1 as ((m & Hm & Hd1) & -> & (more1 & Hr1)).
  rewrite (bind_Done _ _ _ _ _ (run_ops_run _ _)). st_simpl.
  set (l2 := apply_ops (ops 1%nat) l1).
  assert (Hok1 : written_ok (fs_dirs f0) (fs_dirs f1)).
  { rewrite Hd1. eapply wrote_only_written_ok; [apply saved_record_well_formed|].
    right. exists m. eauto. }
  (* state.tmp *)
  match goal with |- context [mbind _ (save_one_file i dir "state.tmp" lvl) ?s] =>
    pose proof (save_one_file_spec i dir "state.tmp" lvl s) as H2;
    destruct (save_one_file i dir "state.tmp" lvl s) as [[] s2|e s2] eqn:E2
  end; cbv zeta in H2; st_simpl in H2; destruct H2 as [Hsm2 H2];
    bind_step E2; st_simpl; explicit_state s2 Hsm2 h2 f2 r2; st_simpl in H2; clear E2.
  2:{ destruct H2 as [(r & more & Hr2) Hw].
      pose proof (written_ok_trans _ _ _ Hok1
        (wrote_only_written_ok _ _ _ _ _ (saved_record_well_formed _) Hw)) as Hok.
      pure_steps. failed_save Hok. }
  2:{ pose proof (written_ok_trans _ _ _ Hok1
        (wrote_only_written_ok _ _ _ _ _ (saved_record_well_formed _) H2)) as Hok.
      failed_save Hok. }
  destruct H2 as ((m1 & Hm1 & Hd2) & -> & (more2 & Hr2)).
  rewrite Hd1, lookup_insert_eq in Hm1. injection Hm1 as <-.
  rewrite Hd1, insert_insert_eq in Hd2. clear Hd1 Hok1.
  assert (Hok2 : written_ok (fs_dirs f0) (fs_dirs f2)).
  { rewrite Hd2. intros d f cp. rewrite file_of_insert. unfold file_of.
    destruct (decide (d = dir)) as [->|]; [|by left]. rewrite Hm; cbn.
    destruct (decide (f = "state.tmp")) as [->|].
    { intros [= <-]. right. apply saved_record_well_formed. }
    destruct (decide (f = "state.backup")) as [->|].
    { rewrite lookup_insert_eq. intros [= <-]. right. apply saved_record_well_formed. }
    rewrite lookup_insert_ne by done. by left. }
  rewrite (bind_Done _ _ _ _ _ (run_ops_run _ _)). st_simpl.
  set (l3 := apply_ops (ops 2%nat) l2).
  (* rename *)
  match goal with |- context [mbind _ (rename_file dir "state.tmp" "state") ?s] =>
    destruct (rename_file_cases dir "state.tmp" "state" s) as (b3 & f3 & E3 & Hf3 & Hd3) end.
  bind_step E3. st_simpl in Hf3. st_simpl in Hd3. st_simpl. clear E3.
  destruct b3; st_simpl.
  2:{ rewrite <- Hd3 in Hok2. unfold LWLockRelease. pure_steps. st_simpl.
      ereport_step; failed_save Hok2. }
  destruct Hd3 as (m2 & img & Hm2 & Himg & Hd3).
  rewrite Hd2, lookup_insert_eq in Hm2. injection Hm2 as <-.
  rewrite lookup_insert_eq in Himg. injection Himg as <-.
  rewrite Hd2, insert_insert_eq, delete_insert_eq in Hd3. clear Hd2 Hok2.
  pose proof (written_ok_renamed (fs_dirs f0) dir m (data (l1 !!! i)) (data (l2 !!! i)) Hm)
    as Hok3.
  rewrite <- Hd3 in Hok3.
  unfold START_CRIT_SECTION, END_CRIT_SECTION, LWLockRelease. pure_steps. st_simpl.
  (* the three fsyncs of the critical section *)
  match goal with |- context [mbind _ (fsync_fname ?p) ?s] =>
    destruct (fsync_fname_cases p s) as (f4 & Hf4 & Hd4 & [E4|E4]) end;
    st_simpl in Hf4; st_simpl in Hd4; st_simpl in E4; bind_step E4; clear E4;
    rewrite <- Hd4 in Hok3, Hd3; [|failed_save Hok3].
  match goal with |- context [mbind _ (fsync_fname ?p) ?s] =>
    destruct (fsync_fname_cases p s) as (f5 & Hf5 & Hd5 & [E5|E5]) end;
    st_simpl in Hf5; st_simpl in Hd5; st_simpl in E5; bind_step E5; clear E5;
    rewrite <- Hd5 in Hok3, Hd3; [|failed_save Hok3].
  match goal with |- context [mbind _ (fsync_fname ?p) ?s] =>
    destruct (fsync_fname_cases p s) as (f6 & Hf6 & Hd6 & [E6|E6]) end;
    st_simpl in Hf6; st_simpl in Hd6; st_simpl in E6; bind_step E6; clear E6;
    rewrite <- Hd6 in Hok3, Hd3; [|failed_save Hok3].
  pure_steps. st_simpl.
  unfold save_post, save_result. st_simpl. split; [exact Hok3|].
  intros st' [= <-] _. st_simpl.
  split; [done|]. split; [by rewrite decide_True|].
  exists m. split; [done|]. exact Hd3.
Qed.


(** *** The dirty flags across a save *)

Lemma marks_In i ops : marks i ops = true ↔ In (OpMarkDirty i) ops.
Proof.
  unfold marks. rewrite existsb_exists. split.
  - intros (op & Hin & Hop). destruct op; try done.
    apply Nat.eqb_eq in Hop. by subst.
  - intros H. exists (OpMarkDirty i). split; [done|]. apply Nat.eqb_refl.
Qed.

Lemma marks_app i ops1 ops2 : marks i (ops1 ++ ops2) = marks i ops1 || marks i ops2.
Proof. apply existsb_app. Qed.

Lemma length_apply_ops ops l : List.length (apply_ops ops l) = List.length l.
Proof.
  revert l. induction ops as [|op ops IH]; intros l; [done|]. simpl.
  rewrite IH. destruct op; simpl; apply length_alter.
Qed.

Lemma apply_op_flags op l i :
  (i < List.length l)%nat →
  just_dirtied (apply_op l op !!! i) = just_dirtied_after i [op] (just_dirtied (l !!! i))
  ∧ dirty (apply_op l op !!! i) = dirty (l !!! i) || marks i [op].
Proof.
  intros Hi. destruct op as [j|j d|j b|j]; simpl;
    (destruct (decide (j = i)) as [->|Hne];
     [rewrite list_lookup_total_alter_eq by done
     |rewrite list_lookup_total_alter_ne by done]); simpl;
    rewrite ?Nat.eqb_refl, ?orb_false_r, ?orb_true_r; try done;
    apply Nat.eqb_neq in Hne; by rewrite Hne, ?orb_false_r.
Qed.

Lemma apply_ops_flags ops l i :
  (i < List.length l)%nat →
  just_dirtied (apply_ops ops l !!! i) = just_dirtied_after i ops (just_dirtied (l !!! i))
  ∧ dirty (apply_ops ops l !!! i) = dirty (l !!! i) || marks i ops.
Proof.
  revert l. induction ops as [|op ops IH]; intros l Hi; simpl.
  - by rewrite !orb_false_r.
  - assert (Hi' : (i < List.length (apply_op l op))%nat).
    { destruct op; simpl; by rewrite length_alter. }
    destruct (IH _ Hi') as [-> ->].
    destruct (apply_op_flags op l i Hi) as [-> ->].
    simpl. rewrite !orb_false_r, <- !orb_assoc. done.
Qed.

Lemma just_dirtied_after_app i ops1 ops2 b :
  just_dirtied_after i (ops1 ++ ops2) b
  = just_dirtied_after i ops2 (just_dirtied_after i ops1 b).
Proof. unfold just_dirtied_after. by rewrite fold_left_app. Qed.

(** Without a mark_dirty of the slot just_dirtied does not become true. *)
Lemma just_dirtied_after_unmarked i ops :
  ¬ In (OpMarkDirty i) ops → just_dirtied_after i ops false = false.
Proof.
  induction ops as [|op ops IH]; intros Hn; [done|].
  change (op :: ops) with ([op] ++ ops). rewrite just_dirtied_after_app.
  assert (E : just_dirtied_after i [op] false = false).
  { destruct op as [j|j d|j b|j]; cbn; try done.
    - destruct (Nat.eqb_spec j i) as [->|]; [|done]. exfalso. apply Hn. by left.
    - by destruct (j =? i)%nat. }
  rewrite E. apply IH. intros H. apply Hn. by right.
Qed.

(** Without the first block of another save just_dirtied stays true. *)
Lemma just_dirtied_after_kept i ops :
  ¬ In (OpSaveBegin i) ops → just_dirtied_after i ops true = true.
Proof.
  induction ops as [|op ops IH]; intros Hn; [done|].
  change (op :: ops) with ([op] ++ ops). rewrite just_dirtied_after_app.
  assert (E : just_dirtied_after i [op] true = true).
  { destruct op as [j|j d|j b|j]; cbn; try done.
    - by destruct (j =? i)%nat.
    - destruct (Nat.eqb_spec j i) as [->|]; [|done]. exfalso. apply Hn. by left. }
  rewrite E. apply IH. intros H. apply Hn. by right.
Qed.

Lemma just_dirtied_after_marked i before after b :
  ¬ In (OpSaveBegin i) after →
  just_dirtied_after i (before ++ OpMarkDirty i :: after) b = true.
Proof.
  intros Hn. rewrite just_dirtied_after_app.
  change (OpMarkDirty i :: after) with ([OpMarkDirty i] ++ after).
  rewrite just_dirtied_after_app. cbn. rewrite Nat.eqb_refl.
  by apply just_dirtied_after_kept.
Qed.

Lemma save_clean others i dir lvl st :
  dirty (replication_slots st !!! i) = false →
  SaveSlotToPath_with others i dir lvl st
  = Done tt (set_slots (alter (set_just_dirtied false) i (replication_slots st)) st).
Proof.
  intros Hd. unfold SaveSlotToPath_with, read_slot, modify_slot.
  pure_steps. by rewrite Hd.
Qed.

(** The dirty flags across a save.  [SaveSlotToPath] on a slot whose dirty
    flag is false performs no write and returns at once (it has only
    cleared just_dirtied).  After a save that went through, dirty is
    cleared if and only if just_dirtied is still false at the final
    check.  A mark_dirty of the slot by another backend after the initial
    check leaves dirty set provided no other save of the same slot passes
    its own initial check after that mark and before the final check of
    this one; without any mark dirty is cleared. *)
Theorem save_dirty_flags (ops : nat -> list SlotOp) (i : nat) (dir : string)
    (lvl : ErrLevel) (st : State) :
  (i < List.length (replication_slots st))%nat →
  (dirty (replication_slots st !!! i) = false →
   SaveSlotToPath_with (λ k, run_ops (ops k)) i dir lvl st
   = Done tt (set_slots (alter (set_just_dirtied false) i (replication_slots st)) st))
  ∧ (∀ st',
       dirty (replication_slots st !!! i) = true →
       SaveSlotToPath_with (λ k, run_ops (ops k)) i dir lvl st = Done tt st' →
       reports st' = reports st →
       let s' := replication_slots st' !!! i in
       let concurrent := ops 0%nat ++ ops 1%nat ++ ops 2%nat in
       (dirty s' = false ↔ just_dirtied s' = false)
       ∧ dirty s' = just_dirtied_after i concurrent false
       ∧ (∀ before after, concurrent = before ++ OpMarkDirty i :: after →
                          ¬ In (OpSaveBegin i) after → dirty s' = true)
       ∧ (¬ In (OpMarkDirty i) concurrent → dirty s' = false)).
Proof.
  intros Hi. split; [apply save_clean|].
  intros st' Hd Hrun Hrep s' concurrent.
  destruct (save_walk ops i dir lvl st Hd) as [_ Hres].
  destruct (Hres st' Hrun Hrep) as (Hslots & _ & _). clear Hres.
  set (l0 := alter (set_just_dirtied false) i (replication_slots st)) in *.
  assert (Hl0 : (i < List.length l0)%nat) by (unfold l0; by rewrite length_alter).
  assert (H0 : just_dirtied (l0 !!! i) = false ∧ dirty (l0 !!! i) = true).
  { unfold l0. rewrite list_lookup_total_alter_eq by done. by simpl. }
  destruct H0 as [Hj0 Hd0].
  set (l3 := apply_ops (ops 2%nat) (apply_ops (ops 1%nat) (apply_ops (ops 0%nat) l0))) in *.
  assert (Hl3 : l3 = apply_ops concurrent l0).
  { unfold l3, concurrent, apply_ops. by rewrite !fold_left_app. }
  assert (Hlen3 : (i < List.length l3)%nat) by (rewrite Hl3, length_apply_ops; done).
  destruct (apply_ops_flags concurrent l0 i Hl0) as [Hj3 Hd3].
  rewrite <- Hl3 in Hj3, Hd3. rewrite Hj0 in Hj3. rewrite Hd0 in Hd3.
  simpl in Hd3.
  assert (Hs' : s' = unset_dirty (l3 !!! i)).
  { unfold s'. rewrite Hslots. by rewrite list_lookup_total_alter_eq. }
  assert (Hflags : dirty s' = just_dirtied_after i concurrent false
                   ∧ just_dirtied s' = just_dirtied_after i concurrent false).
  { rewrite Hs'. unfold unset_dirty. rewrite Hj3.
    destruct (just_dirtied_after i concurrent false) eqn:Hm; simpl; by rewrite ?Hj3. }
  destruct Hflags as [Hds Hjs]. rewrite Hds, Hjs.
  split; [done|]. split; [done|]. split.
  - intros before after -> Hn. by apply just_dirtied_after_marked.
  - apply just_dirtied_after_unmarked.
Qed.

(** C7. Every complete record present under pg_replslot after a save,
    whatever the outcome of the save, was there before at the same place
    or has the magic SLOT_MAGIC, version 1, the length of the dynamic
    region, and the CRC-32C of exactly the dynamic region (the 16-byte
    header left out); such a record passes the checks of the restorer; and
    after a save that went through, state.backup and state hold such
    records and state.tmp is gone. *)
Theorem C7_saved_records_well_formed (ops : nat -> list SlotOp) (i : nat)
    (dir : string) (lvl : ErrLevel) (st : State) :
  let o := SaveSlotToPath_with (λ k, run_ops (ops k)) i dir lvl st in
  written_ok (fs_dirs (fs st)) (fs_dirs (fs (final_state o)))
  ∧ (∀ cp, record_well_formed cp → check_record cp = None)
  ∧ (∀ st',
       dirty (replication_slots st !!! i) = true →
       o = Done tt st' → reports st' = reports st →
       ∃ cp_backup cp_state,
         fs_file (fs st') dir "state.backup" = Some (Complete cp_backup)
         ∧ fs_file (fs st') dir "state" = Some (Complete cp_state)
         ∧ fs_file (fs st') dir "state.tmp" = None
         ∧ record_well_formed cp_backup
         ∧ record_well_formed cp_state).
Proof.
  intros o. subst o. split; [|split; [apply well_formed_verifies|]].
  - destruct (dirty (replication_slots st !!! i)) eqn:Hd.
    + apply (save_walk ops i dir lvl st Hd).
    + rewrite (save_clean _ _ _ _ _ Hd). destruct st; apply written_ok_refl.
  - intros st' Hd Hrun Hrep.
    destruct (save_walk ops i dir lvl st Hd) as [_ Hres].
    destruct (Hres st' Hrun Hrep) as (_ & _ & m & Hm & Hdirs). clear Hres.
    eexists _, _. unfold fs_file. rewrite Hdirs, !lookup_insert_eq. cbn.
    rewrite lookup_insert_eq.
    rewrite lookup_insert_ne, lookup_delete_ne, lookup_insert_eq by done.
    rewrite lookup_insert_ne, lookup_delete_eq by done.
    repeat split; apply saved_record_well_formed.
Qed.


(** *** System calls when nothing fails *)

Lemma no_faults_tick f : no_faults f → no_faults (tick f).
Proof. done. Qed.

Ltac nf_exists :=
  eexists (mkFS _ _ _); split; [reflexivity|]; split; [assumption|].

Lemma sys_unlink_absent d f st :
  no_faults (fs st) → file_of (fs_dirs (fs st)) d f = None →
  ∃ f', sys_unlink d f st = Done UnlinkENOENT (set_fs f' st)
        ∧ no_faults f' ∧ fs_dirs f' = fs_dirs (fs st).
Proof.
  intros Hnf Hf. unfold sys_unlink, fault, get_dirs, put_dirs, get, modify.
  unfold mbind, M_bind, mret, M_ret. rewrite Hnf.
  destruct st as [slots my held crit [ds clk flt] x cx mn mx smode ild rip reps]; cbn in *.
  unfold file_of in Hf. destruct (ds !! d) as [m|]; cbn in *.
  - rewrite Hf. cbn. by nf_exists.
  - by nf_exists.
Qed.

Lemma sys_unlink_present d f st m img :
  no_faults (fs st) → fs_dirs (fs st) !! d = Some m → m !! f = Some img →
  ∃ f', sys_unlink d f st = Done Unlinked (set_fs f' st)
        ∧ no_faults f' ∧ fs_dirs f' = <[d := delete f m]> (fs_dirs (fs st)).
Proof.
  intros Hnf Hm Hf. unfold sys_unlink, fault, get_dirs, put_dirs, get, modify.
  unfold mbind, M_bind, mret, M_ret. rewrite Hnf.
  destruct st as [slots my held crit [ds clk flt] x cx mn mx smode ild rip reps]; cbn in *.
  rewrite Hm. cbn. rewrite Hf. cbn. by nf_exists.
Qed.

Lemma open_rdonly_nf d f st :
  no_faults (fs st) →
  ∃ f', open_rdonly d f st
        = Done (bool_decide (is_Some (file_of (fs_dirs (fs st)) d f))) (set_fs f' st)
        ∧ no_faults f' ∧ fs_dirs f' = fs_dirs (fs st).
Proof.
  intros Hnf. unfold open_rdonly, fault, get_dirs, get.
  unfold mbind, M_bind, mret, M_ret. rewrite Hnf.
  destruct st as [slots my held crit [ds clk flt] x cx mn mx smode ild rip reps]; cbn in *.
  by nf_exists.
Qed.

Lemma pg_fsync_nf d f st :
  no_faults (fs st) →
  ∃ f', pg_fsync d f st = Done true (set_fs f' st)
        ∧ no_faults f' ∧ fs_dirs f' = fs_dirs (fs st).
Proof.
  intros Hnf. unfold pg_fsync, fault. unfold mbind, M_bind, mret, M_ret. rewrite Hnf.
  destruct st as [slots my held crit [ds clk flt] x cx mn mx smode ild rip reps]; cbn in *.
  by nf_exists.
Qed.

Lemma sys_close_nf d f st :
  no_faults (fs st) →
  ∃ f', sys_close d f st = Done true (set_fs f' st)
        ∧ no_faults f' ∧ fs_dirs f' = fs_dirs (fs st).
Proof.
  intros Hnf. unfold sys_close, fault. unfold mbind, M_bind, mret, M_ret. rewrite Hnf.
  destruct st as [slots my held crit [ds clk flt] x cx mn mx smode ild rip reps]; cbn in *.
  by nf_exists.
Qed.

Lemma fsync_fname_nf p st :
  no_faults (fs st) →
  ∃ f', fsync_fname p st = Done tt (set_fs f' st)
        ∧ no_faults f' ∧ fs_dirs f' = fs_dirs (fs st).
Proof.
  intros Hnf. unfold fsync_fname, fault. unfold mbind, M_bind, mret, M_ret. rewrite Hnf.
  destruct st as [slots my held crit [ds clk flt] x cx mn mx smode ild rip reps]; cbn in *.
  by nf_exists.
Qed.

Lemma sys_read_nf d f st :
  no_faults (fs st) →
  ∃ f', sys_read d f st
        = Done (default (Short (-1)) (file_of (fs_dirs (fs st)) d f)) (set_fs f' st)
        ∧ no_faults f' ∧ fs_dirs f' = fs_dirs (fs st).
Proof.
  intros Hnf. unfold sys_read, fault, get_dirs, get.
  unfold mbind, M_bind, mret, M_ret. rewrite Hnf.
  destruct st as [slots my held crit [ds clk flt] x cx mn mx smode ild rip reps]; cbn in *.
  by nf_exists.
Qed.

Lemma open_trunc_nf d f st m img :
  no_faults (fs st) → fs_dirs (fs st) !! d = Some m → m !! f = Some img →
  ∃ f', open_trunc d f st = Done true (set_fs f' st)
        ∧ no_faults f' ∧ fs_dirs f' = <[d := <[f := Short 0]> m]> (fs_dirs (fs st)).
Proof.
  intros Hnf Hm Hf. unfold open_trunc, fault, get_dirs, put_dirs, get, modify.
  unfold mbind, M_bind, mret, M_ret. rewrite Hnf.
  destruct st as [slots my held crit [ds clk flt] x cx mn mx smode ild rip reps]; cbn in *.
  rewrite Hm, Hf. by nf_exists.
Qed.

Lemma sys_write_nf d f cp st m :
  no_faults (fs st) → fs_dirs (fs st) !! d = Some m →
  ∃ f', sys_write d f cp st = Done true (set_fs f' st)
        ∧ no_faults f' ∧ fs_dirs f' = <[d := <[f := Complete cp]> m]> (fs_dirs (fs st)).
Proof.
  intros Hnf Hm. unfold sys_write, fault, get_dirs, put_dirs, get, modify.
  unfold mbind, M_bind, mret, M_ret. rewrite Hnf.
  destruct st as [slots my held crit [ds clk flt] x cx mn mx smode ild rip reps]; cbn in *.
  rewrite Hm. by nf_exists.
Qed.

Lemma rmtree_nf d st m :
  no_faults (fs st) → fs_dirs (fs st) !! d = Some m →
  ∃ f', rmtree d st = Done true (set_fs f' st)
        ∧ no_faults f' ∧ fs_dirs f' = delete d (fs_dirs (fs st)).
Proof.
  intros Hnf Hm. unfold rmtree, fault, get_dirs, put_dirs, get, modify.
  unfold mbind, M_bind, mret, M_ret. rewrite Hnf.
  destruct st as [slots my held crit [ds clk flt] x cx mn mx smode ild rip reps]; cbn in *.
  rewrite Hm. cbn. by nf_exists.
Qed.

(** Take one step with a lemma of the form
    [no_faults (fs st) → ∃ f', m st = Done a (set_fs f' st) ∧ no_faults f' ∧ fs_dirs f' = ...],
    instantiated by [lem] at the state the computation is run on. *)
Ltac nf_step lem f' Hnf' Hd' :=
  let E := fresh "E" in
  pure_steps;
  lazymatch goal with
  | |- context [mbind _ _ ?s] =>
      let pf := lem s in
      destruct pf as (f' & E & Hnf' & Hd'); bind_step E; clear E; st_simpl;
      st_simpl in Hd'
  end.

(** Reading one state file when nothing fails. *)
Lemma read_state_file_nf name fname st cp :
  no_faults (fs st) →
  file_of (fs_dirs (fs st)) name fname = Some (Complete cp) →
  ∃ f', read_state_file name fname st = Done cp (set_fs f' st)
        ∧ no_faults f' ∧ fs_dirs f' = fs_dirs (fs st).
Proof.
  intros Hnf Hf. unfold read_state_file.
  destruct st as [slots my held crit f0 x cx mn mx smode ild rip reps].
  st_simpl in Hnf. st_simpl in Hf. st_simpl.
  nf_step ltac:(fun s => constr:(open_rdonly_nf name fname s Hnf)) f1 Hnf1 Hd1.
  rewrite Hf, bool_decide_true by done. st_simpl. pure_steps.
  nf_step ltac:(fun s => constr:(pg_fsync_nf name fname s Hnf1)) f2 Hnf2 Hd2. pure_steps.
  unfold START_CRIT_SECTION, END_CRIT_SECTION. pure_steps. st_simpl.
  nf_step ltac:(fun s => constr:(fsync_fname_nf (SlotFile name fname) s Hnf2)) f3 Hnf3 Hd3.
  pure_steps. st_simpl.
  nf_step ltac:(fun s => constr:(sys_read_nf name fname s Hnf3)) f4 Hnf4 Hd4.
  rewrite Hd3, Hd2, Hd1, Hf. cbn [default from_option id].
  nf_step ltac:(fun s => constr:(sys_close_nf name fname s Hnf4)) f5 Hnf5 Hd5. pure_steps.
  exists f5. split; [done|]. split; [done|]. congruence.
Qed.


(** *** Restoring when nothing fails *)

Lemma ereport_below lvl code msg st :
  is_error lvl = false →
  ereport lvl code msg st
  = Done tt (set_reports (reports st ++ [mkReport lvl code msg]) st).
Proof. intros H. unfold ereport. by destruct lvl. Qed.

(** Step over a report below ERROR. *)
Ltac report_step :=
  pure_steps;
  match goal with
  | |- context [mbind _ (ereport ?lvl ?c ?m) ?s] =>
      rewrite (bind_Done _ _ _ _ _ (ereport_below lvl c m s eq_refl)); st_simpl
  end.

Lemma first_free_from_Some k l j :
  first_free_from k l = Some j →
  (k ≤ j)%nat ∧ ∃ s, l !! (j - k)%nat = Some s ∧ in_use s = false.
Proof.
  revert k. induction l as [|s l IH]; intros k; simpl; [done|].
  destruct (in_use s) eqn:E.
  - intros H. destruct (IH _ H) as (Hle & s' & Hs' & Hu). split; [lia|].
    exists s'. split; [|done]. by replace (j - k)%nat with (S (j - S k)) by lia.
  - intros [= <-]. split; [done|]. exists s. by rewrite Nat.sub_diag.
Qed.

(** The checksum depends on the dynamic region only. *)
Lemma compute_checksum_slotdata cp :
  compute_checksum cp
  = FIN_CRC32C (COMP_CRC32C INIT_CRC32C
      (take ReplicationSlotOnDiskDynamicSize (slotdata_image (slotdata cp)))).
Proof.
  unfold compute_checksum, ondisk_image, ReplicationSlotOnDiskConstantSize.
  by rewrite drop_header.
Qed.

Lemma saved_record_verifies d : check_record (saved_record d) = None.
Proof.
  unfold check_record, EQ_CRC32C, saved_record.
  cbn [magic version length_ checksum slotdata].
  rewrite !compute_checksum_slotdata. cbn [slotdata].
  by rewrite !Z.eqb_refl.
Qed.

(** The restorer on a directory without state.tmp whose state file passes
    the checks and holds a persistent slot. *)
Lemma restore_primary name st cp :
  no_faults (fs st) →
  file_of (fs_dirs (fs st)) name "state.tmp" = None →
  file_of (fs_dirs (fs st)) name "state" = Some (Complete cp) →
  check_record cp = None →
  persistency (slotdata cp) = RS_PERSISTENT →
  ∃ f', no_faults f' ∧ fs_dirs f' = fs_dirs (fs st)
        ∧ let st1 := set_reports
                       (reports st ++ [mkReport DEBUG1 ERRCODE_DEFAULT
                                         "restoring replication slot"])
                       (set_fs f' st) in
          RestoreSlotFromDisk name st
          = match first_free_from 0 (replication_slots st) with
            | Some j =>
                Done tt (set_slots
                           (alter (restored_slot (slotdata cp)) j (replication_slots st))
                           st1)
            | None =>
                Raised (mkReport PANIC ERRCODE_DEFAULT
                          "too many replication slots active before shutdown") st1
            end.
Proof.
  intros Hnf Htmp Hstate Hchk Hpers. unfold RestoreSlotFromDisk.
  destruct st as [slots my held crit f0 x cx mn mx smode ild rip reps].
  st_simpl in Hnf. st_simpl in Htmp. st_simpl in Hstate. st_simpl.
  nf_step ltac:(fun s => constr:(sys_unlink_absent name "state.tmp" s Hnf Htmp)) f1 Hnf1 Hd1.
  cbn [bool_decide decide_rel]. rewrite !bool_decide_false by done. pure_steps.
  report_step.
  rewrite <- Hd1 in Hstate.
  nf_step ltac:(fun s => constr:(read_state_file_nf name "state" s cp Hnf1 Hstate)) f2 Hnf2 Hd2.
  rewrite Hchk. pure_steps. rewrite Hpers, bool_decide_true by done. cbn [negb].
  pure_steps. st_simpl.
  exists f2. split; [done|]. split; [congruence|]. cbv zeta. st_simpl.
  unfold modify_slot. by destruct (first_free_from 0 slots).
Qed.


Lemma file_of_lookup ds d m f :
  ds !! d = Some m → file_of ds d f = m !! f.
Proof. intros H. unfold file_of. by rewrite H. Qed.

(** The restorer on a directory without state.tmp whose state file fails
    a check and whose backup is a complete record. *)
Lemma restore_backup name st m cp1 cp2 mm :
  no_faults (fs st) →
  fs_dirs (fs st) !! name = Some m →
  m !! "state.tmp" = None →
  m !! "state" = Some (Complete cp1) → check_record cp1 = Some mm →
  m !! "state.backup" = Some (Complete cp2) →
  let debug := mkReport DEBUG1 ERRCODE_DEFAULT "restoring replication slot" in
  let warned := mkReport WARNING (mismatch_code mm)
                  (mismatch_msg mm +:+ ", try backup file") in
  let recovering := mkReport WARNING ERRCODE_DEFAULT
                      "recover the replication slot file" in
  match check_record cp2 with
  | Some mm2 =>
      ∃ f', fs_dirs f' = fs_dirs (fs st)
            ∧ RestoreSlotFromDisk name st
              = Raised (mkReport PANIC (mismatch_code mm2) (mismatch_msg mm2))
                  (set_reports (reports st ++ [debug; warned]) (set_fs f' st))
  | None =>
      if decide (persistency (slotdata cp2) = RS_PERSISTENT) then
        ∃ f', fs_dirs f' = <[name := <["state" := Complete cp2]> m]> (fs_dirs (fs st))
              ∧ let st1 := set_reports (reports st ++ [debug; warned; recovering])
                             (set_fs f' st) in
                RestoreSlotFromDisk name st
                = match first_free_from 0 (replication_slots st) with
                  | Some j =>
                      Done tt (set_slots
                                 (alter (restored_slot (slotdata cp2)) j
                                    (replication_slots st))
                                 st1)
                  | None =>
                      Raised (mkReport PANIC ERRCODE_DEFAULT
                                "too many replication slots active before shutdown") st1
                  end
      else
        ∃ f', fs_dirs f' = delete name (fs_dirs (fs st))
              ∧ RestoreSlotFromDisk name st
                = Done tt (set_reports (reports st ++ [debug; warned]) (set_fs f' st))
  end.
Proof.
  intros Hnf Hm Htmp Hstate Hchk1 Hbak debug warned recovering.
  unfold RestoreSlotFromDisk.
  destruct st as [slots my held crit f0 x cx mn mx smode ild rip reps].
  st_simpl in Hnf. st_simpl in Hm. st_simpl.
  assert (Htmp' : file_of (fs_dirs f0) name "state.tmp" = None)
    by (by rewrite (file_of_lookup _ _ _ _ Hm)).
  assert (Hstate' : file_of (fs_dirs f0) name "state" = Some (Complete cp1))
    by (by rewrite (file_of_lookup _ _ _ _ Hm)).
  assert (Hbak' : file_of (fs_dirs f0) name "state.backup" = Some (Complete cp2))
    by (by rewrite (file_of_lookup _ _ _ _ Hm)).
  nf_step ltac:(fun s => constr:(sys_unlink_absent name "state.tmp" s Hnf Htmp')) f1 Hnf1 Hd1.
  cbn [bool_decide decide_rel]. rewrite !bool_decide_false by done. pure_steps.
  report_step.
  rewrite <- Hd1 in Hstate', Hbak', Hm.
  nf_step ltac:(fun s => constr:(read_state_file_nf name "state" s cp1 Hnf1 Hstate'))
    f2 Hnf2 Hd2.
  rewrite Hchk1. pure_steps. report_step. pure_steps.
  rewrite <- Hd2 in Hbak', Hm.
  nf_step ltac:(fun s => constr:(read_state_file_nf name "state.backup" s cp2 Hnf2 Hbak'))
    f3 Hnf3 Hd3.
  rewrite <- app_assoc. cbn [app]. fold debug warned.
  destruct (check_record cp2) as [mm2|].
  { exists f3. split; [congruence|]. done. }
  pure_steps. destruct (decide (persistency (slotdata cp2) = RS_PERSISTENT)) as [Hpers|Hpers].
  2:{ rewrite bool_decide_false by done. cbn [negb].
      rewrite <- Hd3 in Hm.
      nf_step ltac:(fun s => constr:(rmtree_nf name s m Hnf3 Hm)) f4 Hnf4 Hd4.
      pure_steps.
      lazymatch goal with
      | |- context [fsync_fname PgReplslot ?s] =>
          destruct (fsync_fname_nf PgReplslot s Hnf4) as (f5 & E & Hnf5 & Hd5);
          rewrite E; clear E; st_simpl; st_simpl in Hd5
      end.
      exists f5. split; [congruence|done]. }
  rewrite Hpers, bool_decide_true by done. cbn [negb].
  unfold RecoverReplSlotFile. report_step.
  rewrite <- Hd3 in Hm.
  assert (Hst : m !! "state" = Some (Complete cp1)) by done.
  nf_step ltac:(fun s => constr:(open_trunc_nf name "state" s m _ Hnf3 Hm Hst)) f4 Hnf4 Hd4.
  pure_steps.
  assert (Hm4 : fs_dirs f4 !! name = Some (<["state" := Short 0]> m))
    by (by rewrite Hd4, lookup_insert_eq).
  nf_step ltac:(fun s => constr:(sys_write_nf name "state" cp2 s _ Hnf4 Hm4)) f5 Hnf5 Hd5.
  pure_steps.
  nf_step ltac:(fun s => constr:(pg_fsync_nf name "state" s Hnf5)) f6 Hnf6 Hd6. pure_steps.
  nf_step ltac:(fun s => constr:(sys_close_nf name "state" s Hnf6)) f7 Hnf7 Hd7. pure_steps.
  st_simpl. rewrite <- !app_assoc. cbn [app]. fold debug warned recovering.
  exists f7. split.
  { rewrite Hd7, Hd6, Hd5, Hd4, !insert_insert_eq. congruence. }
  cbv zeta. st_simpl. unfold modify_slot. by destruct (first_free_from 0 slots).
Qed.


(** The restorer on a directory that holds a state.tmp, when the record
    of the state file fails a check: state.tmp and state.backup are
    removed and the failed check is a PANIC at once. *)
Lemma restore_tmp_present name st m img cp1 mm :
  no_faults (fs st) →
  fs_dirs (fs st) !! name = Some m →
  m !! "state.tmp" = Some img →
  m !! "state" = Some (Complete cp1) → check_record cp1 = Some mm →
  ∃ f', fs_dirs f'
        = <[name := delete "state.backup" (delete "state.tmp" m)]> (fs_dirs (fs st))
        ∧ RestoreSlotFromDisk name st
          = Raised (mkReport PANIC (mismatch_code mm) (mismatch_msg mm))
              (set_reports
                 (reports st ++ [mkReport DEBUG1 ERRCODE_DEFAULT
                                   "restoring replication slot"])
                 (set_fs f' st)).
Proof.
  intros Hnf Hm Htmp Hstate Hchk1. unfold RestoreSlotFromDisk.
  destruct st as [slots my held crit f0 x cx mn mx smode ild rip reps].
  st_simpl in Hnf. st_simpl in Hm. st_simpl.
  nf_step ltac:(fun s => constr:(sys_unlink_present name "state.tmp" s m img Hnf Hm Htmp))
    f1 Hnf1 Hd1.
  rewrite (bool_decide_false (Unlinked = UnlinkFailed)) by done.
  rewrite (bool_decide_true (Unlinked = Unlinked)) by done. pure_steps.
  assert (Hm1 : fs_dirs f1 !! name = Some (delete "state.tmp" m))
    by (by rewrite Hd1, lookup_insert_eq).
  assert (∃ f2, no_faults f2
                ∧ fs_dirs f2 = <[name := delete "state.backup" (delete "state.tmp" m)]>
                                 (fs_dirs f0)
                ∧ ∃ r, r ≠ UnlinkFailed
                       ∧ sys_unlink name "state.backup"
                           (mkState slots my held crit f1 x cx mn mx smode ild rip reps)
                         = Done r (mkState slots my held crit f2 x cx mn mx smode ild rip reps))
    as (f2 & Hnf2 & Hd2 & r & Hr & E).
  { destruct (delete "state.tmp" m !! "state.backup") as [img2|] eqn:Hb.
    - destruct (sys_unlink_present name "state.backup"
                  (mkState slots my held crit f1 x cx mn mx smode ild rip reps)
                  _ img2 Hnf1 Hm1 Hb) as (f2 & E & Hnf2 & Hd2).
      st_simpl in Hd2. st_simpl in E. exists f2. split; [done|]. split.
      { by rewrite Hd2, Hd1, insert_insert_eq. }
      by exists Unlinked.
    - destruct (sys_unlink_absent name "state.backup"
                  (mkState slots my held crit f1 x cx mn mx smode ild rip reps) Hnf1)
        as (f2 & E & Hnf2 & Hd2).
      { st_simpl. by rewrite (file_of_lookup _ _ _ _ Hm1). }
      st_simpl in Hd2. st_simpl in E. exists f2. split; [done|]. split.
      { rewrite Hd2, Hd1. by rewrite (delete_id _ _ Hb). }
      by exists UnlinkENOENT. }
  bind_step E. clear E. rewrite bool_decide_false by done. pure_steps.
  report_step.
  assert (Hstate' : file_of (fs_dirs f2) name "state" = Some (Complete cp1)).
  { unfold file_of. rewrite Hd2, lookup_insert_eq. cbn.
    by rewrite !lookup_delete_ne. }
  nf_step ltac:(fun s => constr:(read_state_file_nf name "state" s cp1 Hnf2 Hstate'))
    f3 Hnf3 Hd3.
  rewrite Hchk1. exists f3. split; [congruence|done].
Qed.

(** C2 (amended). During the restoration of one slot in whose directory no
    state.tmp is found, if the primary state file fails the CRC, magic or
    length check, the restorer warns and reads again from state.backup.  If
    the backup record fails a check, the restorer panics.  If it passes
    and is persistent, the restorer rewrites the primary state file from
    it and loads the slot into the first free entry (it panics when there
    is none); if it passes and is not persistent, the directory is removed
    and nothing is loaded.  When a state.tmp is found, the restorer removes
    it and state.backup, and the failed check of the primary file is a
    panic at once: the only report before it is the DEBUG1 line, no
    warning, the state file is left as it was and no slot is loaded.
    (System calls are taken not to fail, and the files read to hold a
    complete record.) *)
Theorem C2_restore_falls_back_to_backup (name : string) (st : State)
    (m : gmap string FileImage) (cp1 cp2 : ReplicationSlotOnDisk) (mm : Mismatch) :
  no_faults (fs st) →
  fs_dirs (fs st) !! name = Some m →
  m !! "state" = Some (Complete cp1) → check_record cp1 = Some mm →
  (m !! "state.tmp" = None → m !! "state.backup" = Some (Complete cp2)) →
  let o := RestoreSlotFromDisk name st in
  let st' := final_state o in
  match m !! "state.tmp" with
  | Some _ =>
      o = Raised (mkReport PANIC (mismatch_code mm) (mismatch_msg mm)) st'
      ∧ reports st'
        = reports st ++ [mkReport DEBUG1 ERRCODE_DEFAULT "restoring replication slot"]
      ∧ fs_file (fs st') name "state.tmp" = None
      ∧ fs_file (fs st') name "state.backup" = None
      ∧ fs_file (fs st') name "state" = Some (Complete cp1)
      ∧ replication_slots st' = replication_slots st
  | None =>
      In (mkReport WARNING (mismatch_code mm) (mismatch_msg mm +:+ ", try backup file"))
         (reports st')
      ∧ match check_record cp2 with
        | Some mm2 =>
            o = Raised (mkReport PANIC (mismatch_code mm2) (mismatch_msg mm2)) st'
        | None =>
            if decide (persistency (slotdata cp2) = RS_PERSISTENT) then
              fs_file (fs st') name "state" = Some (Complete cp2)
              ∧ fs_file (fs st') name "state.backup" = Some (Complete cp2)
              ∧ match first_free_from 0 (replication_slots st) with
                | Some j =>
                    o = Done tt st'
                    ∧ replication_slots st'
                      = alter (restored_slot (slotdata cp2)) j (replication_slots st)
                | None => ∃ r, o = Raised r st' ∧ elevel r = PANIC
                end
            else
              o = Done tt st'
              ∧ fs_dirs (fs st') !! name = None
              ∧ replication_slots st' = replication_slots st
        end
  end.
Proof.
  intros Hnf Hm Hstate Hchk Hbak o st'. subst st' o.
  destruct (m !! "state.tmp") as [img|] eqn:Htmp.
  { destruct (restore_tmp_present name st m img cp1 mm Hnf Hm Htmp Hstate Hchk)
      as (f' & Hd & ->).
    destruct st; st_simpl. split; [done|]. split; [done|].
    unfold fs_file. rewrite Hd, lookup_insert_eq. cbn.
    split; [by rewrite lookup_delete_ne, lookup_delete_eq|].
    split; [by rewrite lookup_delete_eq|].
    split; [by rewrite !lookup_delete_ne|done]. }
  specialize (Hbak eq_refl).
  pose proof (restore_backup name st m cp1 cp2 mm Hnf Hm Htmp Hstate Hchk Hbak) as H.
  cbv zeta in H. destruct (check_record cp2) as [mm2|].
  - destruct H as (f' & Hd & ->). destruct st; st_simpl.
    split; [|done]. rewrite in_app_iff. right. simpl. auto.
  - destruct (decide (persistency (slotdata cp2) = RS_PERSISTENT)) as [Hp|Hp].
    + destruct H as (f' & Hd & ->).
      assert (Hbk : fs_file f' name "state.backup" = Some (Complete cp2)).
      { unfold fs_file. rewrite Hd, lookup_insert_eq. cbn. by rewrite lookup_insert_ne. }
      assert (Hst : fs_file f' name "state" = Some (Complete cp2)).
      { unfold fs_file. rewrite Hd, lookup_insert_eq. cbn. by rewrite lookup_insert_eq. }
      destruct st; st_simpl.
      destruct (first_free_from 0 replication_slots0); st_simpl;
        (split; [rewrite in_app_iff; right; simpl; auto|]);
        (split; [done|]); (split; [done|]).
      * done.
      * by eexists.
    + destruct H as (f' & Hd & ->). destruct st; st_simpl. st_simpl in Hd.
      split; [rewrite in_app_iff; right; simpl; auto|].
      split; [done|]. split; [|done]. by rewrite Hd, lookup_delete_eq.
Qed.

(** C1. A persistent slot written by a save that went through is
    restored, from the files the save left, into the first free entry of
    the array with its persistent fields as saved, effective_xmin and
    effective_catalog_xmin equal to the saved xmin and catalog_xmin, all
    candidate fields cleared, in_use set and active clear.  (System calls
    of the restore are taken not to fail.) *)
Theorem C1_save_restore_round_trip (i : nat) (dir : string) (lvl : ErrLevel)
    (st st1 st2 : State) (j : nat) :
  (i < List.length (replication_slots st))%nat →
  dirty (replication_slots st !!! i) = true →
  persistency (data (replication_slots st !!! i)) = RS_PERSISTENT →
  SaveSlotToPath i dir lvl st = Done tt st1 → reports st1 = reports st →
  fs_dirs (fs st2) = fs_dirs (fs st1) → no_faults (fs st2) →
  first_free_from 0 (replication_slots st2) = Some j →
  ∃ st3,
    RestoreSlotFromDisk dir st2 = Done tt st3
    ∧ let saved := data (replication_slots st !!! i) in
      let s := replication_slots st3 !!! j in
      data s = saved
      ∧ effective_xmin s = xmin saved
      ∧ effective_catalog_xmin s = catalog_xmin saved
      ∧ candidate_catalog_xmin s = InvalidTransactionId
      ∧ candidate_xmin_lsn s = InvalidXLogRecPtr
      ∧ candidate_restart_valid s = InvalidXLogRecPtr
      ∧ candidate_restart_lsn s = InvalidXLogRecPtr
      ∧ in_use s = true ∧ active s = false.
Proof.
  intros Hi Hd Hp Hsave Hrep Hfs Hnf Hfree.
  change (SaveSlotToPath i dir lvl st)
    with (SaveSlotToPath_with (λ k, run_ops ((λ _, []) k)) i dir lvl st) in Hsave.
  destruct (save_walk (λ _, []) i dir lvl st Hd) as [_ Hres].
  destruct (Hres st1 Hsave Hrep) as (_ & _ & m & Hm & Hdirs). clear Hres.
  cbn [apply_ops fold_left] in Hdirs.
  rewrite list_lookup_total_alter_eq in Hdirs by done.
  change (data (set_just_dirtied false (replication_slots st !!! i)))
    with (data (replication_slots st !!! i)) in Hdirs.
  set (saved := data (replication_slots st !!! i)) in *.
  rewrite <- Hfs in Hdirs.
  assert (Htmp : file_of (fs_dirs (fs st2)) dir "state.tmp" = None).
  { unfold file_of. rewrite Hdirs, lookup_insert_eq. cbn.
    by rewrite lookup_insert_ne, lookup_delete_eq. }
  assert (Hstate : file_of (fs_dirs (fs st2)) dir "state"
                   = Some (Complete (saved_record saved))).
  { unfold file_of. rewrite Hdirs, lookup_insert_eq. cbn. by rewrite lookup_insert_eq. }
  destruct (restore_primary dir st2 (saved_record saved) Hnf Htmp Hstate
              (saved_record_verifies saved) Hp) as (f' & _ & _ & Hrun).
  cbv zeta in Hrun. rewrite Hfree in Hrun. eexists. split; [exact Hrun|].
  destruct (first_free_from_Some _ _ _ Hfree) as (_ & s0 & Hs0 & _).
  rewrite Nat.sub_0_r in Hs0. apply lookup_lt_Some in Hs0.
  destruct st2; st_simpl. st_simpl in Hs0.
  rewrite list_lookup_total_alter_eq by done. by cbn.
Qed.


(** *** Dropping an ephemeral slot on release *)

Lemma rename_dir_cases d1 d2 st :
  ∃ b f', rename_dir d1 d2 st = Done b (set_fs f' st)
          ∧ fs_fault f' = fs_fault (fs st).
Proof.
  unfold rename_dir, fault, get_dirs, put_dirs, get, modify, mbind, M_bind, mret, M_ret.
  destruct st as [slots my held crit [ds clk flt] x cx mn mx smode ild rip reps]; cbn.
  destruct (ds !! d1) as [m|]; cbn.
  - destruct (flt clk SYS_rename (SlotDir d1) || _); cbn;
      eexists _, (mkFS _ _ _); split; reflexivity.
  - eexists _, (mkFS _ _ _); split; reflexivity.
Qed.

Lemma rmtree_cases d st :
  ∃ b f', rmtree d st = Done b (set_fs f' st) ∧ fs_fault f' = fs_fault (fs st).
Proof.
  unfold rmtree, fault, get_dirs, put_dirs, get, modify, mbind, M_bind, mret, M_ret.
  destruct st as [slots my held crit [ds clk flt] x cx mn mx smode ild rip reps]; cbn.
  destruct (flt clk SYS_rmtree (SlotDir d) || _); cbn;
    eexists _, (mkFS _ _ _); split; reflexivity.
Qed.

Lemma fsync_fname_reliable p st :
  fsync_reliable (fs st) →
  ∃ f', fsync_fname p st = Done tt (set_fs f' st) ∧ fs_fault f' = fs_fault (fs st).
Proof.
  intros H. unfold fsync_fname, fault, mbind, M_bind, mret, M_ret. rewrite H.
  exists (tick (fs st)). by destruct st.
Qed.

Lemma find_slot_from_None k name l :
  (∀ j s, l !! j = Some s → in_use s = true → NameStr s ≠ name) →
  find_slot_from k name l = None.
Proof.
  revert k. induction l as [|s l IH]; intros k H; simpl; [done|].
  destruct (in_use s && bool_decide (name = NameStr s)) eqn:E.
  - apply andb_true_iff in E as [Hu Hn]. apply bool_decide_eq_true in Hn.
    by destruct (H 0%nat s eq_refl Hu).
  - apply IH. intros j s' Hj. by apply (H (S j)).
Qed.

Ltac fault_step lem b f' Hf' :=
  let E := fresh "E" in
  pure_steps;
  lazymatch goal with
  | |- context [mbind _ _ ?s] =>
      let pf := lem s in
      destruct pf as (b & f' & E & Hf'); bind_step E; clear E; st_simpl;
      st_simpl in Hf'
  end.

Ltac fsync_step Hrel f' Hf' :=
  let E := fresh "E" in
  pure_steps;
  lazymatch goal with
  | |- context [mbind _ (fsync_fname ?p) ?s] =>
      destruct (fsync_fname_reliable p s) as (f' & E & Hf');
      [st_simpl; try congruence|bind_step E; clear E; st_simpl; st_simpl in Hf']
  end.

Ltac lsn_step :=
  lazymatch goal with
  | |- context [mbind _ (ReplicationSlotsComputeRequiredLSN None) ?s] =>
      let H := fresh in
      assert (H : max_replication_slots s ≠ 0%nat)
        by (unfold max_replication_slots; st_simpl; rewrite ?length_alter; lia);
      rewrite (bind_Done _ _ _ _ _ (compute_required_lsn_run None s H)); clear H
  end.

Lemma alter_twice {A} (f g : A → A) i (l : list A) :
  alter f i (alter g i l) = alter (λ x, f (g x)) i l.
Proof.
  apply list_eq. intros j. destruct (decide (j = i)) as [->|Hne].
  - rewrite !list_lookup_alter_eq. by destruct (l !! i).
  - by rewrite !list_lookup_alter_ne.
Qed.

Lemma drop_acquired_ephemeral st i s :
  MyReplicationSlot st = Some i →
  replication_slots st !! i = Some s →
  persistency (data s) = RS_EPHEMERAL →
  fsync_reliable (fs st) →
  ∃ st', ReplicationSlotDropAcquired st = Done tt st'
         ∧ replication_slots st'
           = alter (λ s, set_in_use false (set_active false s)) i (replication_slots st)
         ∧ MyReplicationSlot st' = None
         ∧ held_lwlocks st' = held_lwlocks st
         ∧ CritSectionCount st' = CritSectionCount st
         ∧ in_logical_decoding st' = in_logical_decoding st.
Proof.
  intros Hmy Hs Hp Hrel. unfold ReplicationSlotDropAcquired, my_slot.
  assert (Hlen : (i < length (replication_slots st))%nat) by by eapply lookup_lt_Some.
  destruct st as [slots my held crit f0 x cx mn mx smode ild rip reps].
  st_simpl in Hmy. st_simpl in Hs. st_simpl in Hrel. st_simpl in Hlen. st_simpl. subst my.
  unfold LWLockAcquire, LWLockRelease, read_slot, modify_slot.
  pure_steps. st_simpl. pure_steps. st_simpl.
  rewrite (list_lookup_total_correct _ _ _ Hs).
  fault_step ltac:(fun s' => constr:(rename_dir_cases (NameStr s) (NameStr s +:+ ".tmp") s'))
    b1 f1 Hf1.
  destruct b1.
  - unfold START_CRIT_SECTION, END_CRIT_SECTION. pure_steps. st_simpl.
    fsync_step Hrel f2 Hf2. fsync_step Hrel f3 Hf3. pure_steps. st_simpl.
    rewrite remove_lock_head.
    rewrite (bind_Done _ _ _ _ _ (compute_required_xmin_run _ _)). st_simpl.
    lsn_step.
    st_simpl.
    fault_step ltac:(fun s' => constr:(rmtree_cases (NameStr s +:+ ".tmp") s')) b4 f4 Hf4.
    destruct b4; cbn [negb].
    + pure_steps. unfold modify. st_simpl. rewrite remove_lock_head.
      eexists. split; [reflexivity|]. st_simpl. by rewrite alter_twice.
    + report_step. pure_steps. unfold modify. st_simpl. rewrite remove_lock_head.
      eexists. split; [reflexivity|]. st_simpl. by rewrite alter_twice.
  - pure_steps. st_simpl. rewrite Hp, bool_decide_true by done. report_step.
    pure_steps. st_simpl.
    rewrite remove_lock_head.
    rewrite (bind_Done _ _ _ _ _ (compute_required_xmin_run _ _)). st_simpl.
    lsn_step.
    st_simpl.
    fault_step ltac:(fun s' => constr:(rmtree_cases (NameStr s +:+ ".tmp") s')) b4 f4 Hf4.
    destruct b4; cbn [negb].
    + pure_steps. unfold modify. st_simpl. rewrite remove_lock_head.
      eexists. split; [reflexivity|]. st_simpl. by rewrite !alter_twice.
    + report_step. pure_steps. unfold modify. st_simpl. rewrite remove_lock_head.
      eexists. split; [reflexivity|]. st_simpl. by rewrite !alter_twice.
Qed.

(** C8. [release()] on a current slot of EPHEMERAL persistency drops it.
    For a session whose current slot is entry [i], in use, active and
    ephemeral, in a table where the names of the slots in use are distinct,
    and with directory syncs that succeed (a failed sync in the drop is a
    PANIC), release returns normally and afterwards entry [i] has
    in_use = false and active = false, the other entries are unchanged,
    the session holds no current slot, and [find] on the slot's name
    returns false. *)
Theorem C8_release_drops_ephemeral (st : State) (i : nat) (s : ReplicationSlot) :
  MyReplicationSlot st = Some i →
  replication_slots st !! i = Some s →
  in_use s = true → active s = true →
  persistency (data s) = RS_EPHEMERAL →
  ¬ name_is_invalid (Some (NameStr s)) →
  names_unique (replication_slots st) →
  fsync_reliable (fs st) →
  ∃ st', ReplicationSlotRelease st = Done tt st'
         ∧ (∀ j, j ≠ i → replication_slots st' !! j = replication_slots st !! j)
         ∧ in_use (replication_slots st' !!! i) = false
         ∧ active (replication_slots st' !!! i) = false
         ∧ MyReplicationSlot st' = None
         ∧ ReplicationSlotFind (Some (NameStr s)) st' = Done false st'.
Proof.
  intros Hmy Hs Hu Ha Hp Hv Huniq Hrel.
  destruct (drop_acquired_ephemeral st i s Hmy Hs Hp Hrel)
    as (st1 & E1 & Hsl1 & Hmy1 & Hh1 & _ & _).
  assert (Hlen : (i < length (replication_slots st))%nat) by by eapply lookup_lt_Some.
  set (s1 := set_in_use false (set_active false s)).
  assert (Hs1 : replication_slots st1 !!! i = s1).
  { rewrite Hsl1. apply list_lookup_total_correct.
    by rewrite list_lookup_alter_eq, Hs. }
  assert (∃ st', ReplicationSlotRelease st = Done tt st'
                 ∧ MyReplicationSlot st' = None
                 ∧ ∃ g, replication_slots st' = alter g i (replication_slots st)
                        ∧ in_use (g s) = false ∧ active (g s) = false)
    as (st' & E & Hmy' & g & Hsl' & Hu' & Ha').
  { unfold ReplicationSlotRelease, read_slot, modify_slot, LWLockAcquire, LWLockRelease.
    pure_steps. rewrite Hmy. pure_steps.
    rewrite (list_lookup_total_correct _ _ _ Hs), Ha, Hp, bool_decide_true by done.
    cbn [negb]. bind_step E1. pure_steps. rewrite Hs1.
    destruct (negb (TransactionIdIsValid (xmin (data s1)))
              && TransactionIdIsValid (effective_xmin s1)).
    - pure_steps.
      rewrite (bind_Done _ _ _ _ _ (compute_required_xmin_run _ _)).
      pure_steps. unfold modify. eexists. split; [reflexivity|].
      destruct st1; st_simpl in Hsl1; st_simpl. split; [done|].
      eexists. split; [by rewrite Hsl1, alter_twice|]. done.
    - pure_steps. unfold modify. eexists. split; [reflexivity|].
      destruct st1; st_simpl in Hsl1; st_simpl. split; [done|].
      eexists. split; [by rewrite Hsl1|]. done. }
  assert (Hi' : replication_slots st' !! i = Some (g s))
    by by rewrite Hsl', list_lookup_alter_eq, Hs.
  exists st'. split; [exact E|]. split.
  { intros j Hj. by rewrite Hsl', list_lookup_alter_ne. }
  rewrite (list_lookup_total_correct _ _ _ Hi'). do 3 (split; [done|]).
  rewrite find_valid by by apply validate_valid.
  unfold find_slot; cbn [c_str default]. rewrite find_slot_from_None; [done|].
  intros j sj Hj Huj Hn. destruct (decide (j = i)) as [->|Hne].
  - rewrite Hi' in Hj. injection Hj as <-. congruence.
  - rewrite Hsl', list_lookup_alter_ne in Hj by done.
    by destruct (Hne (Huniq j i sj s Hj Hs Huj Hu Hn)).
Qed.

(** *** The string helpers *)

Lemma append_nil_l s : EmptyString +:+ s = s.
Proof. done. Qed.

Lemma append_cons c s1 s2 : String c s1 +:+ s2 = String c (s1 +:+ s2).
Proof. done. Qed.

Lemma length_append s1 s2 :
  String.length (s1 +:+ s2) = (String.length s1 + String.length s2)%nat.
Proof.
  induction s1 as [|c s1 IH]; [done|]. rewrite append_cons. simpl. by rewrite IH.
Qed.

Lemma append_assoc s1 s2 s3 : (s1 +:+ s2) +:+ s3 = s1 +:+ (s2 +:+ s3).
Proof. induction s1 as [|c s1 IH]; [done|]. by rewrite !append_cons, IH. Qed.

Lemma append_empty_r s : s +:+ EmptyString = s.
Proof. induction s as [|c s IH]; [done|]. by rewrite append_cons, IH. Qed.

Lemma string_drop_append p e : string_drop (String.length p) (p +:+ e) = e.
Proof.
  induction p as [|c p IH]; [by destruct e|]. by rewrite append_cons.
Qed.

Lemma string_drop_split n s :
  (n ≤ String.length s)%nat →
  ∃ p, s = p +:+ string_drop n s ∧ String.length p = n.
Proof.
  revert s. induction n as [|n IH]; intros s Hn.
  - exists EmptyString. by destruct s.
  - destruct s as [|c s]; simpl in *; [lia|].
    destruct (IH s) as (p & Hp & Hl); [lia|].
    exists (String c p). rewrite append_cons. simpl.
    split; [by rewrite <- Hp|by rewrite Hl].
Qed.

(** [string_endswith(str, end)] is true exactly when [str] is some string
    followed by [end]; in particular every string ends with the empty
    string and with itself. *)
Theorem string_endswith_suffix (str end_ : string) :
  string_endswith str end_ = true ↔ ∃ p, str = p +:+ end_.
Proof.
  unfold string_endswith. split.
  - destruct (String.length str <? String.length end_)%nat eqn:Hlt; [done|].
    apply Nat.ltb_ge in Hlt. intros He. apply String.eqb_eq in He.
    destruct (string_drop_split (String.length str - String.length end_) str)
      as (p & Hp & _); [lia|].
    exists p. by rewrite He in Hp.
  - intros [p ->]. rewrite length_append.
    replace (String.length p + String.length end_ <? String.length end_)%nat
      with false by (symmetry; apply Nat.ltb_ge; lia).
    replace (String.length p + String.length end_ - String.length end_)%nat
      with (String.length p) by lia.
    rewrite string_drop_append. apply String.eqb_refl.
Qed.

Lemma all_blank_nil sep : all_blank sep EmptyString.
Proof. by intros c []. Qed.

Lemma all_blank_cons sep c s :
  all_blank sep (String c s) ↔ trim_blank sep c = true ∧ all_blank sep s.
Proof.
  unfold all_blank. simpl. split.
  - intros H. split; [apply H; by left|]. intros c' Hc'. apply H. by right.
  - intros [Hc Hs] c' [<-|Hc']; [done|by apply Hs].
Qed.

Lemma all_blank_app sep s1 s2 :
  all_blank sep (s1 +:+ s2) ↔ all_blank sep s1 ∧ all_blank sep s2.
Proof.
  induction s1 as [|c s1 IH].
  - rewrite append_nil_l. split; [intros H; split; [apply all_blank_nil|done]|by intros [_ H]].
  - rewrite append_cons, !all_blank_cons, IH. split; [by intros (? & ? & ?)|by intros [[? ?] ?]].
Qed.

Lemma substring_append p q : String.substring 0 (String.length p) (p +:+ q) = p.
Proof.
  induction p as [|c p IH]; [by destruct q|]. rewrite append_cons. simpl. by rewrite IH.
Qed.

(** Every string is blank throughout or splits, in one way, into leading
    blanks, a text with no blank at either end, and trailing blanks. *)
Lemma trim_decompose sep s :
  all_blank sep s
  ∨ ∃ pre t suf, s = pre +:+ t +:+ suf
                 ∧ all_blank sep pre ∧ all_blank sep suf ∧ trimmed sep t.
Proof.
  induction s as [|a s IH]; [left; apply all_blank_nil|].
  destruct (trim_blank sep a) eqn:Ha.
  - destruct IH as [Hall|(pre & t & suf & -> & Hpre & Hsuf & Ht)].
    + left. by apply all_blank_cons.
    + right. exists (String a pre), t, suf. rewrite append_cons.
      split; [done|]. split; [by apply all_blank_cons|done].
  - right. destruct IH as [Hall|(pre & t & suf & -> & Hpre & Hsuf & Ht)].
    + exists EmptyString, (String a EmptyString), s.
      split; [done|]. split; [apply all_blank_nil|]. split; [done|].
      split; [by exists a, EmptyString|by exists EmptyString, a].
    + destruct Ht as [_ (t' & c & -> & Hc)].
      exists EmptyString, (String a (pre +:+ t' +:+ String c EmptyString)), suf.
      rewrite append_nil_l, !append_cons, !append_assoc.
      split; [done|]. split; [apply all_blank_nil|]. split; [done|].
      split; [by eexists _, _|].
      exists (String a (pre +:+ t')), c. by rewrite append_cons, append_assoc.
Qed.

Lemma trim_begin_skip sep pre b :
  all_blank sep pre → trim_begin sep (pre +:+ b) = trim_begin sep b.
Proof.
  induction pre as [|c pre IH]; [done|]. rewrite append_cons, all_blank_cons.
  intros [Hc Hpre]. simpl. rewrite Hc. by apply IH.
Qed.

Lemma trim_begin_blank sep s :
  sep ≠ zero → all_blank sep s → trim_begin sep s = Some EmptyString.
Proof.
  intros Hsep Hs. rewrite <- (append_empty_r s), trim_begin_skip by done.
  cbn [trim_begin]. destruct (Ascii.eqb_spec zero sep); congruence.
Qed.

Lemma trim_end_blank sep s cur e : all_blank sep s → trim_end sep s cur e = e.
Proof.
  revert cur e. induction s as [|c s IH]; intros cur e; [done|].
  rewrite all_blank_cons. intros [Hc Hs]. simpl. rewrite Hc. by apply IH.
Qed.

Lemma trim_end_last sep t c suf cur e :
  trim_blank sep c = false → all_blank sep suf →
  trim_end sep (t +:+ String c suf) cur e = (cur + String.length t)%nat.
Proof.
  intros Hc Hsuf. revert cur e. induction t as [|a t IH]; intros cur e.
  - rewrite append_nil_l. simpl. rewrite Hc, trim_end_blank by done. simpl. lia.
  - rewrite append_cons. simpl. rewrite IH. lia.
Qed.

(** The result of [trim_str] on leading blanks, a text [t] with no blank at
    either end, and trailing blanks, for every positive [str_len]. *)
Lemma trim_str_run sep pre t suf str_len :
  0 < str_len → all_blank sep pre → all_blank sep suf → trimmed sep t →
  trim_str (Some (pre +:+ t +:+ suf)) str_len sep
  = if str_len <? Z.of_nat (String.length t) then TrimRange
    else if str_len =? Z.of_nat (String.length t) then TrimOverrun
    else Trimmed t.
Proof.
  intros Hn Hpre Hsuf [(c & t0 & Ht0 & Hc) (t' & c' & Ht' & Hc')].
  unfold trim_str. replace (str_len <=? 0) with false by lia.
  rewrite trim_begin_skip by done.
  assert (Hb : trim_begin sep (t +:+ suf) = Some (t +:+ suf)).
  { rewrite Ht0, append_cons. simpl. by rewrite Hc. }
  rewrite Hb.
  assert (He : trim_end sep (t +:+ suf) 0 0 = String.length t').
  { rewrite Ht', append_assoc, append_cons, append_nil_l.
    by rewrite (trim_end_last sep t' c' suf 0 0 Hc' Hsuf). }
  assert (Hl : Z.of_nat (String.length t') + 1 = Z.of_nat (String.length t)).
  { rewrite Ht', length_append. simpl. lia. }
  destruct (t +:+ suf) as [|x y] eqn:Hts.
  { rewrite Ht0, append_cons in Hts. discriminate. }
  rewrite He, Hl, Nat2Z.id, <- Hts, substring_append. done.
Qed.

(** [trim_str] on a string that fits its buffer ([strlen(str) < str_len],
    as for the NUL-terminated array of the caller) with a separator that
    is not the terminator: the result is NULL exactly when the string has
    nothing but blanks (white space and separators); otherwise it is the
    text between the first and the last character that is not a blank,
    interior blanks included. *)
Theorem trim_str_spec (s : string) (str_len : Z) (sep : ascii) :
  sep ≠ zero → Z.of_nat (String.length s) < str_len →
  (all_blank sep s ∧ trim_str (Some s) str_len sep = TrimNULL)
  ∨ (∃ pre t suf,
       s = pre +:+ t +:+ suf
       ∧ all_blank sep pre ∧ all_blank sep suf ∧ trimmed sep t
       ∧ trim_str (Some s) str_len sep = Trimmed t).
Proof.
  intros Hsep Hlen.
  destruct (trim_decompose sep s) as [Hall|(pre & t & suf & -> & Hpre & Hsuf & Ht)].
  - left. split; [done|]. unfold trim_str.
    replace (str_len <=? 0) with false by lia.
    by rewrite trim_begin_blank.
  - right. exists pre, t, suf. do 4 (split; [done|]).
    rewrite trim_str_run by (done || lia).
    rewrite !length_append in Hlen.
    replace (str_len <? Z.of_nat (String.length t)) with false by lia.
    by replace (str_len =? Z.of_nat (String.length t)) with false by lia.
Qed.

(** [trim_str] returns a copy only when [str_len] exceeds the length of
    the trimmed text [t].  With [str_len] below it [memmove_s] refuses the
    copy; with [str_len] equal to it the terminator is stored at offset
    [str_len] of a buffer of [str_len] bytes. *)
Theorem trim_str_room (pre t suf : string) (str_len : Z) (sep : ascii) :
  all_blank sep pre → all_blank sep suf → trimmed sep t →
  0 < str_len ≤ Z.of_nat (String.length t) →
  trim_str (Some (pre +:+ t +:+ suf)) str_len sep
  = if str_len =? Z.of_nat (String.length t) then TrimOverrun else TrimRange.
Proof.
  intros Hpre Hsuf Ht Hn. rewrite trim_str_run by (done || lia).
  destruct (str_len =? Z.of_nat (String.length t)) eqn:E.
  - by replace (str_len <? Z.of_nat (String.length t)) with false by lia.
  - by replace (str_len <? Z.of_nat (String.length t)) with true by lia.
Qed.

(** Trimming is idempotent: what [trim_str] returns is returned unchanged
    by a second call with the same [str_len] and separator. *)
Theorem trim_str_idempotent (s t : string) (str_len : Z) (sep : ascii) :
  trim_str (Some s) str_len sep = Trimmed t →
  trim_str (Some t) str_len sep = Trimmed t.
Proof.
  intros H.
  assert (Hn : 0 < str_len).
  { unfold trim_str in H. destruct (str_len <=? 0) eqn:E; [done|lia]. }
  destruct (trim_decompose sep s) as [Hall|(pre & t0 & suf & -> & Hpre & Hsuf & Ht)].
  - exfalso. unfold trim_str in H. replace (str_len <=? 0) with false in H by lia.
    rewrite <- (append_empty_r s), trim_begin_skip in H by done.
    cbn [trim_begin] in H. by destruct (Ascii.eqb zero sep).
  - rewrite trim_str_run in H by done.
    pose proof (trim_str_run sep EmptyString t0 EmptyString str_len Hn
                  (all_blank_nil sep) (all_blank_nil sep) Ht) as H0.
    rewrite append_nil_l, append_empty_r in H0.
    destruct (str_len <? Z.of_nat (String.length t0)); [done|].
    destruct (str_len =? Z.of_nat (String.length t0)); [done|].
    injection H as <-. exact H0.
Qed.

(** *** Counting the slots of a database *)

Lemma count_db_fold dboid l a :
  fold_left (count_db_step dboid) l a
  = (a.1 + Z.of_nat (List.length (db_slots dboid l)),
     a.2 + Z.of_nat (List.length (List.filter active (db_slots dboid l)))).
Proof.
  revert a. induction l as [|s l IH]; intros [n k].
  - simpl. f_equal; lia.
  - cbn [fold_left]. rewrite IH. unfold count_db_step, db_slots. cbn [List.filter].
    destruct (in_use s); cbn [negb andb]; [|done].
    destruct (database (data s) =? InvalidOid); cbn [negb andb]; [done|].
    destruct (database (data s) =? dboid); cbn [negb andb fst snd]; [|done].
    cbn [List.filter]. destruct (active s); cbn [List.length fst snd]; f_equal; lia.
Qed.

Lemma count_db_slots_run dboid st :
  ReplicationSlotsCountDBSlots dboid st
  = Done (0 <? Z.of_nat (List.length (db_slots dboid (replication_slots st))),
          Z.of_nat (List.length (db_slots dboid (replication_slots st))),
          Z.of_nat (List.length
                      (List.filter active (db_slots dboid (replication_slots st)))))
      st.
Proof.
  destruct st as [slots my held crit f0 x cx mn mx smode ild rip reps].
  unfold ReplicationSlotsCountDBSlots, LWLockAcquire, LWLockRelease,
    max_replication_slots.
  pure_steps. st_simpl. destruct slots as [|s l]; [done|].
  cbn [List.length Nat.leb]. pure_steps. st_simpl.
  rewrite remove_lock_head, count_db_fold. cbn [fst snd]. by rewrite !Z.add_0_l.
Qed.

(** [ReplicationSlotsCountDBSlots(dboid)] leaves the state as it was and
    returns nslots, the number of slots in use whose database is [dboid]
    and not InvalidOid, nactive, the number of those that are active, and
    the flag nslots > 0; so 0 <= nactive <= nslots <= max_replication_slots. *)
Theorem count_db_slots_spec (dboid : Oid) (st : State) :
  let nslots := Z.of_nat (List.length (db_slots dboid (replication_slots st))) in
  let nactive :=
    Z.of_nat (List.length (List.filter active (db_slots dboid (replication_slots st)))) in
  ReplicationSlotsCountDBSlots dboid st = Done (0 <? nslots, nslots, nactive) st
  ∧ 0 ≤ nactive ≤ nslots
  ∧ nslots ≤ Z.of_nat (max_replication_slots st).
Proof.
  intros nslots nactive. split; [apply count_db_slots_run|].
  subst nslots nactive. unfold max_replication_slots, db_slots.
  pose proof (List.filter_length_le active
                (db_slots dboid (replication_slots st))) as H1.
  pose proof (List.filter_length_le
                (λ s, in_use s && negb (database (data s) =? InvalidOid)
                      && (database (data s) =? dboid))
                (replication_slots st)) as H2.
  unfold db_slots in H1. lia.
Qed.

Lemma db_slots_invalid l : db_slots InvalidOid l = [].
Proof.
  unfold db_slots. induction l as [|s l IH]; [done|].
  cbn [List.filter]. rewrite IH.
  by destruct (in_use s), (database (data s) =? InvalidOid).
Qed.

(** For the database InvalidOid, the mark of a physical slot, nothing is
    counted whatever the table holds: the answer is false with both
    counters 0. *)
Theorem count_db_slots_invalid (st : State) :
  ReplicationSlotsCountDBSlots InvalidOid st = Done (false, 0, 0) st.
Proof.
  by rewrite count_db_slots_run, db_slots_invalid.
Qed.

(** *** The two checks of a slot name *)

Lemma strstr_single c n :
  is_Some (strstr n (String c EmptyString)) ↔ In c (list_ascii_of_string n).
Proof.
  induction n as [|a n IH]; simpl.
  - split; [by intros [? ?]|done].
  - destruct (ascii_dec c a) as [->|Hne].
    + destruct n; simpl; split; eauto.
    + rewrite IH. split; [by right|]. intros [?|?]; [congruence|done].
Qed.

Lemma danger_single d :
  In d danger_character_list → ∃ c, d = String c EmptyString.
Proof.
  unfold danger_character_list. simpl. intros H.
  repeat (destruct H as [<-|H]; [by eexists|]). done.
Qed.

Lemma find_danger n :
  List.find (λ d, bool_decide (is_Some (strstr n d))) danger_character_list = None
  ↔ ∀ c, In c (list_ascii_of_string n) →
         ¬ In (String c EmptyString) danger_character_list.
Proof.
  split.
  - intros H c Hc Hd. apply (List.find_none _ _ H) in Hd.
    apply bool_decide_eq_false in Hd. by apply Hd, strstr_single.
  - intros H.
    destruct (List.find _ danger_character_list) as [d|] eqn:E; [|done].
    apply List.find_some in E as [Hd Hs]. apply bool_decide_eq_true in Hs.
    destruct (danger_single d Hd) as [c ->]. apply strstr_single in Hs.
    by destruct (H c Hs).
Qed.

Lemma c_str_Some n : c_str (Some n) = n.
Proof. done. Qed.

Lemma validate_name_safe name st :
  shell_safe_name name → ValidateName name st = Done true st.
Proof.
  intros (n & -> & Hne & Hlen & Hd). unfold ValidateName.
  rewrite bool_decide_false by done. pure_steps. rewrite c_str_Some. cbv zeta.
  replace (String.length n =? 0)%nat with false
    by (symmetry; apply Nat.eqb_neq; by destruct n).
  replace (NAMEDATALEN - 1 <=? String.length n)%nat with false
    by (symmetry; apply Nat.leb_gt; lia).
  cbv beta iota. pure_steps. by rewrite (proj2 (find_danger n) Hd).
Qed.

Lemma validate_name_unsafe name st :
  ¬ shell_safe_name name →
  ∃ r, ValidateName name st = Raised r st
       ∧ elevel r = promote ERROR st
       ∧ (errcode r = ERRCODE_INVALID_NAME ∨ errcode r = ERRCODE_NAME_TOO_LONG).
Proof.
  intros Hns. unfold ValidateName. destruct name as [n|].
  - rewrite bool_decide_false by done. pure_steps. rewrite c_str_Some. cbv zeta.
    destruct (String.length n =? 0)%nat eqn:H0.
    { erewrite bind_Raised by apply ereport_ERROR. eexists. split; [done|]. auto. }
    destruct (NAMEDATALEN - 1 <=? String.length n)%nat eqn:H1.
    { erewrite bind_Raised by apply ereport_ERROR. eexists. split; [done|]. auto. }
    pure_steps.
    destruct (List.find _ danger_character_list) as [d|] eqn:E.
    { erewrite bind_Raised by apply ereport_ERROR. eexists. split; [done|]. auto. }
    destruct Hns. exists n. split; [done|].
    apply Nat.eqb_neq in H0. apply Nat.leb_gt in H1.
    split; [by destruct n|]. split; [done|]. by apply find_danger.
  - rewrite bool_decide_true by done.
    erewrite bind_Raised by apply ereport_ERROR. eexists. split; [done|]. auto.
Qed.

Lemma validate_name_done name st b st' :
  ValidateName name st = Done b st' → shell_safe_name name.
Proof.
  intros E. destruct name as [n|].
  - unfold ValidateName in E. rewrite bool_decide_false in E by done.
    revert E. pure_steps. rewrite c_str_Some. cbv zeta.
    destruct (String.length n =? 0)%nat eqn:H0.
    { by erewrite bind_Raised by apply ereport_ERROR. }
    destruct (NAMEDATALEN - 1 <=? String.length n)%nat eqn:H1.
    { by erewrite bind_Raised by apply ereport_ERROR. }
    pure_steps.
    destruct (List.find _ danger_character_list) as [d|] eqn:Ef.
    { by erewrite bind_Raised by apply ereport_ERROR. }
    intros _. exists n. split; [done|].
    apply Nat.eqb_neq in H0. apply Nat.leb_gt in H1.
    split; [by destruct n|]. split; [done|]. by apply find_danger.
  - unfold ValidateName in E. rewrite bool_decide_true in E by done.
    by erewrite bind_Raised in E by apply ereport_ERROR.
Qed.

(** [ValidateName] never returns false.  It returns true, leaving the
    state alone, for a name that is not NULL, not empty, shorter than
    NAMEDATALEN - 1 and free of the characters of its list; for any other
    name it leaves through a report at ERROR with INVALID_NAME or
    NAME_TOO_LONG. *)
Theorem validate_name_spec (name : option string) (st : State) :
  (shell_safe_name name ∧ ValidateName name st = Done true st)
  ∨ (¬ shell_safe_name name
     ∧ ∃ r, ValidateName name st = Raised r st
            ∧ is_error (elevel r) = true
            ∧ (errcode r = ERRCODE_INVALID_NAME ∨ errcode r = ERRCODE_NAME_TOO_LONG)).
Proof.
  destruct (ValidateName name st) as [b st'|r st'] eqn:E.
  - left. pose proof (validate_name_done _ _ _ _ E) as Hs.
    split; [done|]. rewrite <- E. by apply validate_name_safe.
  - right. assert (Hs : ¬ shell_safe_name name).
    { intros Hs. by rewrite (validate_name_safe name st Hs) in E. }
    split; [done|].
    destruct (validate_name_unsafe name st Hs) as (r' & E' & Hl & Hc).
    rewrite E in E'. injection E' as -> ->.
    exists r'. split; [done|]. split; [|done].
    rewrite Hl. apply is_error_promote_ERROR.
Qed.

Lemma alphabet_danger c :
  In c name_alphabet → In (String c EmptyString) danger_character_list →
  c = "<"%char ∨ c = "!"%char.
Proof.
  intros Ha Hd.
  assert (H : forallb
                (λ c, implb (existsb (String.eqb (String c EmptyString))
                               danger_character_list)
                        (Ascii.eqb c "<" || Ascii.eqb c "!"))
                name_alphabet = true) by (vm_compute; reflexivity).
  rewrite forallb_forall in H. specialize (H c Ha).
  assert (He : existsb (String.eqb (String c EmptyString)) danger_character_list = true).
  { apply existsb_exists. exists (String c EmptyString). split; [done|].
    apply String.eqb_refl. }
  rewrite He in H. simpl in H. apply orb_true_iff in H as [H|H];
    apply Ascii.eqb_eq in H; auto.
Qed.

(** The two name checks compared; neither implies the other.  Among the
    names [ReplicationSlotValidateName] accepts, [ValidateName] accepts
    exactly those shorter than NAMEDATALEN - 1 that contain neither < nor
    !, two characters of the slot-name class that are on its list.  Among
    the names [ValidateName] accepts, [ReplicationSlotValidateName]
    accepts exactly those all of whose characters are in the slot-name
    class: an upper-case letter or a blank passes [ValidateName] only. *)
Theorem validate_name_compared (n : string) (st : State) :
  (ReplicationSlotValidateName (Some n) ERROR st = Done true st →
   (ValidateName (Some n) st = Done true st
    ↔ (String.length n < NAMEDATALEN - 1)%nat
      ∧ ¬ In "<"%char (list_ascii_of_string n)
      ∧ ¬ In "!"%char (list_ascii_of_string n)))
  ∧ (ValidateName (Some n) st = Done true st →
     (ReplicationSlotValidateName (Some n) ERROR st = Done true st
      ↔ ∀ c, In c (list_ascii_of_string n) → In c name_alphabet)).
Proof.
  split.
  - intros Hacc.
    assert (Hv : ¬ name_is_invalid (Some n)).
    { destruct (validate_ERROR (Some n) st) as [(_ & r & E & _)|[Hv _]]; [|done].
      rewrite E in Hacc. discriminate Hacc. }
    assert (Hne : n ≠ EmptyString).
    { intros ->. apply Hv. by left. }
    assert (Hal : ∀ c, In c (list_ascii_of_string n) → In c name_alphabet).
    { intros c Hc.
      destruct (forallb valid_name_char (list_ascii_of_string n)) eqn:E.
      - rewrite forallb_forall in E. by apply valid_name_char_In, E.
      - apply forallb_valid_false in E. destruct Hv. by right; right. }
    split.
    + intros E.
      pose proof (validate_name_done _ _ _ _ E) as Hs.
      destruct Hs as (n' & [= <-] & _ & Hlen & Hd). split; [done|].
      split; intros Hc; apply (Hd _ Hc); unfold danger_character_list;
        repeat first [left; reflexivity | right].
    + intros (Hlen & Hlt & Hbang). apply validate_name_safe.
      exists n. do 3 (split; [done|]). intros c Hc Hd.
      destruct (alphabet_danger c (Hal c Hc) Hd) as [->| ->];
        [by apply Hlt|by apply Hbang].
  - intros E.
    pose proof (validate_name_done _ _ _ _ E) as Hs.
    destruct Hs as (n' & [= <-] & Hne & Hlen & _).
    split.
    + intros Hacc c Hc.
      destruct (validate_ERROR (Some n) st) as [(_ & r & E' & _)|[Hv _]].
      { rewrite E' in Hacc. discriminate Hacc. }
      destruct (forallb valid_name_char (list_ascii_of_string n)) eqn:Ef.
      * rewrite forallb_forall in Ef. by apply valid_name_char_In, Ef.
      * apply forallb_valid_false in Ef. destruct Hv. by right; right.
    + intros Hal. apply validate_valid. intros [H0|[Hlong|(c & Hc & Hnot)]].
      * destruct n; [done|discriminate H0].
      * lia.
      * by apply Hnot, Hal.
Qed.

(** *** The required LSN *)

Lemma counted_lsns_snoc mode l s :
  counted_lsns mode (l ++ [s])
  = counted_lsns mode l
    ++ (if lsn_counted mode s then [restart_lsn (data s)] else []).
Proof.
  unfold counted_lsns. rewrite List.filter_app, map_app. simpl.
  by destruct (lsn_counted mode s).
Qed.

Lemma required_lsn_step_counted mode acc s :
  required_lsn_step mode acc s
  = if lsn_counted mode s then
      let lsn := restart_lsn (data s) in
      mkSlotState
        (if negb (lsn =? 0) && ((min_required acc =? 0) || (lsn <? min_required acc))
         then lsn else min_required acc)
        (if max_required acc <? lsn then lsn else max_required acc)
        true
    else acc.
Proof.
  unfold required_lsn_step, lsn_counted, XLByteEQ, XLByteLT, InvalidXLogRecPtr.
  destruct mode, (in_use s), (database (data s) =? InvalidOid); done.
Qed.

Lemma required_lsn_spec mode slots :
  let r := required_lsn mode slots in
  let ls := counted_lsns mode slots in
  is_min_valid_lsn ls (min_required r)
  ∧ is_max_lsn ls (max_required r)
  ∧ (exist_in_use r = true ↔ ls ≠ []).
Proof.
  unfold required_lsn.
  induction slots as [|s l IH] using rev_ind.
  - simpl. split; [by left|]. split; [by split; [|left]|done].
  - rewrite fold_left_app, counted_lsns_snoc. cbn [fold_left].
    rewrite required_lsn_step_counted.
    set (acc := fold_left (required_lsn_step mode) l _) in *.
    set (ls := counted_lsns mode l) in *.
    cbv zeta in IH. destruct IH as (Hmin & [Hub Hmax] & Hex).
    destruct (lsn_counted mode s); [|by rewrite app_nil_r].
    set (lsn := restart_lsn (data s)). cbv zeta. cbn [min_required max_required exist_in_use].
    unfold is_min_valid_lsn, is_max_lsn, InvalidXLogRecPtr in *.
    split; [|split; [split|]].
    + destruct (lsn =? 0) eqn:E0; cbn [negb andb].
      { apply Z.eqb_eq in E0.
        destruct Hmin as [[H1 H2]|(H1 & H2 & H3)].
        - left. split; [done|]. intros x [Hx|[<-|[]]]%in_app_or; [by apply H2|done].
        - right. split; [done|]. split; [apply in_or_app; by left|].
          intros x [Hx|[<-|[]]]%in_app_or Hx0; [by apply H3|lia]. }
      apply Z.eqb_neq in E0.
      destruct (min_required acc =? 0) eqn:E1; cbn [orb].
      { apply Z.eqb_eq in E1. right. split; [done|].
        split; [apply in_or_app; right; by left|].
        destruct Hmin as [[_ H2]|(H1 & _)]; [|lia].
        intros x [Hx|[<-|[]]]%in_app_or Hx0; [|lia]. specialize (H2 x Hx). lia. }
      apply Z.eqb_neq in E1.
      destruct Hmin as [[H1 _]|(_ & H2 & H3)]; [lia|].
      destruct (lsn <? min_required acc) eqn:E2.
      * apply Z.ltb_lt in E2. right. split; [done|].
        split; [apply in_or_app; right; by left|].
        intros x [Hx|[<-|[]]]%in_app_or Hx0; [|lia]. specialize (H3 x Hx Hx0). lia.
      * apply Z.ltb_ge in E2. right. split; [done|].
        split; [apply in_or_app; by left|].
        intros x [Hx|[<-|[]]]%in_app_or Hx0; [by apply H3|lia].
    + intros x [Hx|[<-|[]]]%in_app_or.
      * specialize (Hub x Hx). destruct (max_required acc <? lsn) eqn:E; [|done].
        apply Z.ltb_lt in E. lia.
      * destruct (max_required acc <? lsn) eqn:E; [lia|]. apply Z.ltb_ge in E. lia.
    + destruct (max_required acc <? lsn) eqn:E.
      * right. apply in_or_app. right. by left.
      * destruct Hmax as [?|?]; [by left|right; apply in_or_app; by left].
    + split; [|done]. intros _. by destruct ls.
Qed.

(** [ReplicationSlotsComputeRequiredLSN], with a slot array that is not
    empty, publishes as minimum the least valid restart_lsn of the slots it
    takes into account (in use, and logical unless the server is primary or
    pending), INVALID if none has a valid one, and as maximum the greatest
    restart_lsn of those slots; it changes nothing else. *)
Theorem compute_required_lsn_publishes (st : State) :
  max_replication_slots st ≠ 0%nat →
  ∃ mn mx,
    ReplicationSlotsComputeRequiredLSN None st
    = Done None (set_max_lsn mx (set_min_lsn mn st))
    ∧ is_min_valid_lsn (counted_lsns (server_mode st) (replication_slots st)) mn
    ∧ is_max_lsn (counted_lsns (server_mode st) (replication_slots st)) mx.
Proof.
  intros Hn. eexists _, _. split; [by apply compute_required_lsn_run|].
  destruct (required_lsn_spec (server_mode st) (replication_slots st)) as (H1 & H2 & _).
  done.
Qed.

(** *** The logical restart LSN *)

Lemma logical_lsns_snoc l s :
  logical_lsns (l ++ [s])
  = logical_lsns l
    ++ (if in_use s && negb (database (data s) =? InvalidOid)
        then [restart_lsn (data s)] else []).
Proof.
  unfold logical_lsns. rewrite List.filter_app, map_app. simpl.
  by destruct (in_use s && negb (database (data s) =? InvalidOid)).
Qed.

Lemma logical_restart_lsn_fold slots :
  (∀ l, In l (logical_lsns slots) → l ≠ InvalidXLogRecPtr) →
  is_min_valid_lsn (logical_lsns slots)
    (fold_left logical_restart_lsn_step slots InvalidXLogRecPtr).
Proof.
  induction slots as [|s l IH] using rev_ind; [by left|].
  rewrite logical_lsns_snoc, fold_left_app. cbn [fold_left]. intros Hv.
  assert (Hv' : ∀ x, In x (logical_lsns l) → x ≠ InvalidXLogRecPtr).
  { intros x Hx. apply Hv, in_or_app. by left. }
  specialize (IH Hv').
  set (acc := fold_left logical_restart_lsn_step l _) in *.
  unfold logical_restart_lsn_step, XLByteEQ, XLByteLT.
  destruct (in_use s); cbn [negb andb] in *; [|by rewrite app_nil_r in *].
  destruct (database (data s) =? InvalidOid); cbn [negb] in *;
    [by rewrite app_nil_r in *|].
  set (lsn := restart_lsn (data s)) in *.
  assert (Hl : lsn ≠ InvalidXLogRecPtr).
  { apply Hv, in_or_app. right. by left. }
  unfold is_min_valid_lsn, InvalidXLogRecPtr in *.
  destruct (acc =? 0) eqn:E1; cbn [orb].
  - apply Z.eqb_eq in E1. right. split; [done|].
    split; [apply in_or_app; right; by left|].
    destruct IH as [[_ H2]|(H1 & _)]; [|lia].
    intros x [Hx|[<-|[]]]%in_app_or Hx0; [|lia]. specialize (H2 x Hx). lia.
  - apply Z.eqb_neq in E1. destruct IH as [[H1 _]|(_ & H2 & H3)]; [lia|].
    destruct (lsn <? acc) eqn:E2.
    + apply Z.ltb_lt in E2. right. split; [done|].
      split; [apply in_or_app; right; by left|].
      intros x [Hx|[<-|[]]]%in_app_or Hx0; [|lia]. specialize (H3 x Hx Hx0). lia.
    + apply Z.ltb_ge in E2. right. split; [done|].
      split; [apply in_or_app; by left|].
      intros x [Hx|[<-|[]]]%in_app_or Hx0; [by apply H3|lia].
Qed.

(** When every logical slot in use has a valid restart_lsn,
    [ReplicationSlotsComputeLogicalRestartLSN] returns the least of them
    (INVALID when there is no such slot) and leaves the state as it was. *)
Theorem logical_restart_lsn_minimum (st : State) :
  (∀ l, In l (logical_lsns (replication_slots st)) → l ≠ InvalidXLogRecPtr) →
  ∃ r, ReplicationSlotsComputeLogicalRestartLSN st = Done r st
       ∧ is_min_valid_lsn (logical_lsns (replication_slots st)) r.
Proof.
  intros Hv. pose proof (logical_restart_lsn_fold _ Hv) as Hmin.
  destruct st as [slots my held crit f0 x cx mn mx smode ild rip reps].
  st_simpl in Hmin. st_simpl in Hv. st_simpl.
  unfold ReplicationSlotsComputeLogicalRestartLSN, LWLockAcquire, LWLockRelease,
    max_replication_slots.
  pure_steps. st_simpl. destruct slots as [|s l].
  - exists InvalidXLogRecPtr. split; [done|]. by left.
  - cbn [List.length Nat.leb]. pure_steps. st_simpl. rewrite remove_lock_head.
    eexists. split; [reflexivity|exact Hmin].
Qed.

(** *** Runs on a file system without failures *)

Lemma open_creat_nf d f st m :
  no_faults (fs st) → fs_dirs (fs st) !! d = Some m →
  ∃ f', open_creat d f st = Done true (set_fs f' st)
        ∧ no_faults f'
        ∧ fs_dirs f' = <[d := <[f := default (Short 0) (m !! f)]> m]> (fs_dirs (fs st)).
Proof.
  intros Hnf Hm. unfold open_creat, fault, get_dirs, put_dirs, get, modify.
  unfold mbind, M_bind, mret, M_ret. rewrite Hnf.
  destruct st as [slots my held crit [ds clk flt] x cx mn mx smode ild rip reps]; cbn in *.
  rewrite Hm. destruct (m !! f) as [img|] eqn:Hf; cbn.
  - eexists (mkFS _ _ _). split; [reflexivity|]. split; [assumption|]. cbn.
    by rewrite (insert_id m), (insert_id ds).
  - by nf_exists.
Qed.

Lemma rename_file_nf d f1 f2 st m img :
  no_faults (fs st) → fs_dirs (fs st) !! d = Some m → m !! f1 = Some img →
  ∃ f', rename_file d f1 f2 st = Done true (set_fs f' st)
        ∧ no_faults f'
        ∧ fs_dirs f' = <[d := <[f2 := img]> (delete f1 m)]> (fs_dirs (fs st)).
Proof.
  intros Hnf Hm Hf. unfold rename_file, fault, get_dirs, put_dirs, get, modify.
  unfold mbind, M_bind, mret, M_ret. rewrite Hnf.
  destruct st as [slots my held crit [ds clk flt] x cx mn mx smode ild rip reps]; cbn in *.
  rewrite Hm. cbn. rewrite Hf. cbn. by nf_exists.
Qed.

Lemma rename_dir_nf d1 d2 st m :
  no_faults (fs st) → fs_dirs (fs st) !! d1 = Some m → fs_dirs (fs st) !! d2 = None →
  ∃ f', rename_dir d1 d2 st = Done true (set_fs f' st)
        ∧ no_faults f' ∧ fs_dirs f' = <[d2 := m]> (delete d1 (fs_dirs (fs st))).
Proof.
  intros Hnf Hm Hd2. unfold rename_dir, fault, get_dirs, put_dirs, get, modify.
  unfold mbind, M_bind, mret, M_ret. rewrite Hnf.
  destruct st as [slots my held crit [ds clk flt] x cx mn mx smode ild rip reps]; cbn in *.
  rewrite Hm, Hd2. cbn. rewrite bool_decide_true by done. cbn. by nf_exists.
Qed.

Lemma sys_mkdir_nf d st :
  no_faults (fs st) → fs_dirs (fs st) !! d = None →
  ∃ f', sys_mkdir d st = Done true (set_fs f' st)
        ∧ no_faults f' ∧ fs_dirs f' = <[d := ∅]> (fs_dirs (fs st)).
Proof.
  intros Hnf Hd. unfold sys_mkdir, fault, get_dirs, put_dirs, get, modify.
  unfold mbind, M_bind, mret, M_ret. rewrite Hnf.
  destruct st as [slots my held crit [ds clk flt] x cx mn mx smode ild rip reps]; cbn in *.
  rewrite Hd. rewrite bool_decide_false by (by intros [? ?]). cbn. by nf_exists.
Qed.

Lemma save_one_file_nf i dir fname lvl st m :
  no_faults (fs st) → fs_dirs (fs st) !! dir = Some m →
  ∃ f', save_one_file i dir fname lvl st = Done true (set_fs f' st)
        ∧ no_faults f'
        ∧ fs_dirs f'
          = <[dir := <[fname := Complete (saved_record (data (replication_slots st !!! i)))]> m]>
              (fs_dirs (fs st)).
Proof.
  intros Hnf Hm. unfold save_one_file, read_slot.
  destruct st as [slots my held crit f0 x cx mn mx smode ild rip reps].
  st_simpl in Hnf. st_simpl in Hm. st_simpl.
  nf_step ltac:(fun s => constr:(open_creat_nf dir fname s m Hnf Hm)) f1 Hnf1 Hd1.
  pure_steps. st_simpl.
  assert (Hm1 : fs_dirs f1 !! dir = Some (<[fname := default (Short 0) (m !! fname)]> m))
    by by rewrite Hd1, lookup_insert_eq.
  nf_step ltac:(fun s => constr:(sys_write_nf dir fname
                                   (saved_record (data (slots !!! i))) s _ Hnf1 Hm1))
    f2 Hnf2 Hd2.
  nf_step ltac:(fun s => constr:(pg_fsync_nf dir fname s Hnf2)) f3 Hnf3 Hd3.
  nf_step ltac:(fun s => constr:(sys_close_nf dir fname s Hnf3)) f4 Hnf4 Hd4.
  pure_steps. exists f4. split; [done|]. split; [done|].
  by rewrite Hd4, Hd3, Hd2, Hd1, !insert_insert_eq.
Qed.

(** The files a save leaves in a directory that held [m]. *)
Lemma save_nf i dir lvl st m :
  no_faults (fs st) → fs_dirs (fs st) !! dir = Some m →
  dirty (replication_slots st !!! i) = true →
  ∃ f', no_faults f'
        ∧ fs_dirs f'
          = <[dir := <["state" := Complete (saved_record (data (replication_slots st !!! i)))]>
                      (delete "state.tmp"
                         (<["state.backup" :=
                              Complete (saved_record (data (replication_slots st !!! i)))]> m))]>
              (fs_dirs (fs st))
        ∧ SaveSlotToPath i dir lvl st
          = Done tt (set_slots
                       (alter (λ s, set_dirty false (set_just_dirtied false s)) i
                          (replication_slots st))
                       (set_fs f' st)).
Proof.
  intros Hnf Hm Hd. unfold SaveSlotToPath, SaveSlotToPath_with, read_slot, modify_slot.
  pure_steps. rewrite Hd. cbn [negb].
  destruct st as [slots my held crit f0 x cx mn mx smode ild rip reps].
  st_simpl in Hnf. st_simpl in Hm. st_simpl in Hd. st_simpl.
  unfold LWLockAcquire. pure_steps. st_simpl.
  destruct (decide (i < length slots)%nat) as [Hi|Hi].
  2:{ exfalso. rewrite list_lookup_total_alt, lookup_ge_None_2 in Hd by lia. done. }
  assert (Hdata : data (alter (set_just_dirtied false) i slots !!! i) = data (slots !!! i)).
  { by rewrite list_lookup_total_alter_eq by done. }
  nf_step ltac:(fun s => constr:(save_one_file_nf i dir "state.backup" lvl s m Hnf Hm))
    f1 Hnf1 Hd1.
  rewrite Hdata in Hd1.
  assert (Hm1 : fs_dirs f1 !! dir
                = Some (<["state.backup" := Complete (saved_record (data (slots !!! i)))]> m))
    by by rewrite Hd1, lookup_insert_eq.
  cbn [negb]. pure_steps.
  nf_step ltac:(fun s => constr:(save_one_file_nf i dir "state.tmp" lvl s _ Hnf1 Hm1))
    f2 Hnf2 Hd2.
  rewrite Hdata in Hd2.
  assert (Hm2 : fs_dirs f2 !! dir
                = Some (<["state.tmp" := Complete (saved_record (data (slots !!! i)))]>
                          (<["state.backup" := Complete (saved_record (data (slots !!! i)))]> m)))
    by by rewrite Hd2, lookup_insert_eq.
  cbn [negb]. pure_steps.
  nf_step ltac:(fun s => constr:(rename_file_nf dir "state.tmp" "state" s _ _ Hnf2 Hm2
                                   (lookup_insert_eq _ _ _)))
    f3 Hnf3 Hd3.
  cbn [negb]. unfold START_CRIT_SECTION, END_CRIT_SECTION, LWLockRelease.
  pure_steps. st_simpl.
  nf_step ltac:(fun s => constr:(fsync_fname_nf (SlotFile dir "state") s Hnf3)) f4 Hnf4 Hd4.
  nf_step ltac:(fun s => constr:(fsync_fname_nf (SlotDir dir) s Hnf4)) f5 Hnf5 Hd5.
  nf_step ltac:(fun s => constr:(fsync_fname_nf PgReplslot s Hnf5)) f6 Hnf6 Hd6.
  pure_steps. unfold modify. st_simpl. rewrite remove_lock_head.
  exists f6. split; [done|]. split.
  - rewrite Hd6, Hd5, Hd4, Hd3, Hd2, Hd1, !insert_insert_eq.
    by rewrite delete_insert_eq.
  - do 2 f_equal. rewrite alter_twice. apply list_alter_ext; [|done..].
    intros s _. unfold unset_dirty. by destruct s.
Qed.

Lemma create_slot_on_disk_nf i st s :
  no_faults (fs st) →
  replication_slots st !! i = Some s →
  fs_dirs (fs st) !! NameStr s = None →
  fs_dirs (fs st) !! (NameStr s +:+ ".tmp") = None →
  ∃ f', no_faults f'
        ∧ fs_dirs f' = <[NameStr s := slot_files (data s)]> (fs_dirs (fs st))
        ∧ CreateSlotOnDisk i st
          = Done tt
              (set_reports
                 (reports st
                  ++ (if RecoveryInProgress st then []
                      else [mkReport LOG ERRCODE_FILE_ACCESS
                              "create slot on disk successfully"]))
                 (set_slots
                    (alter (λ s, set_dirty false (set_just_dirtied false s)) i
                       (replication_slots st))
                    (set_fs f' st))).
Proof.
  intros Hnf Hs Hdir Htmp. unfold CreateSlotOnDisk, read_slot, modify_slot, dir_exists, get_dirs.
  assert (Hi : (i < length (replication_slots st))%nat) by by eapply lookup_lt_Some.
  destruct st as [slots my held crit f0 x cx mn mx smode ild rip reps].
  st_simpl in Hnf. st_simpl in Hs. st_simpl in Hdir. st_simpl in Htmp. st_simpl in Hi.
  st_simpl. pure_steps. st_simpl.
  rewrite (list_lookup_total_correct _ _ _ Hs).
  rewrite Htmp, bool_decide_false by (by intros [? ?]). pure_steps.
  nf_step ltac:(fun s' => constr:(sys_mkdir_nf (NameStr s +:+ ".tmp") s' Hnf Htmp))
    f1 Hnf1 Hd1.
  cbn [negb]. pure_steps.
  nf_step ltac:(fun s' => constr:(fsync_fname_nf (SlotDir (NameStr s +:+ ".tmp")) s' Hnf1))
    f2 Hnf2 Hd2.
  pure_steps. st_simpl.
  assert (Hm2 : fs_dirs f2 !! (NameStr s +:+ ".tmp") = Some ∅)
    by by rewrite Hd2, Hd1, lookup_insert_eq.
  assert (Hdirty : dirty (alter (set_dirty true) i slots !!! i) = true).
  { by rewrite list_lookup_total_alter_eq by done. }
  lazymatch goal with
  | |- context [mbind _ (SaveSlotToPath i ?d ?lvl) ?st0] =>
      destruct (save_nf i d lvl st0 ∅ Hnf2 Hm2 Hdirty) as (f3 & Hnf3 & Hd3 & E3)
  end.
  bind_step E3. clear E3. st_simpl. st_simpl in Hd3.
  rewrite list_lookup_total_alter_eq in Hd3 by done.
  rewrite (list_lookup_total_correct _ _ _ Hs) in Hd3. cbn [data set_dirty] in Hd3.
  fold (slot_files (data s)) in Hd3.
  assert (Hm3 : fs_dirs f3 !! (NameStr s +:+ ".tmp") = Some (slot_files (data s)))
    by by rewrite Hd3, lookup_insert_eq.
  assert (Hne : NameStr s ≠ NameStr s +:+ ".tmp").
  { intros E. apply (f_equal String.length) in E. rewrite length_append in E.
    simpl in E. lia. }
  assert (Hn3 : fs_dirs f3 !! NameStr s = None).
  { by rewrite Hd3, lookup_insert_ne, Hd2, Hd1, lookup_insert_ne by done. }
  nf_step ltac:(fun s' => constr:(rename_dir_nf (NameStr s +:+ ".tmp") (NameStr s) s' _
                                    Hnf3 Hm3 Hn3))
    f4 Hnf4 Hd4.
  cbn [negb]. unfold START_CRIT_SECTION, END_CRIT_SECTION. pure_steps. st_simpl.
  nf_step ltac:(fun s' => constr:(fsync_fname_nf (SlotDir (NameStr s)) s' Hnf4)) f5 Hnf5 Hd5.
  nf_step ltac:(fun s' => constr:(fsync_fname_nf PgReplslot s' Hnf5)) f6 Hnf6 Hd6.
  pure_steps. st_simpl.
  exists f6. split; [done|]. split.
  - rewrite Hd6, Hd5, Hd4, Hd3, Hd2, Hd1, insert_insert_eq, delete_insert_eq.
    by rewrite delete_id.
  - assert (Hal : alter (λ s0, set_dirty false (set_just_dirtied false s0)) i
                   (alter (set_dirty true) i slots)
                 = alter (λ s0, set_dirty false (set_just_dirtied false s0)) i slots).
    { rewrite alter_twice. apply list_alter_ext; [|done..]. intros s0 _. by destruct s0. }
    rewrite Hal. destruct rip; cbn [negb].
    + by rewrite ret_run, app_nil_r.
    + by rewrite (ereport_below LOG) by done.
Qed.

(** *** Creating a slot *)

Lemma create_scan_free k n slot l :
  find_slot_from k n l = None →
  create_scan k n slot l
  = (false, match slot with Some _ => slot | None => first_free_from k l end).
Proof.
  revert k slot. induction l as [|s l IH]; intros k slot; simpl.
  - by destruct slot.
  - destruct (in_use s && bool_decide (n = NameStr s)) eqn:E; [done|].
    intros Hf. rewrite (IH _ _ Hf).
    destruct slot as [j|]; simpl.
    + by rewrite andb_false_r.
    + rewrite andb_true_r. destruct (in_use s); simpl; [done|done].
Qed.

Lemma find_slot_from_is_Some k n l j s :
  l !! j = Some s → in_use s = true → NameStr s = n →
  is_Some (find_slot_from k n l).
Proof.
  revert k j. induction l as [|s0 l IH]; intros k j Hj Hu Hn; [done|]. simpl.
  destruct (in_use s0 && bool_decide (n = NameStr s0)) eqn:E; [by eexists|].
  destruct j as [|j]; simpl in Hj.
  - injection Hj as ->. rewrite Hu, bool_decide_true in E by done. done.
  - by apply (IH _ j).
Qed.

Lemma substring_whole n s :
  (String.length s ≤ n)%nat → String.substring 0 n s = s.
Proof.
  revert n. induction s as [|c s IH]; intros n Hn; [by destruct n|].
  destruct n as [|n]; simpl in *; [lia|]. rewrite IH; [done|lia].
Qed.

Lemma truncate_name_valid n :
  ¬ name_is_invalid (Some n) → truncate_name n = n.
Proof.
  intros Hv. unfold truncate_name. apply substring_whole.
  destruct (decide (NAMEDATALEN ≤ String.length n)%nat) as [H|H]; [|lia].
  destruct Hv. right. by left.
Qed.

Lemma first_free_from_lookup k l j :
  first_free_from k l = Some j →
  ∃ s, (k ≤ j)%nat ∧ l !! (j - k)%nat = Some s ∧ in_use s = false.
Proof.
  intros H. destruct (first_free_from_Some _ _ _ H) as (Hle & s & Hs & Hu). eauto.
Qed.

Lemma log_slot_names_run l st :
  log_slot_names l st
  = Done tt (set_reports
               (reports st
                ++ map (λ s, mkReport LOG ERRCODE_DEFAULT ("Slot Name: " +:+ NameStr s))
                     (List.filter in_use l))
               st).
Proof.
  revert st. induction l as [|s l IH]; intros st; simpl.
  - rewrite app_nil_r. by destruct st.
  - destruct (in_use s); simpl.
    + rewrite (bind_Done _ _ _ _ _ (ereport_below LOG _ _ st eq_refl)), IH.
      destruct st; st_simpl. by rewrite <- app_assoc.
    + pure_steps. apply IH.
Qed.

Lemma create_fresh_run name persistency_ dummy databaseId lsn st j :
  ¬ name_is_invalid (Some name) →
  find_slot name (replication_slots st) = None →
  first_free_from 0 (replication_slots st) = Some j →
  no_faults (fs st) →
  fs_dirs (fs st) !! name = None →
  fs_dirs (fs st) !! (name +:+ ".tmp") = None →
  let new := created_slot name persistency_ dummy databaseId lsn
               (replication_slots st !!! j) in
  ∃ f', no_faults f'
        ∧ fs_dirs f' = <[name := slot_files (data new)]> (fs_dirs (fs st))
        ∧ ReplicationSlotCreate (Some name) persistency_ dummy databaseId lsn st
          = Done tt
              (set_MyReplicationSlot (Some j)
                 (set_reports
                    (reports st
                     ++ (if RecoveryInProgress st then []
                         else [mkReport LOG ERRCODE_FILE_ACCESS
                                 "create slot on disk successfully"]))
                    (set_slots
                       (<[j := set_active true
                                 (set_in_use true
                                    (set_dirty false (set_just_dirtied false new)))]>
                          (replication_slots st))
                       (set_fs f' st)))).
Proof.
  intros Hv Hfind Hfree Hnf Hdir Htmp new.
  destruct (first_free_from_lookup _ _ _ Hfree) as (s & _ & Hs & Hfr).
  rewrite Nat.sub_0_r in Hs.
  assert (Hi : (j < length (replication_slots st))%nat) by by eapply lookup_lt_Some.
  unfold ReplicationSlotCreate.
  rewrite (bind_Done _ _ _ _ _ (validate_valid _ st Hv)).
  unfold LWLockAcquire, LWLockRelease, modify_slot. pure_steps. rewrite c_str_Some.
  destruct st as [slots my held crit f0 x cx mn mx smode ild rip reps].
  st_simpl in Hfind. st_simpl in Hfree. st_simpl in Hnf. st_simpl in Hdir.
  st_simpl in Htmp. st_simpl in Hs. st_simpl in Hi. st_simpl in new. st_simpl.
  rewrite create_scan_free by done. rewrite Hfree. pure_steps. st_simpl.
  rewrite !remove_lock_head.
  rewrite (truncate_name_valid _ Hv).
  assert (Hnew : alter (λ s0, created_slot name persistency_ dummy databaseId lsn s0) j slots
                 !! j = Some new).
  { rewrite list_lookup_alter_eq, Hs. simpl. subst new.
    by rewrite (list_lookup_total_correct _ _ _ Hs). }
  lazymatch goal with
  | |- context [mbind _ (CreateSlotOnDisk j) ?st0] =>
      destruct (create_slot_on_disk_nf j st0 new Hnf Hnew Hdir Htmp)
        as (f1 & Hnf1 & Hd1 & E1)
  end.
  change (λ s0 : ReplicationSlot,
            set_effective_xmin InvalidTransactionId
              (set_data
                 (mkPersistentData name databaseId persistency_ dummy
                    InvalidTransactionId (catalog_xmin (data s0)) lsn) s0))
    with (λ s0, created_slot name persistency_ dummy databaseId lsn s0).
  bind_step E1. clear E1. st_simpl. st_simpl in Hd1.
  pure_steps. unfold modify. st_simpl. rewrite !remove_lock_head.
  exists f1. split; [done|]. split; [exact Hd1|].
  do 2 f_equal. rewrite !alter_twice.
  apply list_eq. intros k. destruct (decide (k = j)) as [->|Hne].
  - rewrite list_lookup_alter_eq, list_lookup_insert_eq by done. rewrite Hs. simpl.
    subst new. by rewrite (list_lookup_total_correct _ _ _ Hs).
  - by rewrite list_lookup_alter_ne, list_lookup_insert_ne.
Qed.

(** *** Acquiring, releasing and dropping *)

Lemma acquire_run name dummy st i s :
  ¬ name_is_invalid (Some name) →
  find_slot name (replication_slots st) = Some i →
  replication_slots st !! i = Some s →
  (active s = true →
   database (data s) = InvalidOid ∧ isDummyStandby (data s) = dummy) →
  ReplicationSlotAcquire (Some name) dummy st
  = Done tt
      (set_MyReplicationSlot (Some i)
         (set_slots (alter acquired_slot i (replication_slots st))
            (set_reports
               (reports st
                ++ (if active s
                    then [mkReport WARNING ERRCODE_OBJECT_IN_USE
                            "replication slot is already active"]
                    else []))
               st))).
Proof.
  intros Hv Hf Hs Hact.
  assert (Hi : (i < length (replication_slots st))%nat) by by eapply lookup_lt_Some.
  unfold ReplicationSlotAcquire.
  rewrite (bind_Done _ _ _ _ _ (validate_valid _ st Hv)).
  unfold LWLockAcquire, LWLockRelease, modify_slot, read_slot. pure_steps.
  rewrite c_str_Some.
  destruct st as [slots my held crit f0 x cx mn mx smode ild rip reps].
  st_simpl in Hf. st_simpl in Hs. st_simpl in Hi. st_simpl. rewrite Hf.
  pure_steps. st_simpl. rewrite remove_lock_head.
  rewrite (list_lookup_total_correct _ _ _ Hs).
  rewrite list_lookup_total_alter_eq by done.
  rewrite (list_lookup_total_correct _ _ _ Hs).
  change (data (set_active true s)) with (data s).
  assert (Hal : ∀ g : ReplicationSlot → ReplicationSlot,
             g s = acquired_slot s → alter g i slots = alter acquired_slot i slots).
  { intros g Hg. apply list_eq. intros k. destruct (decide (k = i)) as [->|Hne].
    - by rewrite !list_lookup_alter_eq, Hs; simpl; rewrite Hg.
    - by rewrite !list_lookup_alter_ne. }
  unfold acquired_slot in Hal.
  destruct (active s) eqn:Ha.
  - destruct (Hact eq_refl) as [Hdb Hdum]. rewrite Hdb, Hdum in *.
    rewrite Z.eqb_refl, eqb_reflx in *. cbn [negb orb] in *.
    report_step. pure_steps. unfold modify. st_simpl.
    by rewrite (Hal (set_active true)).
  - pure_steps.
    destruct (negb (database (data s) =? InvalidOid)) eqn:Hl.
    + pure_steps. unfold modify. st_simpl. rewrite alter_twice, app_nil_r.
      by rewrite (Hal (λ s0, clear_candidates (set_active true s0))).
    + pure_steps. unfold modify. st_simpl. rewrite app_nil_r.
      by rewrite (Hal (set_active true)).
Qed.

Lemma find_slot_unique n l j s :
  l !! j = Some s → in_use s = true → NameStr s = n →
  (∀ k s', l !! k = Some s' → in_use s' = true → NameStr s' = n → k = j) →
  find_slot n l = Some j.
Proof.
  intros Hj Hu Hn Huniq.
  destruct (find_slot_from_is_Some 0 n l j s Hj Hu Hn) as [k Hk].
  unfold find_slot. rewrite Hk. f_equal.
  destruct (find_slot_Some n l k Hk) as (s' & Hs' & Hu' & Hn').
  by apply (Huniq k s').
Qed.

Lemma drop_acquired_nf st i s m :
  MyReplicationSlot st = Some i →
  replication_slots st !! i = Some s →
  no_faults (fs st) →
  fs_dirs (fs st) !! NameStr s = Some m →
  fs_dirs (fs st) !! (NameStr s +:+ ".tmp") = None →
  ∃ st', ReplicationSlotDropAcquired st = Done tt st'
         ∧ replication_slots st'
           = alter (λ s, set_in_use false (set_active false s)) i (replication_slots st)
         ∧ MyReplicationSlot st' = None
         ∧ held_lwlocks st' = held_lwlocks st
         ∧ no_faults (fs st')
         ∧ fs_dirs (fs st') = delete (NameStr s) (fs_dirs (fs st))
         ∧ reports st' = reports st
         ∧ RecoveryInProgress st' = RecoveryInProgress st.
Proof.
  intros Hmy Hs Hnf Hm Htmp. unfold ReplicationSlotDropAcquired, my_slot.
  assert (Hlen : (i < length (replication_slots st))%nat) by by eapply lookup_lt_Some.
  destruct st as [slots my held crit f0 x cx mn mx smode ild rip reps].
  st_simpl in Hmy. st_simpl in Hs. st_simpl in Hnf. st_simpl in Hm. st_simpl in Htmp.
  st_simpl in Hlen. st_simpl. subst my.
  unfold LWLockAcquire, LWLockRelease, read_slot, modify_slot.
  pure_steps. st_simpl. pure_steps. st_simpl.
  rewrite (list_lookup_total_correct _ _ _ Hs).
  nf_step ltac:(fun s' => constr:(rename_dir_nf (NameStr s) (NameStr s +:+ ".tmp") s' m
                                    Hnf Hm Htmp))
    f1 Hnf1 Hd1.
  unfold START_CRIT_SECTION, END_CRIT_SECTION. pure_steps. st_simpl.
  nf_step ltac:(fun s' => constr:(fsync_fname_nf (SlotDir (NameStr s +:+ ".tmp")) s' Hnf1))
    f2 Hnf2 Hd2.
  nf_step ltac:(fun s' => constr:(fsync_fname_nf PgReplslot s' Hnf2)) f3 Hnf3 Hd3.
  pure_steps. st_simpl. rewrite remove_lock_head.
  rewrite (bind_Done _ _ _ _ _ (compute_required_xmin_run _ _)). st_simpl.
  lsn_step. st_simpl.
  assert (Hm3 : fs_dirs f3 !! (NameStr s +:+ ".tmp") = Some m)
    by by rewrite Hd3, Hd2, Hd1, lookup_insert_eq.
  nf_step ltac:(fun s' => constr:(rmtree_nf (NameStr s +:+ ".tmp") s' m Hnf3 Hm3))
    f4 Hnf4 Hd4.
  cbn [negb]. pure_steps. unfold modify. st_simpl. rewrite remove_lock_head.
  eexists. split; [reflexivity|]. st_simpl.
  split; [by rewrite alter_twice|]. do 3 (split; [done|]).
  split; [|done].
  rewrite Hd4, Hd3, Hd2, Hd1, delete_insert_eq. apply delete_id.
  rewrite lookup_delete_ne; [done|].
  intros E. apply (f_equal String.length) in E. rewrite length_append in E. simpl in E. lia.
Qed.

Lemma release_persistent_run st i s :
  MyReplicationSlot st = Some i →
  replication_slots st !! i = Some s →
  active s = true →
  persistency (data s) = RS_PERSISTENT →
  ∃ st' g, ReplicationSlotRelease st = Done tt st'
           ∧ replication_slots st' = alter g i (replication_slots st)
           ∧ in_use (g s) = in_use s ∧ active (g s) = false ∧ data (g s) = data s
           ∧ MyReplicationSlot st' = None
           ∧ held_lwlocks st' = held_lwlocks st
           ∧ fs st' = fs st
           ∧ reports st' = reports st
           ∧ RecoveryInProgress st' = RecoveryInProgress st.
Proof.
  intros Hmy Hs Ha Hp.
  assert (Hlen : (i < length (replication_slots st))%nat) by by eapply lookup_lt_Some.
  unfold ReplicationSlotRelease, read_slot, modify_slot, LWLockAcquire, LWLockRelease.
  destruct st as [slots my held crit f0 x cx mn mx smode ild rip reps].
  st_simpl in Hmy. st_simpl in Hs. st_simpl in Hlen. st_simpl. subst my.
  pure_steps. st_simpl. pure_steps. st_simpl.
  rewrite (list_lookup_total_correct _ _ _ Hs), Ha, Hp. cbn [negb].
  rewrite bool_decide_false by done. pure_steps. st_simpl.
  rewrite list_lookup_total_alter_eq by done.
  rewrite (list_lookup_total_correct _ _ _ Hs).
  destruct (negb (TransactionIdIsValid (xmin (data (set_active false s))))
            && TransactionIdIsValid (effective_xmin (set_active false s))).
  - pure_steps. st_simpl.
    rewrite (bind_Done _ _ _ _ _ (compute_required_xmin_run _ _)). st_simpl.
    pure_steps. unfold modify. st_simpl. rewrite remove_lock_head.
    eexists _, _. split; [reflexivity|]. st_simpl.
    split; [by rewrite alter_twice|]. by destruct s.
  - pure_steps. unfold modify. st_simpl. rewrite remove_lock_head.
    eexists _, _. split; [reflexivity|]. st_simpl. split; [done|]. by destruct s.
Qed.

Lemma acquire_missing_run name dummy st :
  ¬ name_is_invalid (Some name) →
  find_slot name (replication_slots st) = None →
  ReplicationSlotAcquire (Some name) dummy st
  = Raised (mkReport (promote ERROR st) ERRCODE_UNDEFINED_OBJECT
              "replication slot does not exist") st.
Proof.
  intros Hv Hf. unfold ReplicationSlotAcquire.
  rewrite (bind_Done _ _ _ _ _ (validate_valid _ st Hv)).
  unfold LWLockAcquire, LWLockRelease. pure_steps. rewrite c_str_Some.
  destruct st as [slots my held crit f0 x cx mn mx smode ild rip reps].
  st_simpl in Hf. st_simpl. rewrite Hf. pure_steps. st_simpl.
  by rewrite remove_lock_head.
Qed.

Lemma drop_run pm (log : string -> M unit) name st i s m :
  ¬ name_is_invalid (Some name) →
  find_slot name (replication_slots st) = Some i →
  replication_slots st !! i = Some s →
  (active s = true →
   database (data s) = InvalidOid ∧ isDummyStandby (data s) = false) →
  no_faults (fs st) →
  fs_dirs (fs st) !! name = Some m →
  fs_dirs (fs st) !! (name +:+ ".tmp") = None →
  ∃ st1,
    ReplicationSlotDrop pm log (Some name) st
    = (if pm && negb (RecoveryInProgress st) && negb (database (data s) =? InvalidOid)
       then log name else mret tt) st1
    ∧ replication_slots st1
      = alter (λ s, set_in_use false (set_active false (acquired_slot s))) i
          (replication_slots st)
    ∧ MyReplicationSlot st1 = None
    ∧ held_lwlocks st1 = held_lwlocks st
    ∧ no_faults (fs st1)
    ∧ fs_dirs (fs st1) = delete name (fs_dirs (fs st))
    ∧ reports st1
      = reports st
        ++ (if active s
            then [mkReport WARNING ERRCODE_OBJECT_IN_USE
                    "replication slot is already active"]
            else []).
Proof.
  intros Hv Hf Hs Hact Hnf Hm Htmp.
  assert (Hi : (i < length (replication_slots st))%nat) by by eapply lookup_lt_Some.
  destruct (find_slot_Some _ _ _ Hf) as (s0 & Hs0 & Hu & Hn).
  rewrite Hs in Hs0. injection Hs0 as <-.
  unfold ReplicationSlotDrop.
  rewrite (bind_Done _ _ _ _ _ (validate_valid _ st Hv)).
  rewrite (bind_Done _ _ _ _ _ (acquire_run _ _ _ _ _ Hv Hf Hs Hact)).
  unfold my_slot, read_slot. pure_steps.
  destruct st as [slots my held crit f0 x cx mn mx smode ild rip reps].
  st_simpl in Hf. st_simpl in Hs. st_simpl in Hnf. st_simpl in Hm. st_simpl in Htmp.
  st_simpl in Hi. st_simpl. pure_steps. st_simpl.
  rewrite list_lookup_total_alter_eq by done.
  rewrite (list_lookup_total_correct _ _ _ Hs).
  assert (Hdata : data (acquired_slot s) = data s).
  { unfold acquired_slot. by destruct (negb (database (data s) =? InvalidOid)). }
  rewrite Hdata.
  assert (Hs1 : alter acquired_slot i slots !! i = Some (acquired_slot s))
    by by rewrite list_lookup_alter_eq, Hs.
  assert (Hname : NameStr (acquired_slot s) = name).
  { unfold NameStr. by rewrite Hdata. }
  lazymatch goal with
  | |- context [mbind _ ReplicationSlotDropAcquired ?st0] =>
      destruct (drop_acquired_nf st0 i (acquired_slot s) m eq_refl Hs1 Hnf)
        as (st1 & E & Hsl & Hmy1 & Hh & Hnf1 & Hd & Hr & Hrip)
  end.
  { by rewrite Hname. }
  { by rewrite Hname. }
  bind_step E. clear E. st_simpl in Hsl. st_simpl in Hh. st_simpl in Hd.
  st_simpl in Hr. st_simpl in Hrip. rewrite Hname in Hd.
  pure_steps. rewrite Hrip, c_str_Some.
  exists st1. split; [done|]. rewrite Hsl, alter_twice. done.
Qed.

(** [SaveSlotToPath] on a file system where nothing fails: a dirty slot
    whose directory exists is written out.  The call returns without a
    report, holding no more locks than before; state and state.backup both
    hold the record of the slot's data, which passes the checks of the
    restorer; a state.tmp left by an earlier attempt is gone; the other
    files of the directory are as they were; and the slot is clean. *)
Theorem save_writes_both_files (i : nat) (dir : string) (lvl : ErrLevel)
    (st : State) (m : gmap string FileImage) :
  no_faults (fs st) →
  fs_dirs (fs st) !! dir = Some m →
  dirty (replication_slots st !!! i) = true →
  ∃ st',
    SaveSlotToPath i dir lvl st = Done tt st'
    ∧ reports st' = reports st
    ∧ held_lwlocks st' = held_lwlocks st
    ∧ (∀ j, j ≠ i → replication_slots st' !! j = replication_slots st !! j)
    ∧ dirty (replication_slots st' !!! i) = false
    ∧ data (replication_slots st' !!! i) = data (replication_slots st !!! i)
    ∧ let cp := saved_record (data (replication_slots st !!! i)) in
      check_record cp = None
      ∧ fs_file (fs st') dir "state" = Some (Complete cp)
      ∧ fs_file (fs st') dir "state.backup" = Some (Complete cp)
      ∧ fs_file (fs st') dir "state.tmp" = None
      ∧ ∀ f, f ≠ "state" → f ≠ "state.backup" → f ≠ "state.tmp" →
             fs_file (fs st') dir f = m !! f.
Proof.
  intros Hnf Hm Hd.
  destruct (save_nf i dir lvl st m Hnf Hm Hd) as (f' & Hnf' & Hdirs & E).
  assert (Hi : (i < length (replication_slots st))%nat).
  { destruct (decide (i < length (replication_slots st))%nat) as [Hi|Hi]; [done|].
    rewrite list_lookup_total_alt, lookup_ge_None_2 in Hd by lia. done. }
  eexists. split; [exact E|].
  destruct st as [slots my held crit f0 x cx mn mx smode ild rip reps].
  st_simpl in Hdirs. st_simpl in Hi. st_simpl. unfold fs_file.
  split; [done|]. split; [done|].
  split; [intros j Hj; by rewrite list_lookup_alter_ne|].
  rewrite list_lookup_total_alter_eq by done.
  split; [done|]. split; [done|].
  split; [apply saved_record_verifies|].
  rewrite Hdirs, lookup_insert_eq. cbn.
  split; [by rewrite lookup_insert_eq|].
  split; [by rewrite lookup_insert_ne, lookup_delete_ne, lookup_insert_eq|].
  split; [by rewrite lookup_insert_ne, lookup_delete_eq|].
  intros f H1 H2 H3.
  by rewrite lookup_insert_ne, lookup_delete_ne, lookup_insert_ne.
Qed.

Lemma save_missing_run i dir lvl st :
  fs_dirs (fs st) !! dir = None →
  dirty (replication_slots st !!! i) = true →
  ∃ f1, fs_dirs f1 = fs_dirs (fs st)
        ∧ SaveSlotToPath i dir lvl st
          = ereport lvl ERRCODE_FILE_ACCESS "could not create file"
              (set_slots (alter (set_just_dirtied false) i (replication_slots st))
                 (set_fs f1 st)).
Proof.
  intros Hm Hd.
  unfold SaveSlotToPath, SaveSlotToPath_with, read_slot, modify_slot.
  pure_steps. rewrite Hd. cbn [negb].
  destruct st as [slots my held crit f0 x cx mn mx smode ild rip reps].
  st_simpl in Hm. st_simpl in Hd. st_simpl.
  unfold LWLockAcquire. pure_steps. st_simpl.
  unfold save_one_file. pure_steps.
  lazymatch goal with
  | |- context [mbind _ (open_creat dir ?f) ?s] =>
      destruct (open_creat_cases dir f s) as (b & f1 & E & Hf1 & Hd1)
  end.
  st_simpl in Hd1. destruct b.
  { destruct Hd1 as (m & Hm' & _). congruence. }
  bind_step E. clear E. cbn [negb]. unfold LWLockRelease.
  pure_steps. st_simpl. rewrite remove_lock_head.
  exists f1. split; [done|].
  lazymatch goal with
  | |- context [mbind _ (ereport lvl ?c ?msg) ?s] =>
      destruct (ereport_cases lvl c msg s) as [[He E1]|[He E1]]
  end; bind_step E1; by rewrite E1.
Qed.

(** [SaveSlotToPath] on a dirty slot whose directory does not exist,
    whatever else fails or not: the file cannot be created.  Below ERROR
    the call returns after one report "could not create file", with the
    io lock released, nothing written and the slot still dirty; at ERROR
    it leaves through that report. *)
Theorem save_missing_directory (i : nat) (dir : string) (lvl : ErrLevel) (st : State) :
  fs_dirs (fs st) !! dir = None →
  dirty (replication_slots st !!! i) = true →
  let o := SaveSlotToPath i dir lvl st in
  let st' := final_state o in
  fs_dirs (fs st') = fs_dirs (fs st)
  ∧ held_lwlocks st' = held_lwlocks st
  ∧ dirty (replication_slots st' !!! i) = true
  ∧ if is_error (promote lvl st)
    then o = Raised (mkReport (promote lvl st) ERRCODE_FILE_ACCESS "could not create file") st'
    else o = Done tt st'
         ∧ reports st' = reports st ++ [mkReport lvl ERRCODE_FILE_ACCESS "could not create file"].
Proof.
  intros Hm Hd o st'. subst o st'.
  assert (Hi : (i < length (replication_slots st))%nat).
  { destruct (decide (i < length (replication_slots st))%nat) as [Hi|Hi]; [done|].
    rewrite list_lookup_total_alt, lookup_ge_None_2 in Hd by lia. done. }
  destruct (save_missing_run i dir lvl st Hm Hd) as (f1 & Hd1 & ->).
  destruct st as [slots my held crit f0 x cx mn mx smode ild rip reps].
  st_simpl in Hd1. st_simpl in Hd. st_simpl in Hi. st_simpl.
  lazymatch goal with
  | |- context [ereport lvl ?c ?msg ?s] =>
      destruct (ereport_cases lvl c msg s) as [[He E1]|[He E1]]
  end; rewrite E1; unfold promote in *; st_simpl in He; st_simpl; rewrite He;
    rewrite list_lookup_total_alter_eq by done; done.
Qed.

(** [ReplicationSlotCreate] of a new name on a file system where nothing
    fails, with a free entry in the array and no directory in the way: the
    first free entry [j] becomes the slot.  It is in use, active, clean and
    the session's current slot; its data are the arguments of the call,
    with xmin invalid and catalog_xmin as the entry held it; the other
    entries and the held locks are as before; the slot's directory holds
    state and state.backup with the record of these data, and no
    directory name.tmp is left; [find] on the name now answers true. *)
Theorem create_fresh_slot (name : string)
    (persistency_ : ReplicationSlotPersistency) (dummy : bool)
    (databaseId : Oid) (lsn : XLogRecPtr) (st : State) (j : nat) :
  ¬ name_is_invalid (Some name) →
  find_slot name (replication_slots st) = None →
  first_free_from 0 (replication_slots st) = Some j →
  no_faults (fs st) →
  fs_dirs (fs st) !! name = None →
  fs_dirs (fs st) !! (name +:+ ".tmp") = None →
  ∃ st',
    ReplicationSlotCreate (Some name) persistency_ dummy databaseId lsn st = Done tt st'
    ∧ MyReplicationSlot st' = Some j
    ∧ held_lwlocks st' = held_lwlocks st
    ∧ (∀ k, k ≠ j → replication_slots st' !! k = replication_slots st !! k)
    ∧ let s' := replication_slots st' !!! j in
      in_use s' = true ∧ active s' = true ∧ dirty s' = false
      ∧ effective_xmin s' = InvalidTransactionId
      ∧ data s'
        = mkPersistentData name databaseId persistency_ dummy InvalidTransactionId
            (catalog_xmin (data (replication_slots st !!! j))) lsn
      ∧ fs_file (fs st') name "state" = Some (Complete (saved_record (data s')))
      ∧ fs_file (fs st') name "state.backup" = Some (Complete (saved_record (data s')))
      ∧ fs_dirs (fs st') !! (name +:+ ".tmp") = None
      ∧ ReplicationSlotFind (Some name) st' = Done true st'.
Proof.
  intros Hv Hfind Hfree Hnf Hdir Htmp.
  destruct (create_fresh_run name persistency_ dummy databaseId lsn st j
              Hv Hfind Hfree Hnf Hdir Htmp) as (f' & Hnf' & Hd & E).
  destruct (first_free_from_lookup _ _ _ Hfree) as (s & _ & Hs & Hfr).
  rewrite Nat.sub_0_r in Hs.
  assert (Hi : (j < length (replication_slots st))%nat) by by eapply lookup_lt_Some.
  eexists. split; [exact E|].
  rewrite find_valid by by apply validate_valid.
  destruct st as [slots my held crit f0 x cx mn mx smode ild rip reps].
  st_simpl in Hd. st_simpl in Hs. st_simpl in Hi. st_simpl in Htmp. st_simpl.
  split; [done|]. split; [done|].
  split; [intros k Hk; by rewrite list_lookup_insert_ne|].
  rewrite list_lookup_total_insert_eq by done.
  cbn [in_use active dirty effective_xmin data set_active set_in_use set_dirty
       set_just_dirtied created_slot set_effective_xmin set_data].
  do 5 (split; [done|]).
  unfold fs_file. rewrite Hd, lookup_insert_eq. cbn.
  split; [by unfold slot_files; rewrite lookup_insert_eq|].
  split.
  { unfold slot_files.
    by rewrite lookup_insert_ne, lookup_delete_ne, lookup_insert_eq. }
  split.
  { rewrite lookup_insert_ne; [done|].
    intros E'. apply (f_equal String.length) in E'. rewrite length_append in E'.
    simpl in E'. lia. }
  f_equal. apply bool_decide_eq_true. unfold find_slot.
  eapply (find_slot_from_is_Some 0 name _ j).
  - by apply list_lookup_insert_eq.
  - done.
  - done.
Qed.

(** [ReplicationSlotCreate] of a new name when every entry of the array is
    in use: the names of the slots are logged, one line each, and the call
    fails with CONFIGURATION_LIMIT_EXCEEDED.  No entry and no file is
    touched; ReplicationSlotAllocationLock is still held when the error
    leaves the function. *)
Theorem create_table_full (name : string)
    (persistency_ : ReplicationSlotPersistency) (dummy : bool)
    (databaseId : Oid) (lsn : XLogRecPtr) (st : State) :
  ¬ name_is_invalid (Some name) →
  find_slot name (replication_slots st) = None →
  first_free_from 0 (replication_slots st) = None →
  ∃ st',
    ReplicationSlotCreate (Some name) persistency_ dummy databaseId lsn st
    = Raised (mkReport (promote ERROR st) ERRCODE_CONFIGURATION_LIMIT_EXCEEDED
                "all replication slots are in use") st'
    ∧ replication_slots st' = replication_slots st
    ∧ fs st' = fs st
    ∧ MyReplicationSlot st' = MyReplicationSlot st
    ∧ held_lwlocks st'
      = (ReplicationSlotAllocationLock, LW_EXCLUSIVE) :: held_lwlocks st
    ∧ reports st'
      = reports st
        ++ map (λ s, mkReport LOG ERRCODE_DEFAULT ("Slot Name: " +:+ NameStr s))
             (replication_slots st).
Proof.
  intros Hv Hfind Hfree. unfold ReplicationSlotCreate.
  rewrite (bind_Done _ _ _ _ _ (validate_valid _ st Hv)).
  unfold LWLockAcquire, LWLockRelease. pure_steps. rewrite c_str_Some.
  destruct st as [slots my held crit f0 x cx mn mx smode ild rip reps].
  st_simpl in Hfind. st_simpl in Hfree. st_simpl.
  rewrite create_scan_free by done. rewrite Hfree.
  rewrite (bind_Done _ _ _ _ _ (log_slot_names_run _ _)). st_simpl.
  pure_steps. st_simpl. rewrite remove_lock_head.
  eexists. split; [reflexivity|]. st_simpl. do 4 (split; [done|]).
  f_equal. f_equal. clear Hfind. revert Hfree. generalize 0%nat.
  induction slots as [|s l IH]; intros k; [done|]. simpl.
  destruct (in_use s); [|done]. intros H. by rewrite (IH _ H).
Qed.

(** [ReplicationSlotAcquire] of a well-formed name that no slot in use
    bears fails with UNDEFINED_OBJECT and leaves the state as it was, the
    control lock released. *)
Theorem acquire_missing_slot (name : string) (dummy : bool) (st : State) :
  ¬ name_is_invalid (Some name) →
  find_slot name (replication_slots st) = None →
  ReplicationSlotAcquire (Some name) dummy st
  = Raised (mkReport (promote ERROR st) ERRCODE_UNDEFINED_OBJECT
              "replication slot does not exist") st.
Proof. apply acquire_missing_run. Qed.

(** [ReplicationSlotAcquire] of a slot that is already active.  For a
    logical slot, or when the isDummyStandby flag of the request differs
    from the slot's, the call fails with OBJECT_IN_USE and the state is as
    it was.  For a physical slot with the same flag the call only warns
    and returns: the slot becomes the current slot of this session too,
    and no entry changes. *)
Theorem acquire_active_slot (name : string) (dummy : bool) (st : State)
    (i : nat) (s : ReplicationSlot) :
  ¬ name_is_invalid (Some name) →
  find_slot name (replication_slots st) = Some i →
  replication_slots st !! i = Some s →
  active s = true →
  ReplicationSlotAcquire (Some name) dummy st
  = if negb (database (data s) =? InvalidOid)
       || negb (eqb dummy (isDummyStandby (data s)))
    then Raised (mkReport (promote ERROR st) ERRCODE_OBJECT_IN_USE
                   "replication slot is already active") st
    else Done tt
           (set_MyReplicationSlot (Some i)
              (set_reports
                 (reports st ++ [mkReport WARNING ERRCODE_OBJECT_IN_USE
                                   "replication slot is already active"])
                 st)).
Proof.
  intros Hv Hf Hs Ha.
  assert (Hi : (i < length (replication_slots st))%nat) by by eapply lookup_lt_Some.
  destruct (negb (database (data s) =? InvalidOid)
            || negb (eqb dummy (isDummyStandby (data s)))) eqn:Hc.
  - unfold ReplicationSlotAcquire.
    rewrite (bind_Done _ _ _ _ _ (validate_valid _ st Hv)).
    unfold LWLockAcquire, LWLockRelease, modify_slot, read_slot. pure_steps.
    rewrite c_str_Some.
    destruct st as [slots my held crit f0 x cx mn mx smode ild rip reps].
    st_simpl in Hf. st_simpl in Hs. st_simpl in Hi. st_simpl. rewrite Hf.
    pure_steps. st_simpl. rewrite remove_lock_head.
    rewrite (list_lookup_total_correct _ _ _ Hs), Ha.
    rewrite (alter_set_active_id _ _ _ Hs Ha).
    rewrite (list_lookup_total_correct _ _ _ Hs), Hc.
    by rewrite (bind_Raised _ _ _ _ _ (ereport_ERROR _ _ _)).
  - apply orb_false_iff in Hc as [Hdb Hdum].
    apply negb_false_iff in Hdb, Hdum. apply Z.eqb_eq in Hdb. apply eqb_prop in Hdum.
    rewrite (acquire_run name dummy st i s Hv Hf Hs) by done.
    rewrite Ha.
    assert (E : alter acquired_slot i (replication_slots st) = replication_slots st).
    { apply list_eq. intros k. destruct (decide (k = i)) as [->|Hne].
      - rewrite list_lookup_alter_eq, Hs. simpl. unfold acquired_slot.
        rewrite Hdb, Z.eqb_refl. simpl. f_equal. destruct s; simpl in *. by subst.
      - by rewrite list_lookup_alter_ne. }
    rewrite E. by destruct st.
Qed.

Lemma release_persistent_plain st i s :
  MyReplicationSlot st = Some i →
  replication_slots st !! i = Some s →
  active s = true →
  persistency (data s) = RS_PERSISTENT →
  negb (TransactionIdIsValid (xmin (data s)))
  && TransactionIdIsValid (effective_xmin s) = false →
  ReplicationSlotRelease st
  = Done tt
      (set_in_logical_decoding false
         (set_MyReplicationSlot None
            (set_slots (alter (set_active false) i (replication_slots st)) st))).
Proof.
  intros Hmy Hs Ha Hp Hx.
  assert (Hlen : (i < length (replication_slots st))%nat) by by eapply lookup_lt_Some.
  unfold ReplicationSlotRelease, read_slot, modify_slot, LWLockAcquire, LWLockRelease.
  destruct st as [slots my held crit f0 x cx mn mx smode ild rip reps].
  st_simpl in Hmy. st_simpl in Hs. st_simpl in Hlen. st_simpl. subst my.
  pure_steps. st_simpl. pure_steps. st_simpl.
  rewrite (list_lookup_total_correct _ _ _ Hs), Ha, Hp. cbn [negb].
  rewrite bool_decide_false by done. pure_steps. st_simpl.
  rewrite list_lookup_total_alter_eq by done.
  rewrite (list_lookup_total_correct _ _ _ Hs).
  change (data (set_active false s)) with (data s).
  change (effective_xmin (set_active false s)) with (effective_xmin s).
  rewrite Hx. pure_steps. unfold modify. st_simpl. by rewrite remove_lock_head.
Qed.

(** Acquiring an inactive persistent slot and releasing it again.  Both
    calls return without a report, the session ends up with no current
    slot, and a physical slot is left exactly as it was; a logical slot
    has its four candidate fields cleared and is otherwise as it was.  (The
    slot is taken not to carry the temporary xmin of a snapshot export:
    data.xmin is valid or effective_xmin is not.) *)
Theorem acquire_release_round_trip (name : string) (dummy : bool) (st : State)
    (i : nat) (s : ReplicationSlot) :
  ¬ name_is_invalid (Some name) →
  find_slot name (replication_slots st) = Some i →
  replication_slots st !! i = Some s →
  active s = false →
  persistency (data s) = RS_PERSISTENT →
  negb (TransactionIdIsValid (xmin (data s)))
  && TransactionIdIsValid (effective_xmin s) = false →
  (ReplicationSlotAcquire (Some name) dummy;; ReplicationSlotRelease) st
  = Done tt
      (set_in_logical_decoding false
         (set_MyReplicationSlot None
            (set_slots
               (if database (data s) =? InvalidOid then replication_slots st
                else alter clear_candidates i (replication_slots st))
               st))).
Proof.
  intros Hv Hf Hs Ha Hp Hx.
  assert (Hi : (i < length (replication_slots st))%nat) by by eapply lookup_lt_Some.
  rewrite (bind_Done _ _ _ _ _ (acquire_run name dummy st i s Hv Hf Hs
                                  ltac:(by rewrite Ha))).
  rewrite Ha, app_nil_r.
  assert (Hacq : data (acquired_slot s) = data s
                 ∧ effective_xmin (acquired_slot s) = effective_xmin s
                 ∧ active (acquired_slot s) = true).
  { unfold acquired_slot. by destruct (negb (database (data s) =? InvalidOid)). }
  destruct Hacq as (Hd1 & Hx1 & Ha1).
  destruct st as [slots my held crit f0 x cx mn mx smode ild rip reps].
  st_simpl in Hf. st_simpl in Hs. st_simpl in Hi. st_simpl.
  rewrite (release_persistent_plain _ i (acquired_slot s)); st_simpl;
    [|done|by rewrite list_lookup_alter_eq, Hs|done|by rewrite Hd1|by rewrite Hd1, Hx1].
  f_equal. f_equal. rewrite alter_twice.
  apply list_eq. intros k. destruct (decide (k = i)) as [->|Hne].
  - rewrite list_lookup_alter_eq, Hs. simpl. unfold acquired_slot.
    destruct (database (data s) =? InvalidOid); simpl.
    + rewrite Hs. f_equal. destruct s; simpl in *. by subst.
    + rewrite list_lookup_alter_eq, Hs. simpl. f_equal. destruct s; simpl in *. by subst.
  - rewrite list_lookup_alter_ne by done.
    destruct (database (data s) =? InvalidOid); [done|].
    by rewrite list_lookup_alter_ne.
Qed.

(** [ReplicationSlotDrop] of a well-formed name that no slot in use bears
    fails with UNDEFINED_OBJECT; the state is as it was and nothing is
    logged. *)
Theorem drop_missing_slot (pm : bool) (log : string -> M unit)
    (name : string) (st : State) :
  ¬ name_is_invalid (Some name) →
  find_slot name (replication_slots st) = None →
  ReplicationSlotDrop pm log (Some name) st
  = Raised (mkReport (promote ERROR st) ERRCODE_UNDEFINED_OBJECT
              "replication slot does not exist") st.
Proof.
  intros Hv Hf. unfold ReplicationSlotDrop.
  rewrite (bind_Done _ _ _ _ _ (validate_valid _ st Hv)).
  by rewrite (bind_Raised _ _ _ _ _ (acquire_missing_run _ _ _ Hv Hf)).
Qed.

(** [ReplicationSlotDrop] on a file system where nothing fails, of a slot
    that is not active, or of a physical slot (not for a dummy standby)
    that another session has active: the acquisition then only warns and
    the drop goes on.  When the call reaches its last statement, the
    conditional [log_slot_drop], the slot is gone: its entry is free and
    not active, its directory is removed and no other directory is
    touched, the session has no current slot and holds the locks it held,
    and, the names of the slots in use being distinct, [find] on the name
    answers false. *)
Theorem drop_removes_slot (pm : bool) (log : string -> M unit) (name : string)
    (st : State) (i : nat) (s : ReplicationSlot) (m : gmap string FileImage) :
  ¬ name_is_invalid (Some name) →
  find_slot name (replication_slots st) = Some i →
  replication_slots st !! i = Some s →
  (active s = true →
   database (data s) = InvalidOid ∧ isDummyStandby (data s) = false) →
  names_unique (replication_slots st) →
  no_faults (fs st) →
  fs_dirs (fs st) !! name = Some m →
  fs_dirs (fs st) !! (name +:+ ".tmp") = None →
  ∃ st1,
    ReplicationSlotDrop pm log (Some name) st
    = (if pm && negb (RecoveryInProgress st) && negb (database (data s) =? InvalidOid)
       then log name else mret tt) st1
    ∧ in_use (replication_slots st1 !!! i) = false
    ∧ active (replication_slots st1 !!! i) = false
    ∧ (∀ k, k ≠ i → replication_slots st1 !! k = replication_slots st !! k)
    ∧ MyReplicationSlot st1 = None
    ∧ held_lwlocks st1 = held_lwlocks st
    ∧ reports st1
      = reports st
        ++ (if active s
            then [mkReport WARNING ERRCODE_OBJECT_IN_USE
                    "replication slot is already active"]
            else [])
    ∧ fs_dirs (fs st1) = delete name (fs_dirs (fs st))
    ∧ ReplicationSlotFind (Some name) st1 = Done false st1.
Proof.
  intros Hv Hf Hs Ha Huniq Hnf Hm Htmp.
  assert (Hi : (i < length (replication_slots st))%nat) by by eapply lookup_lt_Some.
  destruct (find_slot_Some _ _ _ Hf) as (s0 & Hs0 & Hu & Hn).
  rewrite Hs in Hs0. injection Hs0 as <-.
  destruct (drop_run pm log name st i s m Hv Hf Hs Ha Hnf Hm Htmp)
    as (st1 & E & Hsl & Hmy & Hh & Hnf1 & Hd & Hr).
  exists st1. split; [exact E|].
  rewrite Hsl, list_lookup_total_alter_eq by done.
  do 2 (split; [done|]).
  split; [intros k Hk; by rewrite list_lookup_alter_ne|].
  do 4 (split; [done|]).
  rewrite find_valid by by apply validate_valid.
  rewrite c_str_Some, Hsl. unfold find_slot.
  rewrite find_slot_from_None; [done|].
  intros k sk Hk Huk Hnk. destruct (decide (k = i)) as [->|Hne].
  - rewrite list_lookup_alter_eq, Hs in Hk. simpl in Hk. injection Hk as <-. done.
  - rewrite list_lookup_alter_ne in Hk by done.
    apply Hne. apply (Huniq k i sk s Hk Hs Huk Hu). congruence.
Qed.

Lemma alter_insert_same {A} (f : A → A) i x (l : list A) :
  alter f i (<[i := x]> l) = <[i := f x]> l.
Proof. by rewrite !list_insert_alter, alter_twice. Qed.

Lemma find_slot_None_inv n l k s :
  find_slot n l = None → l !! k = Some s → in_use s = true → NameStr s ≠ n.
Proof.
  intros Hf Hk Hu Hn.
  destruct (find_slot_from_is_Some 0 n l k s Hk Hu Hn) as [j Hj].
  unfold find_slot in Hf. congruence.
Qed.

(** Create, release, drop: a persistent slot created under a new name,
    released and then dropped by name, on a file system where nothing
    fails, leaves pg_replslot with exactly the directories it had, the
    entry that was used free again, every other entry as it was, and the
    session without a current slot and with the locks it held. *)
Theorem create_release_drop_round_trip (pm : bool) (log : string -> M unit)
    (name : string) (dummy : bool) (databaseId : Oid) (lsn : XLogRecPtr)
    (st : State) (j : nat) :
  ¬ name_is_invalid (Some name) →
  find_slot name (replication_slots st) = None →
  first_free_from 0 (replication_slots st) = Some j →
  no_faults (fs st) →
  fs_dirs (fs st) !! name = None →
  fs_dirs (fs st) !! (name +:+ ".tmp") = None →
  ∃ st3,
    (ReplicationSlotCreate (Some name) RS_PERSISTENT dummy databaseId lsn;;
     ReplicationSlotRelease;;
     ReplicationSlotDrop pm log (Some name)) st
    = (if pm && negb (RecoveryInProgress st) && negb (databaseId =? InvalidOid)
       then log name else mret tt) st3
    ∧ fs_dirs (fs st3) = fs_dirs (fs st)
    ∧ in_use (replication_slots st3 !!! j) = false
    ∧ (∀ k, k ≠ j → replication_slots st3 !! k = replication_slots st !! k)
    ∧ MyReplicationSlot st3 = None
    ∧ held_lwlocks st3 = held_lwlocks st.
Proof.
  intros Hv Hfind Hfree Hnf Hdir Htmp.
  destruct (create_fresh_run name RS_PERSISTENT dummy databaseId lsn st j
              Hv Hfind Hfree Hnf Hdir Htmp) as (f1 & Hnf1 & Hd1 & E1).
  destruct (first_free_from_lookup _ _ _ Hfree) as (s & _ & Hs & Hfr).
  rewrite Nat.sub_0_r in Hs.
  assert (Hi : (j < length (replication_slots st))%nat) by by eapply lookup_lt_Some.
  rewrite (bind_Done _ _ _ _ _ E1). clear E1.
  destruct st as [slots my held crit f0 x cx mn mx smode ild rip reps].
  st_simpl in Hfind. st_simpl in Hfree. st_simpl in Hdir. st_simpl in Htmp.
  st_simpl in Hs. st_simpl in Hi. st_simpl in Hd1. st_simpl.
  set (new := set_active true
                (set_in_use true
                   (set_dirty false
                      (set_just_dirtied false
                         (created_slot name RS_PERSISTENT dummy databaseId lsn
                            (slots !!! j)))))).
  erewrite bind_Done; [|apply (release_persistent_plain _ j new); st_simpl;
                         [done|by apply list_lookup_insert_eq|done|done|done]].
  st_simpl. rewrite alter_insert_same.
  set (rel := set_active false new).
  assert (Hrel : <[j := rel]> slots !! j = Some rel) by by apply list_lookup_insert_eq.
  assert (Hf2 : find_slot name (<[j := rel]> slots) = Some j).
  { apply (find_slot_unique name _ j rel Hrel); [done|done|].
    intros k s' Hk Hu Hn. destruct (decide (k = j)) as [->|Hne]; [done|].
    rewrite list_lookup_insert_ne in Hk by done.
    by destruct (find_slot_None_inv name slots k s' Hfind Hk Hu). }
  lazymatch goal with
  | |- context [ReplicationSlotDrop pm log (Some name) ?st2] =>
      destruct (drop_run pm log name st2 j rel (slot_files (data new))
                  Hv Hf2 Hrel ltac:(done) Hnf1)
        as (st3 & E3 & Hsl & Hmy & Hh & _ & Hd3 & _)
  end.
  { st_simpl. by rewrite Hd1, lookup_insert_eq. }
  { st_simpl. rewrite Hd1, lookup_insert_ne; [done|].
    intros E'. apply (f_equal String.length) in E'. rewrite length_append in E'.
    simpl in E'. lia. }
  st_simpl in E3. st_simpl in Hsl. st_simpl in Hh. st_simpl in Hd3.
  exists st3. split; [exact E3|].
  split; [by rewrite Hd3, Hd1, delete_insert_eq, delete_id|].
  rewrite Hsl. split.
  { rewrite list_lookup_total_alter_eq; [done|]. by rewrite length_insert. }
  split; [|done].
  intros k Hk. by rewrite list_lookup_alter_ne, list_lookup_insert_ne.
Qed.

(** *** Restoring: the directories that are not loaded *)

Lemma restore_ephemeral_run (name : string) (st : State)
    (m : gmap string FileImage) (cp : ReplicationSlotOnDisk) :
  no_faults (fs st) →
  fs_dirs (fs st) !! name = Some m →
  m !! "state.tmp" = None →
  m !! "state" = Some (Complete cp) →
  check_record cp = None →
  persistency (slotdata cp) = RS_EPHEMERAL →
  ∃ st',
    RestoreSlotFromDisk name st = Done tt st'
    ∧ replication_slots st' = replication_slots st
    ∧ fs_dirs (fs st') = delete name (fs_dirs (fs st))
    ∧ no_faults (fs st')
    ∧ reports st'
      = reports st ++ [mkReport DEBUG1 ERRCODE_DEFAULT "restoring replication slot"].
Proof.
  intros Hnf Hm Htmp Hstate Hchk Hpers. unfold RestoreSlotFromDisk.
  destruct st as [slots my held crit f0 x cx mn mx smode ild rip reps].
  st_simpl in Hnf. st_simpl in Hm. st_simpl.
  assert (Htmp' : file_of (fs_dirs f0) name "state.tmp" = None)
    by (by rewrite (file_of_lookup _ _ _ _ Hm)).
  assert (Hstate' : file_of (fs_dirs f0) name "state" = Some (Complete cp))
    by (by rewrite (file_of_lookup _ _ _ _ Hm)).
  nf_step ltac:(fun s => constr:(sys_unlink_absent name "state.tmp" s Hnf Htmp')) f1 Hnf1 Hd1.
  cbn [bool_decide decide_rel]. rewrite !bool_decide_false by done. pure_steps.
  report_step.
  rewrite <- Hd1 in Hstate', Hm.
  nf_step ltac:(fun s => constr:(read_state_file_nf name "state" s cp Hnf1 Hstate'))
    f2 Hnf2 Hd2.
  rewrite Hchk. pure_steps. rewrite Hpers, bool_decide_false by done. cbn [negb].
  rewrite <- Hd2 in Hm.
  nf_step ltac:(fun s => constr:(rmtree_nf name s m Hnf2 Hm)) f3 Hnf3 Hd3.
  pure_steps.
  lazymatch goal with
  | |- context [fsync_fname PgReplslot ?s] =>
      destruct (fsync_fname_nf PgReplslot s Hnf3) as (f4 & E & Hnf4 & Hd4);
      rewrite E; clear E; st_simpl; st_simpl in Hd4
  end.
  eexists. split; [reflexivity|]. st_simpl. split; [done|].
  split; [congruence|done].
Qed.

(** At startup a slot directory whose state file holds a record that
    passes the checks but is not PERSISTENT (an ephemeral slot that
    outlived a crash) is removed, and no entry of the array is loaded.
    (No state.tmp in the directory; no failing file operation.) *)
Theorem restore_removes_ephemeral (name : string) (st : State)
    (m : gmap string FileImage) (cp : ReplicationSlotOnDisk) :
  no_faults (fs st) →
  fs_dirs (fs st) !! name = Some m →
  m !! "state.tmp" = None →
  m !! "state" = Some (Complete cp) →
  check_record cp = None →
  persistency (slotdata cp) = RS_EPHEMERAL →
  ∃ st',
    RestoreSlotFromDisk name st = Done tt st'
    ∧ replication_slots st' = replication_slots st
    ∧ fs_dirs (fs st') = delete name (fs_dirs (fs st))
    ∧ no_faults (fs st')
    ∧ reports st'
      = reports st ++ [mkReport DEBUG1 ERRCODE_DEFAULT "restoring replication slot"].
Proof. apply restore_ephemeral_run. Qed.


Lemma read_state_file_missing name fname st :
  no_faults (fs st) →
  file_of (fs_dirs (fs st)) name fname = None →
  ∃ f', fs_dirs f' = fs_dirs (fs st)
        ∧ read_state_file name fname st
          = Raised (mkReport PANIC ERRCODE_FILE_ACCESS "could not open file")
              (set_fs f' st).
Proof.
  intros Hnf Hf. unfold read_state_file.
  destruct st as [slots my held crit f0 x cx mn mx smode ild rip reps].
  st_simpl in Hnf. st_simpl in Hf. st_simpl.
  nf_step ltac:(fun s => constr:(open_rdonly_nf name fname s Hnf)) f1 Hnf1 Hd1.
  rewrite Hf, bool_decide_false by (by intros [? ?]). cbn [negb].
  exists f1. split; [done|]. done.
Qed.

Lemma read_state_file_short name fname st n :
  no_faults (fs st) →
  file_of (fs_dirs (fs st)) name fname = Some (Short n) →
  ∃ f', fs_dirs f' = fs_dirs (fs st)
        ∧ read_state_file name fname st
          = Raised (mkReport PANIC ERRCODE_FILE_ACCESS "could not read file")
              (set_fs f' st).
Proof.
  intros Hnf Hf. unfold read_state_file.
  destruct st as [slots my held crit f0 x cx mn mx smode ild rip reps].
  st_simpl in Hnf. st_simpl in Hf. st_simpl.
  nf_step ltac:(fun s => constr:(open_rdonly_nf name fname s Hnf)) f1 Hnf1 Hd1.
  rewrite Hf, bool_decide_true by done. st_simpl. pure_steps.
  nf_step ltac:(fun s => constr:(pg_fsync_nf name fname s Hnf1)) f2 Hnf2 Hd2. pure_steps.
  unfold START_CRIT_SECTION, END_CRIT_SECTION. pure_steps. st_simpl.
  nf_step ltac:(fun s => constr:(fsync_fname_nf (SlotFile name fname) s Hnf2)) f3 Hnf3 Hd3.
  pure_steps. st_simpl.
  nf_step ltac:(fun s => constr:(sys_read_nf name fname s Hnf3)) f4 Hnf4 Hd4.
  rewrite Hd3, Hd2, Hd1, Hf. cbn [default from_option id].
  nf_step ltac:(fun s => constr:(sys_close_nf name fname s Hnf4)) f5 Hnf5 Hd5. pure_steps.
  exists f5. split; [congruence|]. done.
Qed.

(** At startup a slot directory without a state file, or with one that
    holds fewer bytes than a record, stops the server: the restorer leaves
    through a PANIC ("could not open file", "could not read file"), with
    no entry loaded and the directory left in place.  (No state.tmp in the
    directory; no failing file operation.) *)
Theorem restore_unreadable_state (name : string) (st : State)
    (m : gmap string FileImage) :
  no_faults (fs st) →
  fs_dirs (fs st) !! name = Some m →
  m !! "state.tmp" = None →
  (∀ cp, m !! "state" ≠ Some (Complete cp)) →
  ∃ st',
    RestoreSlotFromDisk name st
    = Raised (mkReport PANIC ERRCODE_FILE_ACCESS
                (match m !! "state" with
                 | Some _ => "could not read file"
                 | None => "could not open file"
                 end))
        st'
    ∧ replication_slots st' = replication_slots st
    ∧ fs_dirs (fs st') = fs_dirs (fs st).
Proof.
  intros Hnf Hm Htmp Hstate. unfold RestoreSlotFromDisk.
  destruct st as [slots my held crit f0 x cx mn mx smode ild rip reps].
  st_simpl in Hnf. st_simpl in Hm. st_simpl.
  assert (Htmp' : file_of (fs_dirs f0) name "state.tmp" = None)
    by (by rewrite (file_of_lookup _ _ _ _ Hm)).
  assert (Hstate' : file_of (fs_dirs f0) name "state" = m !! "state")
    by (by rewrite (file_of_lookup _ _ _ _ Hm)).
  nf_step ltac:(fun s => constr:(sys_unlink_absent name "state.tmp" s Hnf Htmp')) f1 Hnf1 Hd1.
  cbn [bool_decide decide_rel]. rewrite !bool_decide_false by done. pure_steps.
  report_step.
  rewrite <- Hd1 in Hstate'.
  destruct (m !! "state") as [[cp|n]|] eqn:E.
  - by destruct (Hstate cp).
  - lazymatch goal with
    | |- context [mbind _ (read_state_file name "state") ?s] =>
        destruct (read_state_file_short name "state" s n Hnf1 Hstate') as (f2 & Hd2 & E2)
    end.
    bind_step E2. st_simpl in Hd2. eexists. split; [reflexivity|]. st_simpl.
    split; [done|congruence].
  - lazymatch goal with
    | |- context [mbind _ (read_state_file name "state") ?s] =>
        destruct (read_state_file_missing name "state" s Hnf1 Hstate') as (f2 & Hd2 & E2)
    end.
    bind_step E2. st_simpl in Hd2. eexists. split; [reflexivity|]. st_simpl.
    split; [done|congruence].
Qed.



(** A slot created by [ReplicationSlotCreate] and the next startup.  After
    the create of a new valid name that meets no failure, a server that
    starts on the files the create left, with a free entry [j2], restores
    a PERSISTENT slot into that entry with the data the create gave it, in
    use and not active; for an EPHEMERAL slot it removes the directory and
    loads nothing. *)
Theorem created_slot_at_restart (name : string)
    (persistency_ : ReplicationSlotPersistency) (dummy : bool)
    (databaseId : Oid) (lsn : XLogRecPtr) (st st2 : State) (j j2 : nat) :
  ¬ name_is_invalid (Some name) →
  find_slot name (replication_slots st) = None →
  first_free_from 0 (replication_slots st) = Some j →
  no_faults (fs st) →
  fs_dirs (fs st) !! name = None →
  fs_dirs (fs st) !! (name +:+ ".tmp") = None →
  fs_dirs (fs st2)
  = fs_dirs (fs (final_state
                   (ReplicationSlotCreate (Some name) persistency_ dummy databaseId lsn st))) →
  no_faults (fs st2) →
  first_free_from 0 (replication_slots st2) = Some j2 →
  let d := mkPersistentData name databaseId persistency_ dummy InvalidTransactionId
             (catalog_xmin (data (replication_slots st !!! j))) lsn in
  ∃ st3,
    RestoreSlotFromDisk name st2 = Done tt st3
    ∧ match persistency_ with
      | RS_PERSISTENT =>
          replication_slots st3 = alter (restored_slot d) j2 (replication_slots st2)
          ∧ data (replication_slots st3 !!! j2) = d
          ∧ in_use (replication_slots st3 !!! j2) = true
          ∧ active (replication_slots st3 !!! j2) = false
      | RS_EPHEMERAL =>
          replication_slots st3 = replication_slots st2
          ∧ fs_dirs (fs st3) !! name = None
      end.
Proof.
  intros Hv Hfind Hfree Hnf Hdir Htmp Hfs2 Hnf2 Hfree2 d.
  destruct (create_fresh_run name persistency_ dummy databaseId lsn st j
              Hv Hfind Hfree Hnf Hdir Htmp) as (f1 & Hnf1 & Hd1 & E1).
  rewrite E1 in Hfs2. clear E1.
  cbn [final_state] in Hfs2.
  assert (Hfs2' : fs_dirs (fs st2) = <[name := slot_files d]> (fs_dirs (fs st))).
  { rewrite Hfs2. by destruct st. }
  clear Hfs2.
  assert (Hm : fs_dirs (fs st2) !! name = Some (slot_files d))
    by by rewrite Hfs2', lookup_insert_eq.
  assert (Ht : slot_files d !! "state.tmp" = None).
  { unfold slot_files. by rewrite lookup_insert_ne, lookup_delete_eq. }
  assert (Hs : slot_files d !! "state" = Some (Complete (saved_record d))).
  { unfold slot_files. by rewrite lookup_insert_eq. }
  destruct persistency_.
  - destruct (restore_primary name st2 (saved_record d) Hnf2) as (f' & Hnf' & Hd & E).
    { by rewrite (file_of_lookup _ _ _ _ Hm). }
    { by rewrite (file_of_lookup _ _ _ _ Hm). }
    { apply saved_record_verifies. }
    { done. }
    cbv zeta in E. rewrite Hfree2 in E. eexists. split; [exact E|].
    destruct (first_free_from_lookup _ _ _ Hfree2) as (s2 & _ & Hs2 & _).
    rewrite Nat.sub_0_r in Hs2.
    assert (Hi2 : (j2 < length (replication_slots st2))%nat) by by eapply lookup_lt_Some.
    destruct st2 as [slots2 my2 held2 crit2 fs2 x2 cx2 mn2 mx2 smode2 ild2 rip2 reps2].
    st_simpl in Hi2. st_simpl. split; [done|].
    by rewrite list_lookup_total_alter_eq by done.
  - destruct (restore_ephemeral_run name st2 (slot_files d) (saved_record d)
                Hnf2 Hm Ht Hs (saved_record_verifies _) eq_refl)
      as (st3 & E & Hsl & Hd & _).
    exists st3. split; [exact E|]. split; [done|].
    by rewrite Hd, lookup_delete_eq.
Qed.

(** *** Operations on the current slot *)

Lemma mark_dirty_run st i :
  MyReplicationSlot st = Some i →
  ReplicationSlotMarkDirty st
  = Done tt (set_slots (alter mark_dirty i (replication_slots st)) st).
Proof.
  intros Hmy. unfold ReplicationSlotMarkDirty, my_slot, modify_slot.
  pure_steps. rewrite Hmy. pure_steps. done.
Qed.

(** [SetDummyStandbySlotLsnInvalid] leaves the current slot with an
    invalid restart_lsn and the other entries as they were.  If the
    restart_lsn was valid the slot is marked dirty and the required LSNs
    are published afresh from the new array; if it was already invalid
    nothing at all changes.  No file is touched, and a second call
    changes nothing. *)
Theorem set_dummy_standby_lsn_invalid (st : State) (i : nat) (s : ReplicationSlot) :
  MyReplicationSlot st = Some i →
  replication_slots st !! i = Some s →
  ∃ st',
    SetDummyStandbySlotLsnInvalid st = Done tt st'
    ∧ restart_lsn (data (replication_slots st' !!! i)) = InvalidXLogRecPtr
    ∧ (∀ k, k ≠ i → replication_slots st' !! k = replication_slots st !! k)
    ∧ fs st' = fs st
    ∧ (restart_lsn (data s) = InvalidXLogRecPtr → st' = st)
    ∧ (restart_lsn (data s) ≠ InvalidXLogRecPtr →
       dirty (replication_slots st' !!! i) = true
       ∧ just_dirtied (replication_slots st' !!! i) = true
       ∧ replication_slot_min_lsn st'
         = min_required (required_lsn (server_mode st) (replication_slots st'))
       ∧ replication_slot_max_lsn st'
         = max_required (required_lsn (server_mode st) (replication_slots st')))
    ∧ SetDummyStandbySlotLsnInvalid st' = Done tt st'.
Proof.
  intros Hmy Hs.
  assert (Hi : (i < length (replication_slots st))%nat) by by eapply lookup_lt_Some.
  assert (Hrun : ∀ st0 s0,
            MyReplicationSlot st0 = Some i → replication_slots st0 !! i = Some s0 →
            restart_lsn (data s0) = InvalidXLogRecPtr →
            SetDummyStandbySlotLsnInvalid st0 = Done tt st0).
  { intros st0 s0 Hmy0 Hs0 H0. unfold SetDummyStandbySlotLsnInvalid, my_slot, read_slot.
    pure_steps. rewrite Hmy0. pure_steps.
    rewrite (list_lookup_total_correct _ _ _ Hs0), H0. done. }
  destruct (decide (restart_lsn (data s) = InvalidXLogRecPtr)) as [H0|H0].
  - exists st. split; [by apply (Hrun st s)|].
    rewrite (list_lookup_total_correct _ _ _ Hs).
    do 4 (split; [done|]). split; [done|]. by apply (Hrun st s).
  - unfold SetDummyStandbySlotLsnInvalid at 1. unfold my_slot, read_slot, modify_slot.
    pure_steps. rewrite Hmy. pure_steps.
    rewrite (list_lookup_total_correct _ _ _ Hs).
    unfold XLByteEQ. replace (restart_lsn (data s) =? InvalidXLogRecPtr) with false
      by (symmetry; by apply Z.eqb_neq).
    cbn [negb]. pure_steps.
    destruct st as [slots my held crit f0 x cx mn mx smode ild rip reps].
    st_simpl in Hmy. st_simpl in Hs. st_simpl in Hi. st_simpl. subst my.
    lazymatch goal with
    | |- context [mbind _ ReplicationSlotMarkDirty ?s0] =>
        rewrite (bind_Done _ _ _ _ _ (mark_dirty_run s0 i eq_refl))
    end.
    st_simpl.
    lazymatch goal with
    | |- context [mbind _ (ReplicationSlotsComputeRequiredLSN None) ?s0] =>
        rewrite (bind_Done _ _ _ _ _ (compute_required_lsn_run None s0
                   ltac:(unfold max_replication_slots; st_simpl;
                         rewrite !length_alter; lia)))
    end.
    st_simpl. rewrite ret_run. eexists. split; [reflexivity|]. st_simpl.
    rewrite alter_twice, list_lookup_total_alter_eq by done.
    rewrite (list_lookup_total_correct _ _ _ Hs).
    split; [done|].
    split; [intros k Hk; by rewrite list_lookup_alter_ne|].
    split; [done|]. split; [done|]. split; [done|].
    eapply Hrun; st_simpl; [done| |].
    + by rewrite list_lookup_alter_eq, Hs.
    + done.
Qed.

Lemma slot_save_present st i s m :
  MyReplicationSlot st = Some i →
  replication_slots st !! i = Some s →
  fs_dirs (fs st) !! NameStr s = Some m →
  ReplicationSlotSave st = SaveSlotToPath i (NameStr s) ERROR st.
Proof.
  intros Hmy Hs Hm. unfold ReplicationSlotSave, my_slot, read_slot, dir_exists, get_dirs.
  pure_steps. rewrite Hmy. pure_steps.
  rewrite (list_lookup_total_correct _ _ _ Hs), Hm.
  rewrite bool_decide_true by done. cbn [negb]. by pure_steps.
Qed.

(** [ReplicationSlotPersist] on a file system where nothing fails, for a
    current slot whose directory exists: the slot becomes PERSISTENT in
    memory, with its other data unchanged, and is written out at once, so
    that it is clean and its state file holds the record of the persistent
    data.  A server that starts on these files restores the slot instead
    of deleting it. *)
Theorem persist_makes_durable (st : State) (i : nat) (s : ReplicationSlot)
    (m : gmap string FileImage) :
  MyReplicationSlot st = Some i →
  replication_slots st !! i = Some s →
  no_faults (fs st) →
  fs_dirs (fs st) !! NameStr s = Some m →
  let d := set_persistency RS_PERSISTENT (data s) in
  ∃ st',
    ReplicationSlotPersist st = Done tt st'
    ∧ data (replication_slots st' !!! i) = d
    ∧ dirty (replication_slots st' !!! i) = false
    ∧ (∀ k, k ≠ i → replication_slots st' !! k = replication_slots st !! k)
    ∧ held_lwlocks st' = held_lwlocks st
    ∧ reports st' = reports st
    ∧ fs_file (fs st') (NameStr s) "state" = Some (Complete (saved_record d))
    ∧ fs_file (fs st') (NameStr s) "state.backup" = Some (Complete (saved_record d))
    ∧ ∀ st2 j2,
        fs_dirs (fs st2) = fs_dirs (fs st') → no_faults (fs st2) →
        first_free_from 0 (replication_slots st2) = Some j2 →
        ∃ st3, RestoreSlotFromDisk (NameStr s) st2 = Done tt st3
               ∧ replication_slots st3
                 = alter (restored_slot d) j2 (replication_slots st2).
Proof.
  intros Hmy Hs Hnf Hm d.
  assert (Hi : (i < length (replication_slots st))%nat) by by eapply lookup_lt_Some.
  unfold ReplicationSlotPersist, my_slot, LWLockAcquire, LWLockRelease, modify_slot.
  pure_steps. rewrite Hmy. pure_steps.
  destruct st as [slots my held crit f0 x cx mn mx smode ild rip reps].
  st_simpl in Hmy. st_simpl in Hs. st_simpl in Hnf. st_simpl in Hm. st_simpl in Hi.
  st_simpl. subst my. rewrite remove_lock_head.
  lazymatch goal with
  | |- context [mbind _ ReplicationSlotMarkDirty ?s0] =>
      rewrite (bind_Done _ _ _ _ _ (mark_dirty_run s0 i eq_refl))
  end.
  st_simpl. rewrite alter_twice.
  set (g := λ s0, mark_dirty (set_data (set_persistency RS_PERSISTENT (data s0)) s0)).
  assert (Hg : alter g i slots !! i = Some (g s)) by by rewrite list_lookup_alter_eq, Hs.
  assert (Hgt : alter g i slots !!! i = g s) by by apply list_lookup_total_correct.
  lazymatch goal with
  | |- context [ReplicationSlotSave ?s0] =>
      rewrite (slot_save_present s0 i (g s) m eq_refl Hg Hm);
      destruct (save_nf i (NameStr (g s)) ERROR s0 m Hnf Hm) as (f1 & Hnf1 & Hd1 & E)
  end.
  { st_simpl. by rewrite Hgt. }
  rewrite E. clear E. st_simpl in Hd1. rewrite Hgt in Hd1.
  change (data (g s)) with d in Hd1. change (NameStr (g s)) with (NameStr s) in *.
  eexists. split; [reflexivity|]. st_simpl.
  rewrite alter_twice, list_lookup_total_alter_eq by done.
  rewrite (list_lookup_total_correct _ _ _ Hs).
  split; [done|]. split; [done|].
  split; [intros k Hk; by rewrite list_lookup_alter_ne|].
  split; [done|]. split; [done|].
  unfold fs_file. rewrite Hd1, lookup_insert_eq. cbn.
  split; [by rewrite lookup_insert_eq|].
  split; [by rewrite lookup_insert_ne, lookup_delete_ne, lookup_insert_eq|].
  intros st2 j2 Hfs2 Hnf2 Hfree2. st_simpl in Hfs2.
  assert (Hm2 : fs_dirs (fs st2) !! NameStr s
                = Some (<["state" := Complete (saved_record d)]>
                          (delete "state.tmp"
                             (<["state.backup" := Complete (saved_record d)]> m))))
    by by rewrite Hfs2, lookup_insert_eq.
  destruct (restore_primary (NameStr s) st2 (saved_record d) Hnf2) as (f' & Hnf' & Hd & E).
  { by rewrite (file_of_lookup _ _ _ _ Hm2), lookup_insert_ne, lookup_delete_eq. }
  { by rewrite (file_of_lookup _ _ _ _ Hm2), lookup_insert_eq. }
  { apply saved_record_verifies. }
  { done. }
  cbv zeta in E. rewrite Hfree2 in E. eexists. split; [exact E|]. by destruct st2.
Qed.

(** [ReplicationSlotSave] for a current slot whose directory is missing,
    on a file system where nothing fails: the directory is created, by way
    of name.tmp, with state and state.backup holding the record of the
    slot's data; the slot is clean afterwards and no name.tmp is left. *)
Theorem slot_save_creates_directory (st : State) (i : nat) (s : ReplicationSlot) :
  MyReplicationSlot st = Some i →
  replication_slots st !! i = Some s →
  no_faults (fs st) →
  fs_dirs (fs st) !! NameStr s = None →
  fs_dirs (fs st) !! (NameStr s +:+ ".tmp") = None →
  ∃ st',
    ReplicationSlotSave st = Done tt st'
    ∧ fs_dirs (fs st') = <[NameStr s := slot_files (data s)]> (fs_dirs (fs st))
    ∧ dirty (replication_slots st' !!! i) = false
    ∧ data (replication_slots st' !!! i) = data s
    ∧ (∀ k, k ≠ i → replication_slots st' !! k = replication_slots st !! k)
    ∧ held_lwlocks st' = held_lwlocks st.
Proof.
  intros Hmy Hs Hnf Hdir Htmp.
  assert (Hi : (i < length (replication_slots st))%nat) by by eapply lookup_lt_Some.
  unfold ReplicationSlotSave, my_slot, read_slot, dir_exists, get_dirs.
  pure_steps. rewrite Hmy. pure_steps.
  rewrite (list_lookup_total_correct _ _ _ Hs), Hdir.
  rewrite bool_decide_false by (by intros [? ?]). cbn [negb].
  destruct (create_slot_on_disk_nf i st s Hnf Hs Hdir Htmp) as (f1 & Hnf1 & Hd1 & E).
  bind_step E. clear E.
  destruct st as [slots my held crit f0 x cx mn mx smode ild rip reps].
  st_simpl in Hs. st_simpl in Hi. st_simpl in Hd1. st_simpl.
  unfold SaveSlotToPath. rewrite save_clean.
  2:{ st_simpl. by rewrite list_lookup_total_alter_eq by done. }
  eexists. split; [reflexivity|]. st_simpl.
  rewrite alter_twice, list_lookup_total_alter_eq by done.
  rewrite (list_lookup_total_correct _ _ _ Hs).
  split; [done|]. split; [done|]. split; [done|].
  split; [intros k Hk; by rewrite list_lookup_alter_ne|done].
Qed.

Lemma set_slots_fs_twice l1 f1 l2 f2 st :
  set_slots l2 (set_fs f2 (set_slots l1 (set_fs f1 st))) = set_slots l2 (set_fs f2 st).
Proof. by destruct st. Qed.

Lemma set_slots_fs_same st : set_slots (replication_slots st) (set_fs (fs st) st) = st.
Proof. by destruct st. Qed.

Lemma alter_fixed {A} (f : A → A) i (l : list A) :
  (∀ x, l !! i = Some x → f x = x) → alter f i l = l.
Proof.
  intros H. apply list_eq. intros j. destruct (decide (j = i)) as [->|Hne].
  - rewrite list_lookup_alter_eq. destruct (l !! i) eqn:E; [|done]. cbn. by rewrite H.
  - by rewrite list_lookup_alter_ne.
Qed.

Lemma alter_agree {A} (f g : A → A) i (l : list A) :
  (∀ x, l !! i = Some x → f x = g x) → alter f i l = alter g i l.
Proof.
  intros H. apply list_eq. intros j. destruct (decide (j = i)) as [->|Hne].
  - rewrite !list_lookup_alter_eq. destruct (l !! i) eqn:E; [|done]. cbn. by rewrite H.
  - by rewrite !list_lookup_alter_ne.
Qed.

Lemma flushed_clean s :
  in_use s = true → dirty s = false → set_just_dirtied false s = flushed s.
Proof. intros Hu Hd. unfold flushed. rewrite Hu. destruct s. cbn in *. by subst. Qed.

(** One turn of the checkpoint loop on an entry that needs no write. *)
Lemma checkpoint_loop_skip n i s st :
  replication_slots st !! i = Some s →
  (in_use s = true → dirty s = false ∧ is_Some (fs_dirs (fs st) !! NameStr s)) →
  checkpoint_loop (S n) i st
  = checkpoint_loop n (S i) (set_slots (alter flushed i (replication_slots st)) st).
Proof.
  intros Hs Hc. cbn [checkpoint_loop]. unfold read_slot. pure_steps.
  rewrite (list_lookup_total_correct _ _ _ Hs).
  destruct (in_use s) eqn:Hu; cbn [negb].
  - destruct Hc as [Hd Hm]; [done|].
    unfold dir_exists, get_dirs. pure_steps.
    rewrite bool_decide_true by done. cbn [negb]. pure_steps.
    unfold SaveSlotToPath.
    rewrite (bind_Done _ _ _ _ _ (save_clean _ i (NameStr s) LOG st
               ltac:(by rewrite (list_lookup_total_correct _ _ _ Hs)))).
    f_equal. f_equal. apply alter_agree. intros x Hx.
    assert (x = s) by congruence. subst x. by apply flushed_clean.
  - pure_steps. f_equal. rewrite alter_fixed; [by destruct st|].
    intros x Hx. assert (x = s) by congruence. subst x. unfold flushed. by rewrite Hu.
Qed.

(** One turn of the checkpoint loop on a dirty slot in use, when no call
    fails. *)
Lemma checkpoint_loop_write n i s m st :
  no_faults (fs st) →
  replication_slots st !! i = Some s →
  in_use s = true → dirty s = true →
  fs_dirs (fs st) !! NameStr s = Some m →
  ∃ f', no_faults f'
        ∧ fs_dirs f' = <[NameStr s := rewritten_files (data s) m]> (fs_dirs (fs st))
        ∧ checkpoint_loop (S n) i st
          = checkpoint_loop n (S i)
              (set_slots (alter flushed i (replication_slots st)) (set_fs f' st)).
Proof.
  intros Hnf Hs Hu Hd Hm.
  destruct (save_nf i (NameStr s) LOG st m Hnf Hm) as (f' & Hnf' & Hd' & E).
  { by rewrite (list_lookup_total_correct _ _ _ Hs). }
  rewrite (list_lookup_total_correct _ _ _ Hs) in Hd'.
  exists f'. split; [done|]. split; [done|].
  cbn [checkpoint_loop]. unfold read_slot. pure_steps.
  rewrite (list_lookup_total_correct _ _ _ Hs), Hu. cbn [negb].
  unfold dir_exists, get_dirs. pure_steps. rewrite Hm.
  rewrite bool_decide_true by done. cbn [negb]. pure_steps.
  bind_step E. f_equal. f_equal. apply alter_agree. intros x Hx.
  assert (x = s) by congruence. subst x. unfold flushed. by rewrite Hu.
Qed.

Lemma flushed_in_use s : in_use (flushed s) = in_use s.
Proof. unfold flushed. destruct (in_use s) eqn:E; [|done]. by destruct s. Qed.

Lemma flushed_data s : data (flushed s) = data s.
Proof. unfold flushed. destruct (in_use s); by destruct s. Qed.

Lemma flushed_dirty s : in_use s = true → dirty (flushed s) = false.
Proof. intros E. unfold flushed. rewrite E. by destruct s. Qed.

Lemma lookup_alter_flushed (i k : nat) (l : list ReplicationSlot) s :
  alter flushed i l !! k = Some s →
  ∃ s0, l !! k = Some s0 ∧ in_use s = in_use s0 ∧ data s = data s0
        ∧ (k ≠ i → s = s0).
Proof.
  intros H. destruct (decide (k = i)) as [->|Hne].
  - rewrite list_lookup_alter_eq in H. destruct (l !! i) as [s0|]; [|done].
    cbn in H. injection H as <-. exists s0.
    by rewrite flushed_in_use, flushed_data.
  - rewrite list_lookup_alter_ne in H by done. by exists s.
Qed.

Lemma names_unique_alter_flushed (i : nat) (l : list ReplicationSlot) :
  names_unique l → names_unique (alter flushed i l).
Proof.
  intros Hu a b sa sb Ha Hb Hua Hub Hn.
  destruct (lookup_alter_flushed _ _ _ _ Ha) as (sa0 & Ha0 & Eua & Eda & _).
  destruct (lookup_alter_flushed _ _ _ _ Hb) as (sb0 & Hb0 & Eub & Edb & _).
  apply (Hu a b sa0 sb0); try done; try congruence.
  unfold NameStr in *. congruence.
Qed.

Lemma set_slots_fs_once l1 l2 f2 st :
  set_slots l2 (set_fs f2 (set_slots l1 st)) = set_slots l2 (set_fs f2 st).
Proof. by destruct st. Qed.

(** One turn of the checkpoint loop when no call fails: the entry is
    flushed and only the directory of a dirty slot in use changes. *)
Lemma checkpoint_loop_step n i s st :
  no_faults (fs st) →
  replication_slots st !! i = Some s →
  (in_use s = true → is_Some (fs_dirs (fs st) !! NameStr s)) →
  ∃ f1, no_faults f1
        ∧ checkpoint_loop (S n) i st
          = checkpoint_loop n (S i)
              (set_slots (alter flushed i (replication_slots st)) (set_fs f1 st))
        ∧ (∀ d, d ≠ NameStr s ∨ in_use s = false ∨ dirty s = false →
                fs_dirs f1 !! d = fs_dirs (fs st) !! d)
        ∧ (∀ m, in_use s = true → dirty s = true →
                fs_dirs (fs st) !! NameStr s = Some m →
                fs_dirs f1 !! NameStr s = Some (rewritten_files (data s) m))
        ∧ (∀ d, is_Some (fs_dirs (fs st) !! d) → is_Some (fs_dirs f1 !! d)).
Proof.
  intros Hnf Hs Hdir.
  destruct (in_use s) eqn:Hu; [destruct (dirty s) eqn:Hd|].
  - destruct Hdir as [m Hm]; [done|].
    destruct (checkpoint_loop_write n i s m st Hnf Hs Hu Hd Hm) as (f1 & Hnf1 & Hd1 & E).
    exists f1. split; [done|]. split; [done|]. rewrite Hd1. split; [|split].
    + intros d [Hne|[?|?]]; [|done..]. by rewrite lookup_insert_ne.
    + intros m' _ _ Hm'. rewrite lookup_insert_eq. congruence.
    + intros d Hsome. destruct (decide (d = NameStr s)) as [->|Hne].
      * by rewrite lookup_insert_eq.
      * by rewrite lookup_insert_ne.
  - exists (fs st). split; [done|]. split.
    { rewrite (checkpoint_loop_skip n i s st Hs); [by destruct st|].
      intros _. split; [done|]. by apply Hdir. }
    split; [done|]. split; [done|done].
  - exists (fs st). split; [done|]. split.
    { rewrite (checkpoint_loop_skip n i s st Hs); [by destruct st|]. by rewrite Hu. }
    split; [done|]. split; [done|done].
Qed.

(** The checkpoint loop from entry [i] to the end of the array, when no
    call fails and every slot in use has its directory. *)
Lemma checkpoint_loop_nf n : ∀ i st,
  no_faults (fs st) →
  (i + n = length (replication_slots st))%nat →
  names_unique (replication_slots st) →
  (∀ k s, replication_slots st !! k = Some s → in_use s = true →
          is_Some (fs_dirs (fs st) !! NameStr s)) →
  ∃ l' f',
    checkpoint_loop n i st = Done tt (set_slots l' (set_fs f' st))
    ∧ no_faults f'
    ∧ (∀ k, l' !! k = if decide (k < i)%nat then replication_slots st !! k
                      else flushed <$> replication_slots st !! k)
    ∧ (∀ k s m, (i ≤ k)%nat → replication_slots st !! k = Some s →
                in_use s = true → dirty s = true →
                fs_dirs (fs st) !! NameStr s = Some m →
                fs_dirs f' !! NameStr s = Some (rewritten_files (data s) m))
    ∧ (∀ d, (∀ k s, (i ≤ k)%nat → replication_slots st !! k = Some s →
                    in_use s = true → dirty s = true → NameStr s ≠ d) →
            fs_dirs f' !! d = fs_dirs (fs st) !! d)
    ∧ (∀ d, is_Some (fs_dirs (fs st) !! d) → is_Some (fs_dirs f' !! d)).
Proof.
  induction n as [|n IH]; intros i st Hnf Hlen Hu Hdirs.
  - exists (replication_slots st), (fs st). rewrite set_slots_fs_same.
    split; [done|]. split; [done|]. split; [|split; [|done]].
    + intros k. destruct (decide (k < i)%nat); [done|].
      rewrite lookup_ge_None_2 by lia. done.
    + intros k s m Hk Hs. apply lookup_lt_Some in Hs. lia.
  - destruct (lookup_lt_is_Some_2 (replication_slots st) i) as [s Hs]; [lia|].
    destruct (checkpoint_loop_step n i s st Hnf Hs (Hdirs i s Hs))
      as (f1 & Hnf1 & E & Hother & Hmine & Hkeep).
    rewrite E. clear E.
    destruct (IH (S i) (set_slots (alter flushed i (replication_slots st)) (set_fs f1 st)))
      as (l' & f' & E & Hnf' & Hl' & Ha & Hb & Hc).
    { by destruct st. }
    { destruct st. st_simpl. st_simpl in Hlen. rewrite length_alter. lia. }
    { destruct st. st_simpl. by apply names_unique_alter_flushed. }
    { intros k x Hx Hux. destruct st as [slots ? ? ? f0 ? ? ? ? ? ? ? ?].
      st_simpl in Hx. st_simpl. st_simpl in Hkeep. apply Hkeep.
      destruct (lookup_alter_flushed _ _ _ _ Hx) as (x0 & Hx0 & Eu & Ed & _).
      unfold NameStr. rewrite Ed. apply (Hdirs k x0 Hx0). congruence. }
    rewrite set_slots_fs_twice in E.
    destruct st as [slots my held crit f0 xm cx mn mx smode ild rip reps].
    st_simpl in Hnf. st_simpl in Hlen. st_simpl in Hu. st_simpl in Hdirs.
    st_simpl in Hs. st_simpl in Hother. st_simpl in Hmine. st_simpl in Hkeep.
    st_simpl in Hl'. st_simpl in Ha. st_simpl in Hb. st_simpl in Hc. st_simpl.
    exists l', f'. split; [exact E|]. split; [done|]. split; [|split; [|split]].
    + intros k. rewrite Hl'.
      destruct (decide (k < S i)%nat), (decide (k < i)%nat); try lia.
      * by rewrite list_lookup_alter_ne by lia.
      * assert (k = i) by lia. subst k. by rewrite list_lookup_alter_eq.
      * by rewrite list_lookup_alter_ne by lia.
    + intros k x m Hk Hx Hux Hdx Hm.
      destruct (decide (k = i)) as [->|Hne].
      * assert (x = s) by congruence. subst x.
        rewrite Hb; [by apply Hmine|].
        intros k' x' Hk' Hx' Hux' _ Hn.
        rewrite list_lookup_alter_ne in Hx' by lia.
        assert (k' = i) by (by apply (Hu k' i x' s)). lia.
      * apply (Ha k x m); [lia| |done|done|].
        { by rewrite list_lookup_alter_ne. }
        rewrite Hother; [done|].
        destruct (in_use s) eqn:Hus; [|by right; left].
        left. intros Hn. apply Hne. by apply (Hu k i x s).
    + intros d Hd. rewrite Hb.
      * apply Hother. destruct (in_use s) eqn:Hus; [|by right; left].
        destruct (dirty s) eqn:Hds; [|by right; right].
        left. intros ->. by apply (Hd i s).
      * intros k x Hk Hx. rewrite list_lookup_alter_ne in Hx by lia.
        apply (Hd k x); [lia|done].
    + intros d Hd. by apply Hc, Hkeep.
Qed.

Lemma lookup_from_zero (l' l : list ReplicationSlot) :
  (∀ k, l' !! k = if decide (k < 0)%nat then l !! k else flushed <$> l !! k) →
  l' = flushed <$> l.
Proof.
  intros H. apply list_eq. intros k. rewrite H, list_lookup_fmap.
  destruct (decide (k < 0)%nat); [lia|done].
Qed.

Lemma rewritten_files_lookup d m :
  rewritten_files d m !! "state" = Some (Complete (saved_record d))
  ∧ rewritten_files d m !! "state.backup" = Some (Complete (saved_record d))
  ∧ rewritten_files d m !! "state.tmp" = None.
Proof.
  unfold rewritten_files. split; [by rewrite lookup_insert_eq|]. split.
  - by rewrite lookup_insert_ne, lookup_delete_ne, lookup_insert_eq.
  - by rewrite lookup_insert_ne, lookup_delete_eq.
Qed.

(** [CheckPointReplicationSlots] on a file system where nothing fails,
    with distinct names among the slots in use and a directory for each
    of them: every slot in use is clean afterwards and keeps its data,
    free entries are untouched, and each slot that was dirty has state
    and state.backup holding the record of its data and no state.tmp.  A
    directory that belongs to no dirty slot in use is left as it was, the
    allocation lock is released again and the only report is the DEBUG1
    line. *)
Theorem checkpoint_flushes_dirty_slots (st : State) :
  no_faults (fs st) →
  names_unique (replication_slots st) →
  (∀ k s, replication_slots st !! k = Some s → in_use s = true →
          is_Some (fs_dirs (fs st) !! NameStr s)) →
  ∃ st',
    CheckPointReplicationSlots st = Done tt st'
    ∧ replication_slots st' = flushed <$> replication_slots st
    ∧ (∀ k s, replication_slots st !! k = Some s → in_use s = true →
              dirty s = true →
              fs_file (fs st') (NameStr s) "state"
              = Some (Complete (saved_record (data s)))
              ∧ fs_file (fs st') (NameStr s) "state.backup"
                = Some (Complete (saved_record (data s)))
              ∧ fs_file (fs st') (NameStr s) "state.tmp" = None)
    ∧ (∀ d, (∀ k s, replication_slots st !! k = Some s → in_use s = true →
                    dirty s = true → NameStr s ≠ d) →
            fs_dirs (fs st') !! d = fs_dirs (fs st) !! d)
    ∧ no_faults (fs st')
    ∧ held_lwlocks st' = held_lwlocks st
    ∧ MyReplicationSlot st' = MyReplicationSlot st
    ∧ reports st'
      = reports st ++ [mkReport DEBUG1 ERRCODE_DEFAULT
                         "performing replication slot checkpoint"].
Proof.
  intros Hnf Hu Hdirs. unfold CheckPointReplicationSlots.
  report_step. unfold LWLockAcquire, LWLockRelease. pure_steps.
  destruct st as [slots my held crit f0 xm cx mn mx smode ild rip reps].
  st_simpl in Hnf. st_simpl in Hu. st_simpl in Hdirs. st_simpl.
  unfold max_replication_slots at 1. st_simpl.
  lazymatch goal with
  | |- context [mbind _ (checkpoint_loop _ 0) ?s0] =>
      destruct (checkpoint_loop_nf (length slots) 0 s0 Hnf eq_refl Hu Hdirs)
        as (l' & f' & E & Hnf' & Hl' & Ha & Hb & _)
  end.
  bind_step E. clear E. unfold modify. st_simpl. rewrite remove_lock_head.
  st_simpl in Hl'. st_simpl in Ha. st_simpl in Hb.
  eexists. split; [reflexivity|]. st_simpl.
  split; [by apply lookup_from_zero|].
  split; [|split; [|done]].
  - intros k s Hs Hus Hds. destruct (Hdirs k s Hs Hus) as [m Hm].
    unfold fs_file. rewrite (Ha k s m); [|lia|done..]. cbn.
    apply rewritten_files_lookup.
  - intros d Hd. apply Hb. intros k s _. apply Hd.
Qed.

(** The checkpoint loop over entries none of which needs a write. *)
Lemma checkpoint_loop_clean n : ∀ i st,
  (i + n = length (replication_slots st))%nat →
  (∀ k s, replication_slots st !! k = Some s → in_use s = true →
          dirty s = false ∧ is_Some (fs_dirs (fs st) !! NameStr s)) →
  ∃ l',
    checkpoint_loop n i st = Done tt (set_slots l' st)
    ∧ (∀ k, l' !! k = if decide (k < i)%nat then replication_slots st !! k
                      else flushed <$> replication_slots st !! k).
Proof.
  induction n as [|n IH]; intros i st Hlen Hc.
  - exists (replication_slots st). split; [by destruct st|].
    intros k. destruct (decide (k < i)%nat); [done|].
    rewrite lookup_ge_None_2 by lia. done.
  - destruct (lookup_lt_is_Some_2 (replication_slots st) i) as [s Hs]; [lia|].
    rewrite (checkpoint_loop_skip n i s st Hs (Hc i s Hs)).
    destruct (IH (S i) (set_slots (alter flushed i (replication_slots st)) st))
      as (l' & E & Hl').
    { destruct st. st_simpl. st_simpl in Hlen. rewrite length_alter. lia. }
    { intros k x Hx Hux. destruct st as [slots ? ? ? f0 ? ? ? ? ? ? ? ?].
      st_simpl in Hx. st_simpl. st_simpl in Hc.
      destruct (lookup_alter_flushed _ _ _ _ Hx) as (x0 & Hx0 & Eu & Ed & Hsame).
      rewrite Eu in Hux. destruct (Hc k x0 Hx0 Hux) as [Hd0 Hm0].
      unfold NameStr. rewrite Ed. split; [|done].
      destruct (decide (k = i)) as [->|Hne].
      - rewrite list_lookup_alter_eq, Hx0 in Hx. injection Hx as <-.
        by apply flushed_dirty.
      - by rewrite (Hsame Hne). }
    exists l'. split.
    { rewrite E. by destruct st. }
    intros k. rewrite Hl'. destruct st as [slots ? ? ? f0 ? ? ? ? ? ? ? ?]. st_simpl.
    destruct (decide (k < S i)%nat), (decide (k < i)%nat); try lia.
    + by rewrite list_lookup_alter_ne by lia.
    + assert (k = i) by lia. subst k. by rewrite list_lookup_alter_eq.
    + by rewrite list_lookup_alter_ne by lia.
Qed.

(** [CheckPointReplicationSlots] when no slot in use is dirty and the
    existence check finds the directory of each: beyond these checks it
    makes no system call (the clock, which counts the calls other than
    stat, has not moved), so that no failure of an open, write, fsync,
    rename, mkdir or removal can change its outcome.  It returns with
    every file as it was and has only cleared just_dirtied of the slots in
    use. *)
Theorem checkpoint_clean_table_writes_nothing (st : State) :
  (∀ k s, replication_slots st !! k = Some s → in_use s = true →
          dirty s = false ∧ is_Some (fs_dirs (fs st) !! NameStr s)) →
  ∃ st',
    CheckPointReplicationSlots st = Done tt st'
    ∧ fs st' = fs st
    ∧ replication_slots st' = flushed <$> replication_slots st
    ∧ (∀ k s, replication_slots st !! k = Some s →
              ∃ s', replication_slots st' !! k = Some s'
                    ∧ data s' = data s ∧ dirty s' = dirty s
                    ∧ in_use s' = in_use s ∧ active s' = active s)
    ∧ held_lwlocks st' = held_lwlocks st.
Proof.
  intros Hc. unfold CheckPointReplicationSlots.
  report_step. unfold LWLockAcquire, LWLockRelease. pure_steps.
  destruct st as [slots my held crit f0 xm cx mn mx smode ild rip reps].
  st_simpl in Hc. st_simpl. unfold max_replication_slots at 1. st_simpl.
  lazymatch goal with
  | |- context [mbind _ (checkpoint_loop _ 0) ?s0] =>
      destruct (checkpoint_loop_clean (length slots) 0 s0 eq_refl Hc) as (l' & E & Hl')
  end.
  bind_step E. clear E. unfold modify. st_simpl. rewrite remove_lock_head.
  st_simpl in Hl'. apply lookup_from_zero in Hl'. subst l'.
  eexists. split; [reflexivity|]. st_simpl.
  split; [done|]. split; [done|]. split; [|done].
  intros k s Hs. exists (flushed s). rewrite list_lookup_fmap, Hs.
  split; [done|]. rewrite flushed_data, flushed_in_use. split; [done|].
  unfold flushed. destruct (in_use s) eqn:Hus; [|done].
  destruct (Hc k s Hs Hus) as [Hd _]. destruct s. cbn in *. by subst.
Qed.

Lemma first_free_from_app used free k :
  Forall (λ s, in_use s = true) used →
  first_free_from k (used ++ free) = first_free_from (k + length used) free.
Proof.
  intros H. revert k. induction H as [|s used Hs _ IH]; intros k; simpl.
  - by rewrite Nat.add_0_r.
  - rewrite Hs, IH. f_equal. lia.
Qed.

Lemma alter_app_head {A} (f : A → A) (used : list A) s free :
  alter f (length used) (used ++ s :: free) = (used ++ [f s]) ++ free.
Proof.
  rewrite <- (Nat.add_0_r (length used)), alter_app_r. cbn.
  by rewrite <- app_assoc.
Qed.

(** One turn of the startup loop, when no call fails. *)
Lemma startup_loop_step e rest st :
  no_faults (fs st) →
  startup_entry_ok (fs_dirs (fs st)) e →
  (startup_data (fs_dirs (fs st)) e = None ∨
   is_Some (first_free_from 0 (replication_slots st))) →
  ∃ st1,
    startup_loop (e :: rest) st = startup_loop rest st1
    ∧ no_faults (fs st1)
    ∧ fs_dirs (fs st1)
      = (if startup_removes (fs_dirs (fs st)) e then delete e.1 (fs_dirs (fs st))
         else fs_dirs (fs st))
    ∧ replication_slots st1
      = match startup_data (fs_dirs (fs st)) e,
              first_free_from 0 (replication_slots st) with
        | Some d, Some j => alter (restored_slot d) j (replication_slots st)
        | _, _ => replication_slots st
        end.
Proof.
  intros Hnf Hok Hfree. destruct e as [d l].
  unfold startup_entry_ok, startup_removes, startup_data, startup_record, startup_skips in *.
  cbn [fst snd] in *. cbn [startup_loop].
  destruct (bool_decide (d = ".") || bool_decide (d = "..")) eqn:Hdot.
  { exists st. cbn [orb negb andb]. by pure_steps. }
  destruct (bool_decide (l = Some false)) eqn:Hreg.
  { exists st. cbn [orb negb andb]. by pure_steps. }
  cbn [orb negb andb] in *. destruct Hok as [?|(m & Hm & Hok)]; [done|].
  destruct (string_endswith d ".tmp") eqn:Htmp.
  - cbn [negb andb].
    rewrite bool_decide_false by (by intros [? ?]). cbn [negb].
    destruct (rmtree_nf d st m Hnf Hm) as (f1 & E1 & Hnf1 & Hd1).
    pure_steps. bind_step E1. cbn [negb].
    lazymatch goal with
    | |- context [mbind _ (fsync_fname ?p) ?s] =>
        destruct (fsync_fname_nf p s) as (f2 & E2 & Hnf2 & Hd2); [by destruct st|]
    end.
    bind_step E2. eexists. split; [reflexivity|].
    destruct st. st_simpl. st_simpl in Hd2. st_simpl in Hd1.
    split; [done|]. split; [by rewrite Hd2, Hd1|done].
  - destruct Hok as [?|(Hnt & cp & Hst & Hchk)]; [done|].
    rewrite (file_of_lookup _ _ _ _ Hm), Hst in *.
    destruct (decide (persistency (slotdata cp) = RS_PERSISTENT)) as [Hp|Hp].
    + pose proof (bool_decide_eq_true_2 _ Hp) as Hb. rewrite Hb in *. clear Hb.
      rewrite bool_decide_true by (by eexists). cbn [negb].
      destruct Hfree as [?|[j Hj]]; [done|].
      destruct (restore_primary d st cp Hnf) as (f' & Hnf' & Hd & E); [| |done..|].
      { by rewrite (file_of_lookup _ _ _ _ Hm). }
      { by rewrite (file_of_lookup _ _ _ _ Hm). }
      cbv zeta in E. rewrite Hj in E. bind_step E. rewrite Hj.
      eexists. split; [reflexivity|]. destruct st. st_simpl. st_simpl in Hd.
      split; [done|]. split; [done|done].
    + pose proof (bool_decide_eq_false_2 _ Hp) as Hb. rewrite Hb in *. clear Hb.
      rewrite bool_decide_false by (by intros [? ?]). cbn [negb].
      destruct (restore_ephemeral_run d st m cp Hnf Hm Hnt Hst Hchk)
        as (st1 & E & Hs1 & Hd1 & Hnf1 & _).
      { by destruct (persistency (slotdata cp)). }
      bind_step E. exists st1. split; [reflexivity|]. split; [done|].
      split; [done|]. rewrite Hs1. by destruct (first_free_from _ _).
Qed.

Lemma startup_data_local ds ds' e :
  ds !! e.1 = ds' !! e.1 → startup_data ds e = startup_data ds' e.
Proof. intros H. unfold startup_data, startup_record, file_of. by rewrite H. Qed.

Lemma startup_removes_local ds ds' e :
  ds !! e.1 = ds' !! e.1 → startup_removes ds e = startup_removes ds' e.
Proof. intros H. unfold startup_removes. by rewrite (startup_data_local _ _ _ H). Qed.

Lemma startup_entry_ok_local ds ds' e :
  ds !! e.1 = ds' !! e.1 → startup_entry_ok ds e → startup_entry_ok ds' e.
Proof. intros H. unfold startup_entry_ok. by rewrite H. Qed.

Lemma omap_agree {A B} (f g : A → option B) (l : list A) :
  (∀ x, x ∈ l → f x = g x) → omap f l = omap g l.
Proof.
  induction l as [|x l IH]; intros H; [done|]. cbn.
  rewrite (H x) by left. rewrite IH; [done|]. intros y Hy. apply H. by right.
Qed.

Lemma existsb_agree {A} (f g : A → bool) (l : list A) :
  (∀ x, x ∈ l → f x = g x) → existsb f l = existsb g l.
Proof.
  induction l as [|x l IH]; intros H; [done|]. cbn.
  rewrite (H x) by left. rewrite IH; [done|]. intros y Hy. apply H. by right.
Qed.

Lemma existsb_name_fresh (d : string) (g : string * option bool → bool)
    (l : list (string * option bool)) :
  d ∉ l.*1 → existsb (λ e, bool_decide (e.1 = d) && g e) l = false.
Proof.
  induction l as [|x l IH]; intros H; [done|]. cbn in *.
  apply not_elem_of_cons in H as [Hx Hl].
  rewrite bool_decide_false by done. cbn. by apply IH.
Qed.

(** The startup loop over a listing of distinct names, when no call fails,
    every entry is in order and the array has room: [used] are the entries
    filled so far, [free] the free ones behind them. *)
Lemma startup_loop_nf entries : ∀ st used free,
  no_faults (fs st) →
  NoDup entries.*1 →
  replication_slots st = used ++ free →
  Forall (λ s, in_use s = true) used →
  Forall (λ s, in_use s = false) free →
  Forall (startup_entry_ok (fs_dirs (fs st))) entries →
  (length (omap (startup_data (fs_dirs (fs st))) entries) ≤ length free)%nat →
  ∃ st',
    startup_loop entries st = Done tt st'
    ∧ no_faults (fs st')
    ∧ replication_slots st'
      = used
        ++ zip_with restored_slot (omap (startup_data (fs_dirs (fs st))) entries) free
        ++ drop (length (omap (startup_data (fs_dirs (fs st))) entries)) free
    ∧ ∀ d, fs_dirs (fs st') !! d
           = if existsb (λ e, bool_decide (e.1 = d)
                              && startup_removes (fs_dirs (fs st)) e) entries
             then None else fs_dirs (fs st) !! d.
Proof.
  induction entries as [|e rest IH];
    intros st used free Hnf Hnd Hsl Hused Hfree Hok Hlen.
  - exists st. cbn. by rewrite drop_0.
  - cbn [fmap list_fmap] in Hnd. apply NoDup_cons in Hnd as [Hfresh Hnd].
    apply Forall_cons in Hok as [Hoke Hokr].
    assert (Hloc : ∀ ds1 : gmap string (gmap string FileImage), (∀ d, d ≠ e.1 → ds1 !! d = fs_dirs (fs st) !! d) →
                          ∀ x, x ∈ rest → ds1 !! x.1 = fs_dirs (fs st) !! x.1).
    { intros ds1 H x Hx. apply H. intros Heq. apply Hfresh. rewrite <- Heq.
      by apply list_elem_of_fmap_2. }
    destruct (startup_loop_step e rest st Hnf Hoke) as (st1 & E & Hnf1 & Hd1 & Hs1).
    { destruct (startup_data (fs_dirs (fs st)) e) eqn:Hdata; [right|by left].
      cbn [omap list_omap] in Hlen. rewrite Hdata in Hlen.
      destruct free as [|s free']; [cbn in Hlen; lia|].
      rewrite Hsl, (first_free_from_app _ _ _ Hused). cbn.
      apply Forall_cons in Hfree as [-> _]. by eexists. }
    assert (Hother : ∀ d, d ≠ e.1 → fs_dirs (fs st1) !! d = fs_dirs (fs st) !! d).
    { intros d Hne. rewrite Hd1. destruct (startup_removes _ e); [|done].
      by rewrite lookup_delete_ne. }
    rewrite E. clear E. cbn [omap list_omap] in *.
    rewrite (omap_agree (startup_data (fs_dirs (fs st)))
               (startup_data (fs_dirs (fs st1)))) in *
      by (intros x Hx; apply startup_data_local; symmetry; by apply Hloc).
    assert (Hokr1 : Forall (startup_entry_ok (fs_dirs (fs st1))) rest).
    { apply Forall_forall. intros x Hx.
      apply (startup_entry_ok_local (fs_dirs (fs st))); [symmetry; by apply Hloc|].
      by apply (proj1 (Forall_forall _ _) Hokr). }
    assert (Hdirs : ∀ st',
      (∀ d, fs_dirs (fs st') !! d
            = if existsb (λ x, bool_decide (x.1 = d)
                               && startup_removes (fs_dirs (fs st1)) x) rest
              then None else fs_dirs (fs st1) !! d) →
      ∀ d, fs_dirs (fs st') !! d
           = if existsb (λ x, bool_decide (x.1 = d)
                              && startup_removes (fs_dirs (fs st)) x) (e :: rest)
             then None else fs_dirs (fs st) !! d).
    { intros st' H d. rewrite H. cbn [existsb].
      rewrite (existsb_agree
                 (λ x, bool_decide (x.1 = d) && startup_removes (fs_dirs (fs st1)) x)
                 (λ x, bool_decide (x.1 = d) && startup_removes (fs_dirs (fs st)) x))
        by (intros x Hx; f_equal; apply startup_removes_local; by apply Hloc).
      destruct (decide (e.1 = d)) as [<-|Hne].
      - rewrite bool_decide_true by done. rewrite existsb_name_fresh by done.
        cbn. rewrite Hd1. destruct (startup_removes _ e); [|done].
        by rewrite lookup_delete_eq.
      - rewrite bool_decide_false by done. cbn. rewrite Hother by done. done. }
    destruct (startup_data (fs_dirs (fs st)) e) as [d0|] eqn:Hdata.
    + destruct free as [|s free']; [cbn in Hlen; lia|].
      apply Forall_cons in Hfree as [Hs Hfree'].
      rewrite Hsl, (first_free_from_app _ _ _ Hused) in Hs1. cbn in Hs1.
      rewrite Hs in Hs1. rewrite ?Nat.add_0_l, alter_app_head in Hs1.
      destruct (IH st1 (used ++ [restored_slot d0 s]) free') as (st' & E & Hnf' & Hs' & Hd');
        [done|done|done| |done|done|cbn in Hlen; lia|].
      { apply Forall_app. split; [done|]. by apply Forall_singleton. }
      exists st'. split; [done|]. split; [done|]. split; [|by apply Hdirs].
      rewrite Hs'. cbn. by rewrite <- app_assoc.
    + rewrite Hsl in Hs1.
      destruct (IH st1 used free) as (st' & E & Hnf' & Hs' & Hd'); [done..|].
      exists st'. split; [done|]. split; [done|]. split; [done|by apply Hdirs].
Qed.

Lemma restored_prefix_length {A B} (f : A → B → B) (ds : list A) (l : list B) :
  (length ds ≤ length l)%nat →
  length (zip_with f ds l ++ drop (length ds) l) = length l.
Proof. intros H. rewrite length_app, length_zip_with, length_drop. lia. Qed.

Lemma restored_prefix_lookup (ds : list ReplicationSlotPersistentData)
    (l : list ReplicationSlot) k d :
  (length ds ≤ length l)%nat → ds !! k = Some d →
  ∃ s, (zip_with restored_slot ds l ++ drop (length ds) l) !! k = Some s
       ∧ data s = d ∧ in_use s = true ∧ active s = false.
Proof.
  intros Hlen Hk.
  destruct (lookup_lt_is_Some_2 l k) as [s0 Hs0].
  { apply lookup_lt_Some in Hk. lia. }
  exists (restored_slot d s0). split; [|done].
  rewrite lookup_app_l.
  - rewrite lookup_zip_with, Hk. cbn. by rewrite Hs0.
  - rewrite length_zip_with. apply lookup_lt_Some in Hk, Hs0. lia.
Qed.

(** [StartupReplicationSlots] over a listing of distinct names, on a file
    system where nothing fails and with an array of free entries that has
    room: entries ".", ".." and non-directories are passed over, every
    leftover name.tmp and every directory of a slot that is not
    persistent is removed, and no other directory changes; the persistent
    slots are restored, in the order of the listing, into the first
    entries of the array, in use and not active, the remaining entries
    staying as they were.  Unless the array is empty, the published xmin,
    catalog xmin and minimum and maximum LSN are then those computed from
    the restored array. *)
Theorem startup_restores_saved_slots (entries : list (string * option bool))
    (st : State) :
  no_faults (fs st) →
  NoDup entries.*1 →
  Forall (λ s, in_use s = false) (replication_slots st) →
  Forall (startup_entry_ok (fs_dirs (fs st))) entries →
  (length (omap (startup_data (fs_dirs (fs st))) entries)
   ≤ length (replication_slots st))%nat →
  let ds := omap (startup_data (fs_dirs (fs st))) entries in
  ∃ st',
    StartupReplicationSlots (Some entries) st = Done tt st'
    ∧ replication_slots st'
      = zip_with restored_slot ds (replication_slots st)
        ++ drop (length ds) (replication_slots st)
    ∧ (∀ k d, ds !! k = Some d →
              ∃ s, replication_slots st' !! k = Some s
                   ∧ data s = d ∧ in_use s = true ∧ active s = false)
    ∧ (∀ d, fs_dirs (fs st') !! d
            = if existsb (λ e, bool_decide (e.1 = d)
                               && startup_removes (fs_dirs (fs st)) e) entries
              then None else fs_dirs (fs st) !! d)
    ∧ (replication_slots st ≠ [] →
       replication_slot_xmin st' = (required_xmin (replication_slots st')).1
       ∧ replication_slot_catalog_xmin st' = (required_xmin (replication_slots st')).2
       ∧ replication_slot_min_lsn st'
         = min_required (required_lsn (server_mode st') (replication_slots st'))
       ∧ replication_slot_max_lsn st'
         = max_required (required_lsn (server_mode st') (replication_slots st'))).
Proof.
  intros Hnf Hnd Hfree Hok Hlen ds. unfold StartupReplicationSlots.
  report_step.
  destruct st as [slots my held crit f0 xm cx mn mx smode ild rip reps].
  st_simpl in Hnf. st_simpl in Hfree. st_simpl in Hok. st_simpl in Hlen.
  st_simpl in ds. st_simpl.
  lazymatch goal with
  | |- context [mbind _ (startup_loop entries) ?s0] =>
      destruct (startup_loop_nf entries s0 [] slots Hnf Hnd eq_refl
                  (Forall_nil_2 _) Hfree Hok Hlen)
        as (stL & E & HnfL & HsL & HdL)
  end.
  bind_step E. clear E. st_simpl in HsL. st_simpl in HdL.
  rewrite app_nil_l in HsL. fold ds in HsL.
  assert (HlenL : length (replication_slots stL) = length slots)
    by (rewrite HsL; by apply restored_prefix_length).
  pure_steps. unfold max_replication_slots at 1.
  destruct (Nat.eqb_spec (length (replication_slots stL)) 0) as [Hz|Hnz].
  - exists stL. split; [done|]. split; [done|].
    split; [intros k d Hk; rewrite HsL; by apply restored_prefix_lookup|].
    split; [done|]. intros Hne. destruct slots; [done|]. cbn in HlenL. lia.
  - rewrite (bind_Done _ _ _ _ _ (compute_required_xmin_run false stL)).
    lazymatch goal with
    | |- context [mbind _ (ReplicationSlotsComputeRequiredLSN None) ?s] =>
        rewrite (bind_Done _ _ _ _ _ (compute_required_lsn_run None s
                   ltac:(unfold max_replication_slots; by destruct stL)))
    end.
    eexists. split; [reflexivity|].
    destruct stL as [slotsL ? ? ? fL ? ? ? ? ? ? ? ?].
    st_simpl in HsL. st_simpl in HdL. st_simpl.
    split; [done|].
    split; [intros k d Hk; rewrite HsL; by apply restored_prefix_lookup|].
    split; [done|]. intros _. done.
Qed.

End Slot.

(** ** Closed instances *)

(** C4. Two logical slots in use, the first with restart_lsn 5 and the
    second with an invalid restart_lsn (as a slot has between its creation
    and the reservation of WAL): [logical_restart_lsn] returns INVALID, not
    5; with the two entries swapped it returns 5.  The invalid value is
    not neutral in the reduction, and the result depends on the order of
    the array. *)
Theorem C4_logical_restart_lsn_invalid_not_neutral :
  let st := initial_state [logical_slot "a" 5; logical_slot "b" 0] (reliable_fs ∅) in
  let st' := initial_state [logical_slot "b" 0; logical_slot "a" 5] (reliable_fs ∅) in
  ReplicationSlotsComputeLogicalRestartLSN st = Done InvalidXLogRecPtr st
  ∧ ReplicationSlotsComputeLogicalRestartLSN st' = Done 5 st'.
Proof. split; reflexivity. Qed.

(** C6. Slot "s1" is dirty with restart_lsn 4096 and a save of it (the
    checkpoint, at LOG) has written both of its copies.  Before the rename
    the owner of the slot advances restart_lsn to 8192, marks the slot
    dirty and enters its own [SaveSlotToPath], whose first block clears
    just_dirtied before it waits for io_in_progress_lock.  The first save
    goes through without a report and its final check finds just_dirtied
    false: it clears dirty although the slot was marked dirty after its
    initial check.  The state file holds the record with 4096, the array
    holds 8192, and a later save of the slot writes nothing. *)
Theorem C6_save_clears_dirty_after_mark :
  let d1 := mkPersistentData "s1" 1 RS_PERSISTENT false 5 7 4096 in
  let d2 := mkPersistentData "s1" 1 RS_PERSISTENT false 5 7 8192 in
  let st := initial_state [dirty_slot "s1" 4096] (reliable_fs {["s1" := ∅]}) in
  let owner (k : nat) :=
    match k with
    | 2%nat => [OpSetData 0 d2; OpMarkDirty 0; OpSaveBegin 0]
    | _ => []
    end in
  let o := SaveSlotToPath_with sample_SLOT_MAGIC sample_sizeof_slotdata
             sample_slotdata_image (λ k, run_ops (owner k)) 0 "s1" LOG st in
  let st1 := final_state o in
  let o2 := SaveSlotToPath sample_SLOT_MAGIC sample_sizeof_slotdata
              sample_slotdata_image 0 "s1" LOG st1 in
  o = Done tt st1
  ∧ reports st1 = []
  ∧ dirty (replication_slots st1 !!! 0%nat) = false
  ∧ data (replication_slots st1 !!! 0%nat) = d2
  ∧ fs_file (fs st1) "s1" "state"
    = Some (Complete (saved_record sample_SLOT_MAGIC sample_sizeof_slotdata
                        sample_slotdata_image d1))
  ∧ o2 = Done tt (final_state o2)
  ∧ fs (final_state o2) = fs st1
  ∧ data (replication_slots (final_state o2) !!! 0%nat) = d2
  ∧ dirty (replication_slots (final_state o2) !!! 0%nat) = false.
Proof. vm_compute. repeat split; reflexivity. Qed.

(** C9, as stated, fails when MAX_SLOTS is 0: state_out keeps its previous
    contents, here (7, 9, true), and not the values of the (empty) scan. *)
Lemma C9_counterexample :
  let st := initial_state [] (reliable_fs ∅) in
  let out := mkSlotState 7 9 true in
  max_replication_slots st = 0%nat
  ∧ ReplicationSlotsComputeRequiredLSN (Some out) st = Done (Some out) st
  ∧ Some out ≠ Some (required_lsn (server_mode st) (replication_slots st)).
Proof. split; [reflexivity|]. split; [reflexivity|]. discriminate. Qed.

Lemma C9_required_lsn_state_out_witness :
  (let st := initial_state [logical_slot "a" 5] (reliable_fs ∅) in
   ∃ st', ReplicationSlotsComputeRequiredLSN (Some (mkSlotState 7 9 false)) st
          = Done (Some (mkSlotState 5 5 true)) st')
  ∧ (let st := initial_state [] (reliable_fs ∅) in
     ReplicationSlotsComputeRequiredLSN (Some (mkSlotState 7 9 true)) st
     = Done (Some (mkSlotState 7 9 true)) st).
Proof.
  split.
  - apply (proj1 (C9_required_lsn_state_out (mkSlotState 7 9 false)
                    (initial_state [logical_slot "a" 5] (reliable_fs ∅)))).
    vm_compute. discriminate.
  - apply (proj2 (C9_required_lsn_state_out (mkSlotState 7 9 true)
                    (initial_state [] (reliable_fs ∅)))).
    reflexivity.
Defined.

Lemma C10_find_validates_name_witness :
  let st := initial_state [physical_slot "s1" false] (reliable_fs ∅) in
  ∃ r, ReplicationSlotFind sample_NAMEDATALEN (Some "Slot 1") st = Raised r st
       ∧ is_error (elevel r) = true
       ∧ (errcode r = ERRCODE_INVALID_NAME ∨ errcode r = ERRCODE_NAME_TOO_LONG).
Proof.
  apply (proj2 (C10_find_validates_name sample_NAMEDATALEN (Some "Slot 1")
                  (initial_state [physical_slot "s1" false] (reliable_fs ∅)))).
  right; right. exists "S"%char. split; [simpl; auto|].
  intros H. apply valid_name_char_In in H. vm_compute in H. discriminate.
Defined.

Lemma C3_required_xmin_publishes_minima_witness :
  let st := initial_state
              [slot_with_xmins "a" 5 7; slot_with_xmins "b" 4294967290 0;
               zero_slot; slot_with_xmins "c" 9 4294967295]
              (reliable_fs ∅) in
  ∃ agg_xmin agg_catalog_xmin,
    ReplicationSlotsComputeRequiredXmin cyclic_precedes false st
    = Done tt (set_slot_xmins agg_xmin agg_catalog_xmin st)
    ∧ is_xid_minimum cyclic_precedes [5; 4294967290; 9] agg_xmin
    ∧ is_xid_minimum cyclic_precedes [7; 4294967295] agg_catalog_xmin.
Proof.
  apply (C3_required_xmin_publishes_minima cyclic_precedes false
           (initial_state
              [slot_with_xmins "a" 5 7; slot_with_xmins "b" 4294967290 0;
               zero_slot; slot_with_xmins "c" 9 4294967295]
              (reliable_fs ∅))).
  - split.
    + intros x Hx. vm_compute in Hx. by repeat destruct Hx as [<-|Hx].
    + intros x y z Hx Hy Hz. vm_compute in Hx, Hy, Hz.
      repeat destruct Hx as [<-|Hx]; try done;
        repeat destruct Hy as [<-|Hy]; try done;
        repeat destruct Hz as [<-|Hz]; try done.
  - split.
    + intros x Hx. vm_compute in Hx. by repeat destruct Hx as [<-|Hx].
    + intros x y z Hx Hy Hz. vm_compute in Hx, Hy, Hz.
      repeat destruct Hx as [<-|Hx]; try done;
        repeat destruct Hy as [<-|Hy]; try done;
        repeat destruct Hz as [<-|Hz]; try done.
Defined.

(** C5, as stated, fails for a physical request: the existing slot "s1" is
    acquired, so its entry changes (active becomes true) and the session
    ends up with a current slot. *)
Lemma C5_counterexample :
  let st := initial_state [physical_slot "s1" false] (reliable_fs ∅) in
  find_slot "s1" (replication_slots st) = Some 0%nat
  ∧ ∃ st',
      ReplicationSlotCreate sample_NAMEDATALEN sample_SLOT_MAGIC
        sample_sizeof_slotdata sample_slotdata_image
        (Some "s1") RS_PERSISTENT false InvalidOid 0 st = Done tt st'
      ∧ replication_slots st' = [physical_slot "s1" true]
      ∧ replication_slots st' ≠ replication_slots st
      ∧ MyReplicationSlot st' = Some 0%nat.
Proof.
  split; [reflexivity|]. eexists. split; [vm_compute; reflexivity|].
  split; [reflexivity|]. split; [discriminate|reflexivity].
Qed.

Lemma C5_create_duplicate_witness :
  let st := initial_state [physical_slot "s1" true] (reliable_fs ∅) in
  let o := ReplicationSlotCreate sample_NAMEDATALEN sample_SLOT_MAGIC
             sample_sizeof_slotdata sample_slotdata_image
             (Some "s1") RS_EPHEMERAL false 7 4096 st in
  held_lwlocks (final_state o) = held_lwlocks st
  ∧ o = Raised (mkReport ERROR ERRCODE_DUPLICATE_OBJECT
                  "replication slot already exists") st.
Proof.
  intros st o.
  destruct (C5_create_duplicate sample_NAMEDATALEN sample_SLOT_MAGIC
              sample_sizeof_slotdata sample_slotdata_image
              "s1" RS_EPHEMERAL false 7 4096 st 0%nat) as (Hh & Hl & _).
  - apply name_ok_valid. reflexivity.
  - reflexivity.
  - reflexivity.
  - split; [exact Hh|]. apply Hl. discriminate.
Defined.


(** ** The examples, run *)

Lemma sample_slotdata_image_length d :
  List.length (sample_slotdata_image d) = sample_sizeof_slotdata.
Proof.
  unfold sample_slotdata_image, name_bytes, le_bytes.
  rewrite !length_app, !length_map, !length_seq, length_take, length_app,
    length_replicate.
  unfold sample_sizeof_slotdata. lia.
Qed.

Lemma reliable_fs_no_faults ds : no_faults (reliable_fs ds).
Proof. by intros n k p. Qed.

(** A save of slot "s1", dirty, into its empty directory, with a mark_dirty
    by another backend between the two writes: both files hold records
    that verify. *)
Lemma C7_saved_records_well_formed_witness :
  let st := initial_state [dirty_slot "s1" 4096] (reliable_fs {["s1" := ∅]}) in
  let mark_during_save (k : nat) :=
    match k with 1%nat => [OpMarkDirty 0] | _ => [] end in
  let o := SaveSlotToPath_with sample_SLOT_MAGIC sample_sizeof_slotdata
             sample_slotdata_image (λ k, run_ops (mark_during_save k))
             0 "s1" ERROR st in
  ∃ cp_backup cp_state,
    fs_file (fs (final_state o)) "s1" "state.backup" = Some (Complete cp_backup)
    ∧ fs_file (fs (final_state o)) "s1" "state" = Some (Complete cp_state)
    ∧ fs_file (fs (final_state o)) "s1" "state.tmp" = None
    ∧ check_record sample_SLOT_MAGIC sample_sizeof_slotdata sample_slotdata_image
        cp_state = None.
Proof.
  intros st mark_during_save o.
  destruct (C7_saved_records_well_formed sample_SLOT_MAGIC sample_sizeof_slotdata
              sample_slotdata_image sample_slotdata_image_length
              mark_during_save 0%nat "s1" ERROR st) as (_ & Hchk & Hdone).
  destruct (Hdone (final_state o)) as (cb & cs & Hb & Hs & Ht & _ & Hwf).
  - reflexivity.
  - vm_compute. reflexivity.
  - vm_compute. reflexivity.
  - exists cb, cs. repeat split; try assumption. by apply Hchk.
Defined.

(** The same save leaves the slot dirty. *)
Lemma save_dirty_flags_witness :
  let st := initial_state [dirty_slot "s1" 4096] (reliable_fs {["s1" := ∅]}) in
  let mark_during_save (k : nat) :=
    match k with 1%nat => [OpMarkDirty 0] | _ => [] end in
  let o := SaveSlotToPath_with sample_SLOT_MAGIC sample_sizeof_slotdata
             sample_slotdata_image (λ k, run_ops (mark_during_save k))
             0 "s1" ERROR st in
  dirty (replication_slots (final_state o) !!! 0%nat) = true.
Proof.
  intros st mark_during_save o.
  destruct (save_dirty_flags sample_SLOT_MAGIC sample_sizeof_slotdata
              sample_slotdata_image sample_slotdata_image_length
              mark_during_save 0%nat "s1" ERROR st)
    as [_ Hsave].
  - simpl. lia.
  - destruct (Hsave (final_state o)) as (_ & _ & Hmark & _).
    + reflexivity.
    + vm_compute. reflexivity.
    + vm_compute. reflexivity.
    + apply (Hmark [] []); [reflexivity|]. intros [].
Defined.

(** Saving slot "s1" and restoring its directory into an empty array. *)
Lemma C1_save_restore_round_trip_witness :
  let st := initial_state [dirty_slot "s1" 4096] (reliable_fs {["s1" := ∅]}) in
  let st1 := final_state (SaveSlotToPath sample_SLOT_MAGIC sample_sizeof_slotdata
                            sample_slotdata_image 0 "s1" ERROR st) in
  let st2 := initial_state [zero_slot; zero_slot] (reliable_fs (fs_dirs (fs st1))) in
  ∃ st3,
    RestoreSlotFromDisk sample_SLOT_MAGIC sample_sizeof_slotdata
      sample_slotdata_image "s1" st2 = Done tt st3
    ∧ data (replication_slots st3 !!! 0%nat)
      = mkPersistentData "s1" 1 RS_PERSISTENT false 5 7 4096
    ∧ in_use (replication_slots st3 !!! 0%nat) = true
    ∧ active (replication_slots st3 !!! 0%nat) = false.
Proof.
  intros st st1 st2.
  destruct (C1_save_restore_round_trip sample_SLOT_MAGIC sample_sizeof_slotdata
              sample_slotdata_image sample_slotdata_image_length
              0%nat "s1" ERROR st st1 st2 0%nat)
    as (st3 & E & Hd & _ & _ & _ & _ & _ & _ & Hu & Ha).
  - simpl. lia.
  - reflexivity.
  - reflexivity.
  - vm_compute. reflexivity.
  - vm_compute. reflexivity.
  - vm_compute. reflexivity.
  - apply reliable_fs_no_faults.
  - reflexivity.
  - exists st3. split; [exact E|]. split; [exact Hd|]. split; [exact Hu|exact Ha].
Defined.

(** C2, as stated, fails when the directory holds a state.tmp: the
    restorer removes it together with state.backup, and the wrong magic of
    the primary file is a PANIC at once, with no warning and no second
    read, although the backup held a record that verifies. *)
Lemma C2_counterexample :
  let good := saved_record sample_SLOT_MAGIC sample_sizeof_slotdata sample_slotdata_image
                (mkPersistentData "s1" 1 RS_PERSISTENT false 5 7 4096) in
  let bad := mkOnDisk 0 (checksum good) 1 (length_ good) (slotdata good) in
  let files : gmap string FileImage :=
    <["state.tmp" := Short 0]>
      (<["state" := Complete bad]> {["state.backup" := Complete good]}) in
  let st := initial_state [zero_slot] (reliable_fs {["s1" := files]}) in
  let check := check_record sample_SLOT_MAGIC sample_sizeof_slotdata
                 sample_slotdata_image in
  let o := RestoreSlotFromDisk sample_SLOT_MAGIC sample_sizeof_slotdata
             sample_slotdata_image "s1" st in
  check bad = Some BadMagic ∧ check good = None
  ∧ o = Raised (mkReport PANIC ERRCODE_FILE_ACCESS "replication slot file has wrong magic")
          (final_state o)
  ∧ (∀ r, In r (reports (final_state o)) → elevel r ≠ WARNING)
  ∧ fs_file (fs (final_state o)) "s1" "state.backup" = None
  ∧ fs_file (fs (final_state o)) "s1" "state" = Some (Complete bad).
Proof.
  vm_compute. repeat split; try reflexivity.
  intros r [<-|[]]. discriminate.
Qed.

(** Without a state.tmp the same two files are recovered from the backup. *)
Lemma C2_restore_falls_back_to_backup_witness :
  let good := saved_record sample_SLOT_MAGIC sample_sizeof_slotdata sample_slotdata_image
                (mkPersistentData "s1" 1 RS_PERSISTENT false 5 7 4096) in
  let bad := mkOnDisk 0 (checksum good) 1 (length_ good) (slotdata good) in
  let files : gmap string FileImage :=
    <["state" := Complete bad]> {["state.backup" := Complete good]} in
  let st := initial_state [zero_slot] (reliable_fs {["s1" := files]}) in
  let o := RestoreSlotFromDisk sample_SLOT_MAGIC sample_sizeof_slotdata
             sample_slotdata_image "s1" st in
  In (mkReport WARNING ERRCODE_FILE_ACCESS
        "replication slot file has wrong magic, try backup file")
     (reports (final_state o))
  ∧ o = Done tt (final_state o)
  ∧ fs_file (fs (final_state o)) "s1" "state" = Some (Complete good)
  ∧ data (replication_slots (final_state o) !!! 0%nat) = slotdata good.
Proof.
  intros good bad files st o.
  assert (Hchk : check_record sample_SLOT_MAGIC sample_sizeof_slotdata
                   sample_slotdata_image bad = Some BadMagic) by (vm_compute; reflexivity).
  pose proof (C2_restore_falls_back_to_backup sample_SLOT_MAGIC sample_sizeof_slotdata
                sample_slotdata_image "s1" st files bad good BadMagic
                (reliable_fs_no_faults _) eq_refl eq_refl Hchk (λ _, eq_refl)) as H.
  cbv zeta in H.
  assert (Ht : files !! "state.tmp" = None) by reflexivity.
  rewrite Ht in H. destruct H as [Hw Hrest].
  - split; [exact Hw|].
    assert (Hc : check_record sample_SLOT_MAGIC sample_sizeof_slotdata
                   sample_slotdata_image good = None) by (vm_compute; reflexivity).
    rewrite Hc in Hrest. cbn [slotdata persistency good saved_record] in Hrest.
    rewrite decide_True in Hrest by reflexivity.
    destruct Hrest as (Hs & _ & Ho & Hsl). fold o in Ho, Hs, Hsl.
    split; [exact Ho|]. split; [exact Hs|]. by rewrite Hsl.
Defined.

(** A session releases its ephemeral slot "e1". *)
Lemma C8_release_drops_ephemeral_witness :
  let st := set_MyReplicationSlot (Some 0%nat)
              (initial_state [ephemeral_slot "e1"; physical_slot "s1" false]
                 (reliable_fs {["e1" := ∅]})) in
  ∃ st', ReplicationSlotRelease cyclic_precedes st = Done tt st'
         ∧ in_use (replication_slots st' !!! 0%nat) = false
         ∧ active (replication_slots st' !!! 0%nat) = false
         ∧ MyReplicationSlot st' = None
         ∧ ReplicationSlotFind sample_NAMEDATALEN (Some "e1") st' = Done false st'.
Proof.
  intros st.
  destruct (C8_release_drops_ephemeral sample_NAMEDATALEN cyclic_precedes
              st 0%nat (ephemeral_slot "e1"))
    as (st' & E & _ & Hu & Ha & Hmy & Hf).
  - reflexivity.
  - reflexivity.
  - reflexivity.
  - reflexivity.
  - reflexivity.
  - apply name_ok_valid. reflexivity.
  - intros [|[|i]] [|[|j]] si sj Hi Hj; simpl in Hi, Hj; try done;
      injection Hi as <-; injection Hj as <-; simpl; discriminate.
  - by intros n p.
  - by exists st'.
Defined.

(** ** The further operations, run *)

(** The value of application_name as it stands in postgresql.conf, quoted
    and padded, trimmed for the slot name. *)
Lemma trim_str_spec_witness :
  let s := " 'dn_6001 a'  " in
  (all_blank "'" s ∧ trim_str (Some s) 64 "'" = TrimNULL)
  ∨ (∃ pre t suf,
       s = pre +:+ t +:+ suf
       ∧ all_blank "'" pre ∧ all_blank "'" suf ∧ trimmed "'" t
       ∧ trim_str (Some s) 64 "'" = Trimmed t).
Proof.
  apply (trim_str_spec " 'dn_6001 a'  " 64 "'"%char); [discriminate|].
  vm_compute. reflexivity.
Defined.

Lemma trim_str_room_witness :
  trim_str (Some (" '" +:+ "dn_6001" +:+ "' ")) 7 "'" = TrimOverrun.
Proof.
  apply (trim_str_room " '" "dn_6001" "' " 7 "'"%char).
  - intros c Hc. vm_compute in Hc.
    repeat (destruct Hc as [<-|Hc]; [vm_compute; reflexivity|]). destruct Hc.
  - intros c Hc. vm_compute in Hc.
    repeat (destruct Hc as [<-|Hc]; [vm_compute; reflexivity|]). destruct Hc.
  - split.
    + exists "d"%char, "n_6001". split; [reflexivity|vm_compute; reflexivity].
    + exists "dn_600", "1"%char. split; [reflexivity|vm_compute; reflexivity].
  - vm_compute. split; [reflexivity|discriminate].
Defined.

Lemma trim_str_idempotent_witness :
  trim_str (Some "dn_6001 a") 64 "'" = Trimmed "dn_6001 a".
Proof.
  apply (trim_str_idempotent " 'dn_6001 a'  " "dn_6001 a" 64 "'"%char).
  reflexivity.
Defined.

(** The name "a<b" passes the check of slot names and not [ValidateName];
    the name "Slot 1" passes [ValidateName] and not the check of slot
    names. *)
Lemma validate_name_compared_witness :
  let st := initial_state [] (reliable_fs ∅) in
  (ReplicationSlotValidateName sample_NAMEDATALEN (Some "a<b") ERROR st = Done true st
   ∧ ValidateName sample_NAMEDATALEN (Some "a<b") st ≠ Done true st)
  ∧ (ValidateName sample_NAMEDATALEN (Some "Slot 1") st = Done true st
     ∧ ReplicationSlotValidateName sample_NAMEDATALEN (Some "Slot 1") ERROR st
       ≠ Done true st).
Proof.
  intros st. split.
  - assert (Hacc : ReplicationSlotValidateName sample_NAMEDATALEN (Some "a<b") ERROR st
                   = Done true st) by reflexivity.
    split; [exact Hacc|]. intros H.
    pose proof (proj1 (proj1 (validate_name_compared sample_NAMEDATALEN "a<b" st)
                         Hacc) H) as (_ & Hlt & _).
    apply Hlt. simpl. auto.
  - assert (Hacc : ValidateName sample_NAMEDATALEN (Some "Slot 1") st = Done true st)
      by reflexivity.
    split; [exact Hacc|]. intros H.
    pose proof (proj1 (proj2 (validate_name_compared sample_NAMEDATALEN "Slot 1" st)
                         Hacc) H "S"%char (or_introl eq_refl)) as Hin.
    vm_compute in Hin. repeat (destruct Hin as [Hin|Hin]; [discriminate Hin|]).
    exact Hin.
Defined.

Lemma compute_required_lsn_publishes_witness :
  let st := initial_state
              [logical_slot "a" 40; physical_slot "p" false; zero_slot;
               logical_slot "b" 0; logical_slot "c" 24]
              (reliable_fs ∅) in
  ∃ mn mx,
    ReplicationSlotsComputeRequiredLSN None st
    = Done None (set_max_lsn mx (set_min_lsn mn st))
    ∧ is_min_valid_lsn [40; 0; 0; 24] mn
    ∧ is_max_lsn [40; 0; 0; 24] mx.
Proof.
  intros st. apply (compute_required_lsn_publishes st). discriminate.
Defined.

Lemma logical_restart_lsn_minimum_witness :
  let st := initial_state
              [logical_slot "a" 40; physical_slot "p" false; zero_slot;
               logical_slot "c" 24]
              (reliable_fs ∅) in
  ∃ r, ReplicationSlotsComputeLogicalRestartLSN st = Done r st
       ∧ is_min_valid_lsn [40; 24] r.
Proof.
  intros st. apply (logical_restart_lsn_minimum st).
  intros l Hl. vm_compute in Hl.
  repeat (destruct Hl as [<-|Hl]; [discriminate|]). destruct Hl.
Defined.

Lemma save_writes_both_files_witness :
  let st := initial_state [dirty_slot "s1" 4096]
              (reliable_fs {["s1" := {["state.tmp" := Short 3]}]}) in
  ∃ st',
    SaveSlotToPath sample_SLOT_MAGIC sample_sizeof_slotdata sample_slotdata_image
      0 "s1" LOG st = Done tt st'
    ∧ reports st' = []
    ∧ dirty (replication_slots st' !!! 0%nat) = false
    ∧ fs_file (fs st') "s1" "state.tmp" = None.
Proof.
  intros st.
  destruct (save_writes_both_files sample_SLOT_MAGIC sample_sizeof_slotdata
              sample_slotdata_image 0%nat "s1" LOG st {["state.tmp" := Short 3]})
    as (st' & E & Hr & _ & _ & Hd & _ & _ & _ & _ & Ht & _).
  - apply reliable_fs_no_faults.
  - reflexivity.
  - reflexivity.
  - exists st'. split; [exact E|]. split; [exact Hr|]. split; [exact Hd|exact Ht].
Defined.

Lemma save_missing_directory_witness :
  let st := initial_state [dirty_slot "s1" 4096] (reliable_fs ∅) in
  let o := SaveSlotToPath sample_SLOT_MAGIC sample_sizeof_slotdata sample_slotdata_image
             0 "s1" LOG st in
  o = Done tt (final_state o)
  ∧ reports (final_state o) = [mkReport LOG ERRCODE_FILE_ACCESS "could not create file"]
  ∧ dirty (replication_slots (final_state o) !!! 0%nat) = true.
Proof.
  intros st o.
  destruct (save_missing_directory sample_SLOT_MAGIC sample_sizeof_slotdata
              sample_slotdata_image 0%nat "s1" LOG st) as (_ & _ & Hd & Ho & Hr).
  - reflexivity.
  - reflexivity.
  - split; [exact Ho|]. split; [exact Hr|exact Hd].
Defined.

Lemma create_fresh_slot_witness :
  let st := initial_state [physical_slot "a" false; zero_slot] (reliable_fs ∅) in
  ∃ st',
    ReplicationSlotCreate sample_NAMEDATALEN sample_SLOT_MAGIC sample_sizeof_slotdata
      sample_slotdata_image (Some "s1") RS_PERSISTENT false 7 4096 st = Done tt st'
    ∧ MyReplicationSlot st' = Some 1%nat
    ∧ data (replication_slots st' !!! 1%nat)
      = mkPersistentData "s1" 7 RS_PERSISTENT false 0 0 4096
    ∧ ReplicationSlotFind sample_NAMEDATALEN (Some "s1") st' = Done true st'.
Proof.
  intros st.
  destruct (create_fresh_slot sample_NAMEDATALEN sample_SLOT_MAGIC sample_sizeof_slotdata
              sample_slotdata_image "s1" RS_PERSISTENT false 7 4096 st 1%nat)
    as (st' & E & Hmy & _ & _ & _ & _ & _ & _ & Hd & _ & _ & _ & Hf).
  - apply name_ok_valid. reflexivity.
  - reflexivity.
  - reflexivity.
  - apply reliable_fs_no_faults.
  - reflexivity.
  - reflexivity.
  - exists st'. split; [exact E|]. split; [exact Hmy|]. split; [exact Hd|exact Hf].
Defined.

Lemma create_table_full_witness :
  let st := initial_state [physical_slot "a" false; logical_slot "b" 5] (reliable_fs ∅) in
  ∃ st',
    ReplicationSlotCreate sample_NAMEDATALEN sample_SLOT_MAGIC sample_sizeof_slotdata
      sample_slotdata_image (Some "s1") RS_PERSISTENT false 7 4096 st
    = Raised (mkReport ERROR ERRCODE_CONFIGURATION_LIMIT_EXCEEDED
                "all replication slots are in use") st'
    ∧ reports st' = [mkReport LOG ERRCODE_DEFAULT "Slot Name: a";
                     mkReport LOG ERRCODE_DEFAULT "Slot Name: b"].
Proof.
  intros st.
  destruct (create_table_full sample_NAMEDATALEN sample_SLOT_MAGIC sample_sizeof_slotdata
              sample_slotdata_image "s1" RS_PERSISTENT false 7 4096 st)
    as (st' & E & _ & _ & _ & _ & Hr).
  - apply name_ok_valid. reflexivity.
  - reflexivity.
  - reflexivity.
  - exists st'. split; [exact E|exact Hr].
Defined.

Lemma acquire_missing_slot_witness :
  let st := initial_state [physical_slot "a" false; zero_slot] (reliable_fs ∅) in
  ReplicationSlotAcquire sample_NAMEDATALEN (Some "b") false st
  = Raised (mkReport ERROR ERRCODE_UNDEFINED_OBJECT "replication slot does not exist") st.
Proof.
  intros st. apply (acquire_missing_slot sample_NAMEDATALEN "b" false st).
  - apply name_ok_valid. reflexivity.
  - reflexivity.
Defined.

(** A second session acquires the physical slot "p" that a first one has
    active. *)
Lemma acquire_active_slot_witness :
  let st := initial_state [physical_slot "p" true] (reliable_fs ∅) in
  ReplicationSlotAcquire sample_NAMEDATALEN (Some "p") false st
  = Done tt
      (set_MyReplicationSlot (Some 0%nat)
         (set_reports [mkReport WARNING ERRCODE_OBJECT_IN_USE
                         "replication slot is already active"] st)).
Proof.
  intros st.
  apply (acquire_active_slot sample_NAMEDATALEN "p" false st 0%nat (physical_slot "p" true)).
  - apply name_ok_valid. reflexivity.
  - reflexivity.
  - reflexivity.
  - reflexivity.
Defined.

Lemma acquire_release_round_trip_witness :
  let st := initial_state [logical_slot "a" 5; physical_slot "p" false] (reliable_fs ∅) in
  (ReplicationSlotAcquire sample_NAMEDATALEN (Some "p") false;;
   ReplicationSlotRelease cyclic_precedes) st
  = Done tt st.
Proof.
  intros st.
  apply (acquire_release_round_trip sample_NAMEDATALEN cyclic_precedes "p" false st 1%nat
           (physical_slot "p" false)).
  - apply name_ok_valid. reflexivity.
  - reflexivity.
  - reflexivity.
  - reflexivity.
  - reflexivity.
  - reflexivity.
Defined.

Lemma drop_missing_slot_witness :
  let st := initial_state [physical_slot "a" false] (reliable_fs ∅) in
  ReplicationSlotDrop sample_NAMEDATALEN cyclic_precedes true (λ _, mret tt) (Some "b") st
  = Raised (mkReport ERROR ERRCODE_UNDEFINED_OBJECT "replication slot does not exist") st.
Proof.
  intros st.
  apply (drop_missing_slot sample_NAMEDATALEN cyclic_precedes true (λ _, mret tt) "b" st).
  - apply name_ok_valid. reflexivity.
  - reflexivity.
Defined.

(** The physical slot "p" is active in another session and is dropped all
    the same, after a warning. *)
Lemma drop_removes_slot_witness :
  let st := initial_state [physical_slot "p" true] (reliable_fs {["p" := ∅]}) in
  ∃ st1,
    ReplicationSlotDrop sample_NAMEDATALEN cyclic_precedes true (λ _, mret tt) (Some "p") st
    = Done tt st1
    ∧ in_use (replication_slots st1 !!! 0%nat) = false
    ∧ reports st1 = [mkReport WARNING ERRCODE_OBJECT_IN_USE
                       "replication slot is already active"]
    ∧ fs_dirs (fs st1) = ∅.
Proof.
  intros st.
  destruct (drop_removes_slot sample_NAMEDATALEN cyclic_precedes true (λ _, mret tt) "p"
              st 0%nat (physical_slot "p" true) ∅)
    as (st1 & E & Hu & _ & _ & _ & _ & Hr & Hd & _).
  - apply name_ok_valid. reflexivity.
  - reflexivity.
  - reflexivity.
  - intros _. split; reflexivity.
  - intros [|k] [|k'] s1 s2 H1 H2; simpl in H1, H2; try discriminate; reflexivity.
  - apply reliable_fs_no_faults.
  - reflexivity.
  - reflexivity.
  - exists st1. split; [exact E|]. split; [exact Hu|]. split; [exact Hr|].
    rewrite Hd. reflexivity.
Defined.

Lemma create_release_drop_round_trip_witness :
  let st := initial_state [physical_slot "a" false; zero_slot]
              (reliable_fs {["a" := ∅]}) in
  ∃ st3,
    (ReplicationSlotCreate sample_NAMEDATALEN sample_SLOT_MAGIC sample_sizeof_slotdata
       sample_slotdata_image (Some "s1") RS_PERSISTENT false 0 4096;;
     ReplicationSlotRelease cyclic_precedes;;
     ReplicationSlotDrop sample_NAMEDATALEN cyclic_precedes true (λ _, mret tt)
       (Some "s1")) st
    = Done tt st3
    ∧ fs_dirs (fs st3) = fs_dirs (fs st)
    ∧ in_use (replication_slots st3 !!! 1%nat) = false.
Proof.
  intros st.
  destruct (create_release_drop_round_trip sample_NAMEDATALEN sample_SLOT_MAGIC
              cyclic_precedes sample_sizeof_slotdata sample_slotdata_image
              true (λ _, mret tt) "s1" false 0 4096 st 1%nat)
    as (st3 & E & Hd & Hu & _).
  - apply name_ok_valid. reflexivity.
  - reflexivity.
  - reflexivity.
  - apply reliable_fs_no_faults.
  - reflexivity.
  - reflexivity.
  - exists st3. split; [exact E|]. split; [exact Hd|exact Hu].
Defined.

(** The directory "e1" left by an ephemeral slot is removed at restart. *)
Lemma restore_removes_ephemeral_witness :
  let cp := saved_record sample_SLOT_MAGIC sample_sizeof_slotdata sample_slotdata_image
              (mkPersistentData "e1" 1 RS_EPHEMERAL false 0 0 0) in
  let st := initial_state [zero_slot]
              (reliable_fs {["e1" := {["state" := Complete cp]}]}) in
  ∃ st',
    RestoreSlotFromDisk sample_SLOT_MAGIC sample_sizeof_slotdata sample_slotdata_image
      "e1" st = Done tt st'
    ∧ replication_slots st' = [zero_slot]
    ∧ fs_dirs (fs st') = ∅.
Proof.
  intros cp st.
  destruct (restore_removes_ephemeral sample_SLOT_MAGIC sample_sizeof_slotdata
              sample_slotdata_image "e1" st {["state" := Complete cp]} cp)
    as (st' & E & Hs & Hd & _).
  - apply reliable_fs_no_faults.
  - reflexivity.
  - reflexivity.
  - reflexivity.
  - vm_compute. reflexivity.
  - reflexivity.
  - exists st'. split; [exact E|]. split; [exact Hs|]. rewrite Hd. reflexivity.
Defined.

(** A state file cut short after three bytes stops the restart. *)
Lemma restore_unreadable_state_witness :
  let st := initial_state [zero_slot]
              (reliable_fs {["s1" := {["state" := Short 3]}]}) in
  ∃ st',
    RestoreSlotFromDisk sample_SLOT_MAGIC sample_sizeof_slotdata sample_slotdata_image
      "s1" st
    = Raised (mkReport PANIC ERRCODE_FILE_ACCESS "could not read file") st'
    ∧ replication_slots st' = [zero_slot].
Proof.
  intros st.
  destruct (restore_unreadable_state sample_SLOT_MAGIC sample_sizeof_slotdata
              sample_slotdata_image "s1" st {["state" := Short 3]})
    as (st' & E & Hs & _).
  - apply reliable_fs_no_faults.
  - reflexivity.
  - reflexivity.
  - intros cp H. vm_compute in H. discriminate H.
  - exists st'. split; [exact E|exact Hs].
Defined.


(** Slot "s1" is created as a persistent slot and found again by a server
    that starts on the files the creation left. *)
Lemma created_slot_at_restart_witness :
  let st := initial_state [zero_slot] (reliable_fs ∅) in
  let st1 := final_state
               (ReplicationSlotCreate sample_NAMEDATALEN sample_SLOT_MAGIC
                  sample_sizeof_slotdata sample_slotdata_image
                  (Some "s1") RS_PERSISTENT false 7 4096 st) in
  let st2 := initial_state [zero_slot; zero_slot] (reliable_fs (fs_dirs (fs st1))) in
  ∃ st3,
    RestoreSlotFromDisk sample_SLOT_MAGIC sample_sizeof_slotdata sample_slotdata_image
      "s1" st2 = Done tt st3
    ∧ data (replication_slots st3 !!! 0%nat)
      = mkPersistentData "s1" 7 RS_PERSISTENT false 0 0 4096
    ∧ in_use (replication_slots st3 !!! 0%nat) = true.
Proof.
  intros st st1 st2.
  destruct (created_slot_at_restart sample_NAMEDATALEN sample_SLOT_MAGIC
              sample_sizeof_slotdata sample_slotdata_image
              "s1" RS_PERSISTENT false 7 4096 st st2 0%nat 0%nat)
    as (st3 & E & _ & Hd & Hu & _).
  - apply name_ok_valid. reflexivity.
  - reflexivity.
  - reflexivity.
  - apply reliable_fs_no_faults.
  - reflexivity.
  - reflexivity.
  - vm_compute. reflexivity.
  - apply reliable_fs_no_faults.
  - reflexivity.
  - exists st3. split; [exact E|]. split; [exact Hd|exact Hu].
Defined.

(** The session's slot "a" has restart_lsn 5, which is reset. *)
Lemma set_dummy_standby_lsn_invalid_witness :
  let st := set_MyReplicationSlot (Some 0%nat)
              (initial_state [logical_slot "a" 5] (reliable_fs ∅)) in
  ∃ st',
    SetDummyStandbySlotLsnInvalid st = Done tt st'
    ∧ restart_lsn (data (replication_slots st' !!! 0%nat)) = InvalidXLogRecPtr
    ∧ dirty (replication_slots st' !!! 0%nat) = true.
Proof.
  intros st.
  destruct (set_dummy_standby_lsn_invalid st 0%nat (logical_slot "a" 5))
    as (st' & E & Hl & _ & _ & _ & Hv & _).
  - reflexivity.
  - reflexivity.
  - exists st'. split; [exact E|]. split; [exact Hl|].
    apply Hv. discriminate.
Defined.

(** The session persists its ephemeral slot "e1". *)
Lemma persist_makes_durable_witness :
  let st := set_MyReplicationSlot (Some 0%nat)
              (initial_state [ephemeral_slot "e1"] (reliable_fs {["e1" := ∅]})) in
  ∃ st',
    ReplicationSlotPersist sample_SLOT_MAGIC sample_sizeof_slotdata
      sample_slotdata_image st = Done tt st'
    ∧ data (replication_slots st' !!! 0%nat)
      = mkPersistentData "e1" 1 RS_PERSISTENT false 0 0 0
    ∧ dirty (replication_slots st' !!! 0%nat) = false.
Proof.
  intros st.
  destruct (persist_makes_durable sample_SLOT_MAGIC sample_sizeof_slotdata
              sample_slotdata_image st 0%nat (ephemeral_slot "e1") ∅)
    as (st' & E & Hd & Hc & _).
  - reflexivity.
  - reflexivity.
  - apply reliable_fs_no_faults.
  - reflexivity.
  - exists st'. split; [exact E|]. split; [exact Hd|exact Hc].
Defined.

(** The directory of the session's slot "s1" is gone and written anew. *)
Lemma slot_save_creates_directory_witness :
  let st := set_MyReplicationSlot (Some 0%nat)
              (initial_state [dirty_slot "s1" 4096] (reliable_fs ∅)) in
  ∃ st',
    ReplicationSlotSave sample_SLOT_MAGIC sample_sizeof_slotdata
      sample_slotdata_image st = Done tt st'
    ∧ fs_file (fs st') "s1" "state"
      = Some (Complete (saved_record sample_SLOT_MAGIC sample_sizeof_slotdata
                          sample_slotdata_image
                          (mkPersistentData "s1" 1 RS_PERSISTENT false 5 7 4096)))
    ∧ dirty (replication_slots st' !!! 0%nat) = false.
Proof.
  intros st.
  destruct (slot_save_creates_directory sample_SLOT_MAGIC sample_sizeof_slotdata
              sample_slotdata_image st 0%nat (dirty_slot "s1" 4096))
    as (st' & E & Hd & Hc & _).
  - reflexivity.
  - reflexivity.
  - apply reliable_fs_no_faults.
  - reflexivity.
  - reflexivity.
  - exists st'. split; [exact E|]. split; [|exact Hc].
    unfold fs_file. rewrite Hd. reflexivity.
Defined.

(** A checkpoint over a dirty slot, a clean slot and a free entry. *)
Lemma checkpoint_flushes_dirty_slots_witness :
  let st := initial_state [dirty_slot "s1" 4096; physical_slot "a" false; zero_slot]
              (reliable_fs {["s1" := ∅; "a" := ∅]}) in
  ∃ st',
    CheckPointReplicationSlots sample_SLOT_MAGIC sample_sizeof_slotdata
      sample_slotdata_image st = Done tt st'
    ∧ fs_file (fs st') "s1" "state"
      = Some (Complete (saved_record sample_SLOT_MAGIC sample_sizeof_slotdata
                          sample_slotdata_image
                          (mkPersistentData "s1" 1 RS_PERSISTENT false 5 7 4096)))
    ∧ fs_dirs (fs st') !! "a" = Some ∅
    ∧ held_lwlocks st' = [].
Proof.
  intros st.
  assert (Hother : ∀ k s, replication_slots st !! k = Some s → in_use s = true →
                          dirty s = true → NameStr s ≠ "a").
  { intros [|[|[|k]]] s Hs Hu Hd; simpl in Hs; try discriminate Hs;
      injection Hs as <-; [discriminate|discriminate Hd|discriminate Hd]. }
  destruct (checkpoint_flushes_dirty_slots sample_SLOT_MAGIC sample_sizeof_slotdata
              sample_slotdata_image st)
    as (st' & E & _ & Hf & Hk & _ & Hh & _).
  - apply reliable_fs_no_faults.
  - intros [|[|[|i]]] [|[|[|j]]] si sj Hi Hj Hui Huj Hn; simpl in Hi, Hj;
      try discriminate; try reflexivity;
      injection Hi as <-; injection Hj as <-; discriminate.
  - intros [|[|[|k]]] s Hs Hu; simpl in Hs; try discriminate;
      injection Hs as <-; try discriminate; eexists; reflexivity.
  - exists st'. split; [exact E|]. split; [|split; [|exact Hh]].
    + apply (Hf 0%nat (dirty_slot "s1" 4096)); reflexivity.
    + rewrite (Hk "a" Hother). reflexivity.
Defined.

(** A file system on which every open, write, fsync, rename, mkdir and
    removal would fail does not disturb a checkpoint that has nothing to
    write. *)
Lemma checkpoint_clean_table_writes_nothing_witness :
  let f := mkFS {["a" := ∅]} 0 (λ _ _ _, true) in
  let st := initial_state [physical_slot "a" false; zero_slot] f in
  ∃ st',
    CheckPointReplicationSlots sample_SLOT_MAGIC sample_sizeof_slotdata
      sample_slotdata_image st = Done tt st'
    ∧ fs st' = f.
Proof.
  intros f st.
  destruct (checkpoint_clean_table_writes_nothing sample_SLOT_MAGIC sample_sizeof_slotdata
              sample_slotdata_image st)
    as (st' & E & Hf & _).
  - intros [|[|k]] s Hs Hu; simpl in Hs; try discriminate;
      injection Hs as <-; try discriminate.
    split; [reflexivity|]. eexists. reflexivity.
  - exists st'. split; [exact E|exact Hf].
Defined.

(** A restart over the directories of a persistent slot "s1", of an
    ephemeral slot "e1" and of a leftover "old.tmp". *)
Lemma startup_restores_saved_slots_witness :
  let rec_of d := saved_record sample_SLOT_MAGIC sample_sizeof_slotdata
                    sample_slotdata_image d in
  let d1 := mkPersistentData "s1" 1 RS_PERSISTENT false 5 7 4096 in
  let e1 := mkPersistentData "e1" 1 RS_EPHEMERAL false 0 0 0 in
  let dirs : gmap string (gmap string FileImage) :=
    <["old.tmp" := ∅]>
      (<["s1" := {["state" := Complete (rec_of d1)]}]>
         {["e1" := {["state" := Complete (rec_of e1)]}]}) in
  let entries := [(".", Some true); ("..", Some true); ("old.tmp", Some true);
                  ("e1", Some true); ("s1", Some true)] in
  let st := initial_state [zero_slot; zero_slot] (reliable_fs dirs) in
  ∃ st',
    StartupReplicationSlots sample_SLOT_MAGIC cyclic_precedes sample_sizeof_slotdata
      sample_slotdata_image (Some entries) st = Done tt st'
    ∧ data (replication_slots st' !!! 0%nat) = d1
    ∧ in_use (replication_slots st' !!! 1%nat) = false
    ∧ fs_dirs (fs st') !! "old.tmp" = None
    ∧ fs_dirs (fs st') !! "e1" = None
    ∧ fs_dirs (fs st') !! "s1" = Some {["state" := Complete (rec_of d1)]}.
Proof.
  intros rec_of d1 e1 dirs entries st.
  assert (Hok : Forall (startup_entry_ok sample_SLOT_MAGIC sample_sizeof_slotdata
                          sample_slotdata_image (fs_dirs (fs st))) entries).
  { repeat apply Forall_cons_2; [by left|by left| | | |apply Forall_nil_2].
    - right. exists ∅. split; [reflexivity|]. left. reflexivity.
    - right. eexists. split; [reflexivity|]. right. split; [reflexivity|].
      exists (rec_of e1). split; [reflexivity|]. vm_compute. reflexivity.
    - right. eexists. split; [reflexivity|]. right. split; [reflexivity|].
      exists (rec_of d1). split; [reflexivity|]. vm_compute. reflexivity. }
  assert (Hnd : NoDup entries.*1).
  { apply (bool_decide_unpack _). vm_compute. exact I. }
  assert (Hfree : Forall (λ s, in_use s = false) (replication_slots st)).
  { repeat apply Forall_cons_2; [reflexivity|reflexivity|apply Forall_nil_2]. }
  destruct (startup_restores_saved_slots sample_SLOT_MAGIC cyclic_precedes
              sample_sizeof_slotdata sample_slotdata_image entries st
              (reliable_fs_no_faults _) Hnd Hfree Hok)
    as (st' & E & Hs & _ & Hd & _).
  - vm_compute. lia.
  - exists st'. split; [exact E|]. rewrite Hs, !Hd.
    split; [reflexivity|]. split; [reflexivity|].
    split; [reflexivity|]. split; [reflexivity|reflexivity].
Defined.
